(** * InvistaMais: the aggregation-and-valuation engine of the /buscar route

    A shallow embedding of the JavaScript sources [src/scraper.js] (the full
    server variant: [strToNumber], [classifyIndicator], [classifyValuation],
    [getRecClass] and the [/buscar] handler) and [src/server.js] (the reduced
    variant of the same handler); further on, the [/buscar-fii] route, the
    [/register] and [/login] routes, [getBrowser] in both files and the
    stand-alone scrapers.

    Modelling conventions.
    - A JavaScript string is the list of its UTF-16 code units ([jsstring]).
    - A JavaScript number is an IEEE 754 binary64 value: Rocq's primitive
      [float].  [parseFloat] is written out following ECMAScript's
      [StrDecimalLiteral] grammar, with correct rounding to nearest even.
    - A raw field is [undefined], [null] or a string ([jsval]).
    - Verdicts are the three strings 'good', 'bad' and 'neutral'.
    - Where a handler awaits between two steps on shared state (the table
      [users], the variable [browser]), each step takes the state as it is
      when it runs, so that what other requests do in between is covered. *)

From Stdlib Require Import String Ascii ZArith NArith Bool List Lia Floats.
From Stdlib Require DecimalPos DecimalN.
Import ListNotations.

#[local] Open Scope N_scope.

(* ------------------------------------------------------------------ *)
(** ** JavaScript strings *)

Module Js.

Definition jsstring := list N.

(** Decoding of a string literal of this file (UTF-8 bytes) into UTF-16 code
    units, so that source literals such as ['Dados essenciais não
    encontrados.'] can be written as they are. *)
Definition cont (b : N) : N := N.land b 63.

Definition utf16 (cp : N) : list N :=
  if cp <? 65536 then [cp]
  else let v := cp - 65536 in [55296 + N.shiftr v 10; 56320 + N.land v 1023].

Fixpoint decode (bs : list N) : list N :=
  match bs with
  | [] => []
  | b0 :: t0 =>
    if b0 <? 192 then b0 :: decode t0
    else match t0 with
    | [] => [b0]
    | b1 :: t1 =>
      if b0 <? 224 then (N.shiftl (N.land b0 31) 6 + cont b1) :: decode t1
      else match t1 with
      | [] => [b0; b1]
      | b2 :: t2 =>
        if b0 <? 240
        then (N.shiftl (N.land b0 15) 12 + N.shiftl (cont b1) 6 + cont b2) :: decode t2
        else match t2 with
        | [] => [b0; b1; b2]
        | b3 :: t3 =>
          utf16 (N.shiftl (N.land b0 7) 18 + N.shiftl (cont b1) 12
                 + N.shiftl (cont b2) 6 + cont b3) ++ decode t3
        end
      end
    end
  end.

Definition lit (s : string) : jsstring :=
  decode (map N_of_ascii (list_ascii_of_string s)).

Definition eqb (a b : jsstring) : bool :=
  if list_eq_dec N.eq_dec a b then true else false.

(** [s === 'k'] for a literal [k]. *)
Definition isLit (s : jsstring) (k : string) : bool := eqb s (lit k).

(** ECMAScript [WhiteSpace] and [LineTerminator] code points: what
    [String.prototype.trim] strips and what the regular expression class
    [\s] matches. *)
Definition isWhiteSpace (c : N) : bool :=
  ((9 <=? c) && (c <=? 13)) || (c =? 32) || (c =? 160) || (c =? 5760)
  || ((8192 <=? c) && (c <=? 8202)) || (c =? 8232) || (c =? 8233)
  || (c =? 8239) || (c =? 8287) || (c =? 12288) || (c =? 65279).

Fixpoint trimStart (s : jsstring) : jsstring :=
  match s with
  | c :: t => if isWhiteSpace c then trimStart t else s
  | [] => []
  end.

Definition trimEnd (s : jsstring) : jsstring := rev (trimStart (rev s)).

Definition trim (s : jsstring) : jsstring := trimEnd (trimStart s).

(** [s.replace(c, r)] for a one-character string pattern [c]: the first
    occurrence only. *)
Fixpoint replaceFirst (c : N) (r : jsstring) (s : jsstring) : jsstring :=
  match s with
  | [] => []
  | d :: t => if d =? c then r ++ t else d :: replaceFirst c r t
  end.

(** [s.replace(/\./g, '')]: every occurrence of the character. *)
Definition removeAll (c : N) (s : jsstring) : jsstring :=
  filter (fun d => negb (d =? c)) s.

(** [s.replace(/R\$\s?/, '')]: the leftmost "R$", with one whitespace
    character after it when there is one. *)
Fixpoint removeCurrency (s : jsstring) : jsstring :=
  match s with
  | [] => []
  | c :: t =>
    match t with
    | d :: u =>
      if (c =? 82) && (d =? 36)
      then match u with
           | w :: u' => if isWhiteSpace w then u' else u
           | [] => []
           end
      else c :: removeCurrency t
    | [] => [c]
    end
  end.

(** Raw values handed over by the page extraction: a field is a string,
    [null] (selector found nothing) or [undefined] (the provider object is
    [{}]). *)
Inductive jsval := JUndefined | JNull | JStr (s : jsstring).

(** ToBoolean on these values. *)
Definition truthy (v : jsval) : bool :=
  match v with
  | JStr (_ :: _) => true
  | _ => false
  end.

(** [v || d] where [d] is a string. *)
Definition orElse (v : jsval) (d : jsstring) : jsstring :=
  match v with
  | JStr (c :: t) => c :: t
  | _ => d
  end.

(** Case mapping restricted to Basic Latin: what [toUpperCase] and
    [toLowerCase] do on ASCII text.  The handlers below take the full
    Unicode mappings as parameters; these are their ASCII instances. *)
Definition asciiUpper (s : jsstring) : jsstring :=
  map (fun c => if (97 <=? c) && (c <=? 122) then c - 32 else c) s.

Definition asciiLower (s : jsstring) : jsstring :=
  map (fun c => if (65 <=? c) && (c <=? 90) then c + 32 else c) s.

End Js.

Import Js.


(* ------------------------------------------------------------------ *)
(** ** JavaScript numbers *)

Module Num.

(** The binary64 value nearest to [(-1)^neg * m * 10^e10] (ties to even):
    an integer is rounded by [binary_normalize]; a proper fraction is the
    correctly rounded quotient of two integers. *)
Definition decimalToSF (neg : bool) (m : N) (e10 : Z) : spec_float :=
  match m with
  | N0 => S754_zero neg
  | Npos p =>
    match e10 with
    | Zneg k => SFdiv prec emax (S754_finite neg p 0) (S754_finite false (Pos.pow 10 k) 0)
    | Z0 => binary_normalize prec emax (if neg then Zneg p else Zpos p) 0 false
    | Zpos k =>
      let n := (p * Pos.pow 10 k)%positive in
      binary_normalize prec emax (if neg then Zneg n else Zpos n) 0 false
    end
  end.

Definition decimalToFloat (neg : bool) (m : N) (e10 : Z) : float :=
  SF2Prim (decimalToSF neg m e10).

Definition isDigit (c : N) : bool := (48 <=? c) && (c <=? 57).

(** Longest run of decimal digits at the head of a string, and the rest. *)
Fixpoint spanDigits (s : jsstring) : list N * jsstring :=
  match s with
  | c :: t =>
    if isDigit c
    then let '(ds, r) := spanDigits t in (c :: ds, r)
    else ([], s)
  | [] => ([], [])
  end.

Definition digitsValue (ds : list N) : N :=
  fold_left (fun acc c => 10 * acc + (c - 48)) ds 0.

(** [ExponentPart]: [e] or [E], an optional sign and at least one digit;
    when the text after the mantissa is not a complete exponent part it is
    not consumed and the exponent is 0. *)
Definition exponentPart (s : jsstring) : Z :=
  match s with
  | c :: t =>
    if (c =? 101) || (c =? 69) then
      let '(neg, t') :=
        match t with
        | d :: u => if d =? 45 then (true, u) else if d =? 43 then (false, u) else (false, t)
        | [] => (false, t)
        end in
      match spanDigits t' with
      | ([], _) => 0%Z
      | (ds, _) => let v := Z.of_N (digitsValue ds) in if neg then (- v)%Z else v
      end
    else 0%Z
  | [] => 0%Z
  end.

Definition startsWith (p s : jsstring) : bool :=
  Js.eqb (firstn (length p) s) p.

(** [StrUnsignedDecimalLiteral] at the head of [s]: [Infinity], or digits
    with an optional fraction and an optional exponent part.  [None] when no
    prefix of [s] is such a literal. *)
Definition unsignedLiteral (neg : bool) (s : jsstring) : option float :=
  if startsWith (lit "Infinity") s
  then Some (if neg then neg_infinity else infinity)
  else
    let '(ip, r1) := spanDigits s in
    let '(fp, r2) :=
      match r1 with
      | c :: t => if c =? 46 then spanDigits t else ([], r1)
      | [] => ([], r1)
      end in
    match ip ++ fp with
    | [] => None
    | ds =>
      Some (decimalToFloat neg (digitsValue ds)
              (exponentPart r2 - Z.of_nat (length fp))%Z)
    end.

(** [parseFloat(s)]: leading whitespace is skipped, the longest prefix that
    is a [StrDecimalLiteral] is converted, and the result is [NaN] when there
    is none. *)
Definition parseFloat (s : jsstring) : float :=
  let r :=
    match trimStart s with
    | c :: t =>
      if c =? 45 then unsignedLiteral true t
      else if c =? 43 then unsignedLiteral false t
      else unsignedLiteral false (c :: t)
    | [] => None
    end in
  match r with
  | Some x => x
  | None => nan
  end.

(** [isNaN] on a number. *)
Definition isNaN (x : float) : bool := is_nan x.

(** Relational operators on numbers ([NaN] compares false with everything). *)
Definition lt (a b : float) : bool := PrimFloat.ltb a b.
Definition gt (a b : float) : bool := PrimFloat.ltb b a.
Definition le (a b : float) : bool := PrimFloat.leb a b.
Definition ge (a b : float) : bool := PrimFloat.leb b a.

(** ToBoolean on a number: [0], [-0] and [NaN] are falsy. *)
Definition truthy (x : float) : bool := negb (is_zero x || is_nan x).


(** *** Number to string: [toFixed(2)] and the [ToString] it falls back on *)

Fixpoint uintUnits (u : Decimal.uint) : jsstring :=
  match u with
  | Decimal.Nil => []
  | Decimal.D0 r => 48 :: uintUnits r
  | Decimal.D1 r => 49 :: uintUnits r
  | Decimal.D2 r => 50 :: uintUnits r
  | Decimal.D3 r => 51 :: uintUnits r
  | Decimal.D4 r => 52 :: uintUnits r
  | Decimal.D5 r => 53 :: uintUnits r
  | Decimal.D6 r => 54 :: uintUnits r
  | Decimal.D7 r => 55 :: uintUnits r
  | Decimal.D8 r => 56 :: uintUnits r
  | Decimal.D9 r => 57 :: uintUnits r
  end.

(** Decimal digits of a natural number, most significant first ("0" for 0). *)
Definition digitsOf (n : N) : jsstring := uintUnits (N.to_uint n).

(** The exact value of a positive finite number as a fraction [a / 2^k].  *)
Definition exactPos (m : positive) (e : Z) : N * N :=
  match e with
  | Zneg k => (Npos m, Npos k)
  | Z0 => (Npos m, 0)
  | Zpos k => (Npos m * 2 ^ Npos k, 0)
  end.

(** The integer [n] for which [n / 100 - x] is closest to zero, the larger
    one on a tie, for [x = a / 2^k]. *)
Definition roundHundredths (a k : N) : N :=
  (200 * a + 2 ^ k) / 2 ^ (k + 1).

(** [Number::toString] for a finite integer [x >= 10^21]: the shortest digit
    string [s] (of [k] digits) with [s * 10^(n-k)] reading back as [x], the
    candidate closest to [x] when both neighbours read back, printed in
    exponent notation. *)
Definition readsBack (x : float) (s : N) (e10 : N) : bool :=
  PrimFloat.eqb (decimalToFloat false s (Z.of_N e10)) x.

Definition dist (a b : N) : N := if a <=? b then b - a else a - b.

Fixpoint shortest (x : float) (X n : N) (k : nat) (fuel : nat) : N :=
  match fuel with
  | O => X
  | S fuel' =>
    let e10 := n - N.of_nat k in
    let lo := X / 10 ^ e10 in
    let hi := lo + 1 in
    let okLo := readsBack x lo e10 in
    let okHi := readsBack x hi e10 in
    let dLo := dist (lo * 10 ^ e10) X in
    let dHi := dist (hi * 10 ^ e10) X in
    if okLo && okHi then
      (if dLo <? dHi then lo else if dHi <? dLo then hi
       else if N.even lo then lo else hi) * 10 ^ e10
    else if okLo then lo * 10 ^ e10
    else if okHi then hi * 10 ^ e10
    else shortest x X n (S k) fuel'
  end.

Fixpoint dropTrailingZeros (r : jsstring) : jsstring :=
  match r with
  | c :: t => if c =? 48 then dropTrailingZeros t else r
  | [] => []
  end.

Definition exponential (x : float) (X : N) : jsstring :=
  let n := N.of_nat (length (digitsOf X)) in
  let ds := digitsOf (shortest x X n 1 17) in
  let e := N.of_nat (length ds) - 1 in
  match rev (dropTrailingZeros (rev ds)) with
  | [] => lit "0"
  | [d] => d :: lit "e+" ++ digitsOf e
  | d :: rest => d :: 46 :: rest ++ lit "e+" ++ digitsOf e
  end.

(** [x.toFixed(2)]. *)
Definition toFixed2 (x : float) : jsstring :=
  match Prim2SF x with
  | S754_nan => lit "NaN"
  | S754_infinity s => if s then lit "-Infinity" else lit "Infinity"
  | S754_zero _ => lit "0.00"
  | S754_finite s m e =>
    let sign := if s then lit "-" else [] in
    let '(a, k) := exactPos m e in
    if (k =? 0) && (10 ^ 21 <=? a) then sign ++ exponential (abs x) a
    else
      let n := roundHundredths a k in
      let ds := digitsOf n in
      let ds := repeat 48 (3 - length ds) ++ ds in
      let i := (length ds - 2)%nat in
      sign ++ firstn i ds ++ 46 :: skipn i ds
  end.

End Num.

Import Num.

#[local] Set Warnings "-inexact-float".

(** Classification verdicts: the strings 'good', 'bad' and 'neutral'. *)
Inductive Verdict := good | bad | neutral.

(** One displayed cell: [{ value: ..., class: ... }]. *)
Record Cell := mkCell { value : jsstring; class : Verdict }.

(** Outcome of one promise under [Promise.allSettled]. *)
Inductive settled (A : Type) := Fulfilled (v : A) | Rejected.
Arguments Fulfilled {A} v.
Arguments Rejected {A}.

(** What happened inside a scraper's [try] block: the page was read, or
    something threw (navigation, timeout, selector). *)
Inductive attempt (A : Type) := Extracted (data : A) | Threw.
Arguments Extracted {A} data.
Arguments Threw {A}.

(** One run of a scraper: the [try] block, and whether the [finally] block
    ([page.close()]) completed without throwing. *)
Record run (A : Type) := mkRun { page : attempt A; closed : bool }.
Arguments mkRun {A} page closed.
Arguments page {A} r.
Arguments closed {A} r.

(** Body of an HTTP answer: [{ error: msg }] or the report. *)
Inductive Body (R : Type) := ErrorBody (error : jsstring) | DataBody (d : R).
Arguments ErrorBody {R} error.
Arguments DataBody {R} d.

Record Response (R : Type) := mkResponse { status : N; body : Body R }.
Arguments mkResponse {R} status body.
Arguments status {R} r.
Arguments body {R} r.

(* ------------------------------------------------------------------ *)
(** ** src/scraper.js: the full server *)

Module Scraper.

(** Valuation settings. *)
Definition TAXA_SELIC_ATUAL : float := 15.0%float.
Definition SELIC_MEDIA_HISTORICA : float := 13.80%float.
Definition PL_BASE_GRAHAM : float := 8.5%float.
Definition G_CRESCIMENTO_FALLBACK : float := 5.0%float.

Definition GRAHAM_UNRELIABLE_SECTORS : list jsstring := [lit "Tecnologia da Informação"].
Definition GRAHAM_UNRELIABLE_SEGMENTS : list jsstring := [lit "Software e Dados"].

(** [Set.prototype.has] on a raw field. *)
Definition has (set : list jsstring) (v : jsval) : bool :=
  match v with
  | JStr s => existsb (Js.eqb s) set
  | _ => false
  end.

(** The chain of replacements and the final [trim] of [strToNumber]. *)
Definition cleaned (str : jsstring) : jsstring :=
  trim (replaceFirst 37 [] (replaceFirst 44 [46] (removeAll 46 (removeCurrency str)))).

Definition strToNumber (str : jsval) : option float :=
  match str with
  | JStr s =>
    if Js.eqb (trim s) (lit "-") || Js.eqb (trim s) [] then None
    else
      let num := parseFloat (cleaned s) in
      if isNaN num then None else Some num
  | _ => None
  end.

Definition classifyIndicator (indicator : jsstring) (valueStr : jsval) : Verdict :=
  match strToNumber valueStr with
  | None => neutral
  | Some value =>
    if isLit indicator "pvp" then if lt value 1.0 then good else if gt value 1.5 then bad else neutral
    else if isLit indicator "pl" then if gt value 0 && lt value 10 then good else if gt value 20 then bad else neutral
    else if isLit indicator "dy" then if ge value 6 then good else if lt value 4 then bad else neutral
    else if isLit indicator "roe" then if ge value 15 then good else if lt value 8 then bad else neutral
    else if isLit indicator "roic" then if ge value 10 then good else if lt value 5 then bad else neutral
    else if isLit indicator "margemLiquida" then if ge value 15 then good else if lt value 5 then bad else neutral
    else if isLit indicator "margemEbitda" then if ge value 20 then good else if lt value 10 then bad else neutral
    else if isLit indicator "dividaLiquidaEbit" then if le value 1.0 then good else if gt value 3.0 then bad else neutral
    else if isLit indicator "dividaLiquidaEbitda" then if le value 2.0 then good else if gt value 4.0 then bad else neutral
    else if isLit indicator "liquidezCorrente" then if ge value 1.5 then good else if lt value 1.0 then bad else neutral
    else if isLit indicator "payout" then if ge value 25 && le value 75 then good else if gt value 100 then bad else neutral
    else if isLit indicator "potencial" then if gt value 15 then good else if lt value 0 then bad else neutral
    else if isLit indicator "risco" then if le value 25 then good else if gt value 50 then bad else neutral
    else if isLit indicator "cagr" then if ge value 10 then good else if lt value 5 then bad else neutral
    else neutral
  end.

Definition classifyValuation (cotacaoStr : jsval) (valuation : option float) : Cell :=
  match strToNumber cotacaoStr, valuation with
  | Some cotacao, Some valuation =>
    if le valuation 0 then mkCell (lit "-") neutral
    else
      let valuationStr := lit "R$ " ++ replaceFirst 46 [44] (toFixed2 valuation) in
      mkCell valuationStr (if lt cotacao valuation then good else bad)
  | _, _ => mkCell (lit "-") neutral
  end.

(** Truthiness of a [number | null] operand of [&&]. *)
Definition numTruthy (x : option float) : bool :=
  match x with
  | Some v => Num.truthy v
  | None => false
  end.

(** The four estimates as the handler computes them from the normalized
    fields. *)
Definition growth (cagrLucrosNum : option float) : float :=
  match cagrLucrosNum with
  | Some c => if gt c 0 then c else G_CRESCIMENTO_FALLBACK
  | None => G_CRESCIMENTO_FALLBACK
  end.

Definition valorJustoGraham (vpaNum lpaNum : option float) : option float :=
  match vpaNum, lpaNum with
  | Some vpa, Some lpa =>
    if Num.truthy vpa && Num.truthy lpa && gt lpa 0 && gt vpa 0
    then Some (sqrt (22.5 * lpa * vpa))%float
    else None
  | _, _ => None
  end.

Definition precoTetoBazin (cotacaoNum dyNum : option float) : option float :=
  match cotacaoNum, dyNum with
  | Some cotacao, Some dy =>
    if Num.truthy cotacao && Num.truthy dy && gt dy 0
    then Some ((cotacao * (dy / 100)) / 0.08)%float
    else None
  | _, _ => None
  end.

Definition precoTetoBazin5Y (cotacaoNum dy5AnosNum : option float) : option float :=
  match cotacaoNum, dy5AnosNum with
  | Some cotacao, Some dy5Anos =>
    if Num.truthy cotacao && Num.truthy dy5Anos && gt dy5Anos 0
    then Some ((cotacao * (dy5Anos / 100)) / 0.08)%float
    else None
  | _, _ => None
  end.

Definition valorRevisadoGraham (lpaNum : option float) (g : float) : option float :=
  match lpaNum with
  | Some lpa =>
    if Num.truthy lpa && gt lpa 0 && gt TAXA_SELIC_ATUAL 0
       && gt SELIC_MEDIA_HISTORICA 0 && ge g 0
    then Some ((lpa * (PL_BASE_GRAHAM + 2 * g) * SELIC_MEDIA_HISTORICA)
               / TAXA_SELIC_ATUAL)%float
    else None
  | None => None
  end.

(** The object returned by [scrapeInvestidor10]'s [page.evaluate]. *)
Module I10.
Record t := mk {
  cotacao : jsval; pvp : jsval; pl : jsval; dy : jsval; vpa : jsval;
  lpa : jsval; roe : jsval; margemLiquida : jsval; dividaLiquidaEbit : jsval;
  cagrLucros : jsval; setor : jsval; segmento : jsval; dy5Anos : jsval;
  evEbitda : jsval; pEbitda : jsval; pAtivo : jsval; margemBruta : jsval;
  margemEbit : jsval; margemEbitda : jsval; roic : jsval;
  dividaLiquidaEbitda : jsval; dividaLiquidaPatrimonio : jsval;
  liquidezCorrente : jsval; payout : jsval; giroAtivos : jsval; roa : jsval }.

(** The empty object [{}]: every property reads [undefined]. *)
Definition empty : t :=
  mk JUndefined JUndefined JUndefined JUndefined JUndefined JUndefined
     JUndefined JUndefined JUndefined JUndefined JUndefined JUndefined
     JUndefined JUndefined JUndefined JUndefined JUndefined JUndefined
     JUndefined JUndefined JUndefined JUndefined JUndefined JUndefined
     JUndefined JUndefined.
End I10.

(** The object returned by [scrapeXpi]. *)
Module Xpi.
Record t := mk { precoAlvo : jsval; potencial : jsval; risco : jsval; recomendacao : jsval }.
Definition empty : t := mk JUndefined JUndefined JUndefined JUndefined.
End Xpi.

(** The object returned by [scrapeBtgPactual]. *)
Module Btg.
Record t := mk { recomendacao : jsval; precoAlvo : jsval; potencial : jsval }.
Definition empty : t := mk JUndefined JUndefined JUndefined.
End Btg.

(** [responseData]. *)
Module Resp.
Record t := mk {
  ticker : jsstring;
  cotacao : Cell; pl : Cell; pvp : Cell; dy : Cell; dy5Anos : Cell;
  payout : Cell; evEbitda : Cell; pEbitda : Cell; pAtivo : Cell; roe : Cell;
  roic : Cell; roa : Cell; margemBruta : Cell; margemEbit : Cell;
  margemEbitda : Cell; margemLiquida : Cell; giroAtivos : Cell;
  dividaLiquidaEbit : Cell; dividaLiquidaEbitda : Cell;
  dividaLiquidaPatrimonio : Cell; liquidezCorrente : Cell; cagrLucros : Cell;
  lpa : Cell; vpa : Cell;
  precoTeto : Cell; bazin5Y : Cell; valorJusto : Cell; valorRevisado : Cell;
  grahamWarning : option jsstring;
  xpiRecomendacao : Cell; xpiPrecoAlvo : Cell; xpiPotencial : Cell;
  xpiRisco : Cell;
  btgRecomendacao : Cell; btgPrecoAlvo : Cell; btgPotencial : Cell }.
End Resp.

(** The three scrapers share one shape: [try { ...; return data }
    catch (e) { return {} } finally { close the page }].  A throw inside
    [try] is swallowed into [{}]; a throw of [page.close()] rejects the
    promise. *)
Definition scrape {A : Type} (empty : A) (r : run A) : settled A :=
  if closed r
  then Fulfilled (match page r with Extracted data => data | Threw => empty end)
  else Rejected.

Definition scrapeInvestidor10 := scrape I10.empty.
Definition scrapeXpi := scrape Xpi.empty.
Definition scrapeBtgPactual := scrape Btg.empty.

(** [results[i].status === 'fulfilled' ? results[i].value : {}]. *)
Definition valueOr {A : Type} (empty : A) (r : settled A) : A :=
  match r with
  | Fulfilled v => v
  | Rejected => empty
  end.

(** What one request meets outside the handler: whether [getBrowser()]
    returns a browser (it throws when the launch fails), and the run of each
    of the three scrapers. *)
Record World := mkWorld {
  browser : bool;
  i10Run : run I10.t;
  xpiRun : run Xpi.t;
  btgRun : run Btg.t }.

Section Handler.

(** [String.prototype.toUpperCase] and [toLowerCase]. *)
Variable toUpperCase : jsstring -> jsstring.
Variable toLowerCase : jsstring -> jsstring.

Definition getRecClass (rec : jsval) : Verdict :=
  match rec with
  | JStr (c :: t) =>
    let lowerRec := toLowerCase (c :: t) in
    if isLit lowerRec "compra" then good
    else if isLit lowerRec "venda" then bad
    else neutral
  | _ => neutral
  end.

Definition createIndicatorResponse (key : string) (valueStr : jsval) (classify : bool) : Cell :=
  let classificationClass := if classify then classifyIndicator (lit key) valueStr else neutral in
  mkCell (orElse valueStr (lit "-")) classificationClass.

(** The part of the handler after the join, on the three provider objects. *)
Definition report (ticker : jsstring) (i10Data : I10.t) (xpiData : Xpi.t) (btgData : Btg.t)
  : Resp.t :=
  let cotacaoNum := strToNumber (I10.cotacao i10Data) in
  let vpaNum := strToNumber (I10.vpa i10Data) in
  let lpaNum := strToNumber (I10.lpa i10Data) in
  let dyNum := strToNumber (I10.dy i10Data) in
  let dy5AnosNum := strToNumber (I10.dy5Anos i10Data) in
  let cagrLucrosNum := strToNumber (I10.cagrLucros i10Data) in
  let g := growth cagrLucrosNum in
  let grahamWarning :=
    if has GRAHAM_UNRELIABLE_SECTORS (I10.setor i10Data)
       || has GRAHAM_UNRELIABLE_SEGMENTS (I10.segmento i10Data)
    then Some (lit "Fórmula de Graham pode ser ineficaz para este setor.")
    else None in
  {| Resp.ticker := toUpperCase ticker;
     Resp.cotacao := createIndicatorResponse "cotacao" (I10.cotacao i10Data) false;
     Resp.pl := createIndicatorResponse "pl" (I10.pl i10Data) true;
     Resp.pvp := createIndicatorResponse "pvp" (I10.pvp i10Data) true;
     Resp.dy := createIndicatorResponse "dy" (I10.dy i10Data) true;
     Resp.dy5Anos := createIndicatorResponse "dy5AnOS" (I10.dy5Anos i10Data) true;
     Resp.payout := createIndicatorResponse "payout" (I10.payout i10Data) true;
     Resp.evEbitda := createIndicatorResponse "evEbitda" (I10.evEbitda i10Data) false;
     Resp.pEbitda := createIndicatorResponse "pEbitda" (I10.pEbitda i10Data) false;
     Resp.pAtivo := createIndicatorResponse "pAtivo" (I10.pAtivo i10Data) false;
     Resp.roe := createIndicatorResponse "roe" (I10.roe i10Data) true;
     Resp.roic := createIndicatorResponse "roic" (I10.roic i10Data) true;
     Resp.roa := createIndicatorResponse "roa" (I10.roa i10Data) false;
     Resp.margemBruta := createIndicatorResponse "margemBruta" (I10.margemBruta i10Data) false;
     Resp.margemEbit := createIndicatorResponse "margemEbit" (I10.margemEbit i10Data) false;
     Resp.margemEbitda := createIndicatorResponse "margemEbitda" (I10.margemEbitda i10Data) true;
     Resp.margemLiquida := createIndicatorResponse "margemLiquida" (I10.margemLiquida i10Data) true;
     Resp.giroAtivos := createIndicatorResponse "giroAtivos" (I10.giroAtivos i10Data) false;
     Resp.dividaLiquidaEbit :=
       createIndicatorResponse "dividaLiquidaEbit" (I10.dividaLiquidaEbit i10Data) true;
     Resp.dividaLiquidaEbitda :=
       createIndicatorResponse "dividaLiquidaEbitda" (I10.dividaLiquidaEbitda i10Data) true;
     Resp.dividaLiquidaPatrimonio :=
       createIndicatorResponse "dividaLiquidaPatrimonio" (I10.dividaLiquidaPatrimonio i10Data) false;
     Resp.liquidezCorrente :=
       createIndicatorResponse "liquidezCorrente" (I10.liquidezCorrente i10Data) true;
     Resp.cagrLucros := createIndicatorResponse "cagrLucros" (I10.cagrLucros i10Data) true;
     Resp.lpa := createIndicatorResponse "lpa" (I10.lpa i10Data) false;
     Resp.vpa := createIndicatorResponse "vpa" (I10.vpa i10Data) false;
     Resp.precoTeto := classifyValuation (I10.cotacao i10Data) (precoTetoBazin cotacaoNum dyNum);
     Resp.bazin5Y := classifyValuation (I10.cotacao i10Data) (precoTetoBazin5Y cotacaoNum dy5AnosNum);
     Resp.valorJusto := classifyValuation (I10.cotacao i10Data) (valorJustoGraham vpaNum lpaNum);
     Resp.valorRevisado := classifyValuation (I10.cotacao i10Data) (valorRevisadoGraham lpaNum g);
     Resp.grahamWarning := grahamWarning;
     Resp.xpiRecomendacao :=
       mkCell (orElse (Xpi.recomendacao xpiData) (lit "-")) (getRecClass (Xpi.recomendacao xpiData));
     Resp.xpiPrecoAlvo := mkCell (orElse (Xpi.precoAlvo xpiData) (lit "-")) neutral;
     Resp.xpiPotencial :=
       mkCell (orElse (Xpi.potencial xpiData) (lit "-"))
              (classifyIndicator (lit "potencial") (Xpi.potencial xpiData));
     Resp.xpiRisco := mkCell (orElse (Xpi.risco xpiData) (lit "-")) neutral;
     Resp.btgRecomendacao :=
       mkCell (orElse (Btg.recomendacao btgData) (lit "-")) (getRecClass (Btg.recomendacao btgData));
     Resp.btgPrecoAlvo := mkCell (orElse (Btg.precoAlvo btgData) (lit "-")) neutral;
     Resp.btgPotencial :=
       mkCell (orElse (Btg.potencial btgData) (lit "-"))
              (classifyIndicator (lit "potencial") (Btg.potencial btgData)) |}.

(** [app.post('/buscar', ...)]: the request body's [ticker] and the world
    the request runs in give the HTTP answer. *)
Definition buscar (ticker : jsval) (w : World) : Response Resp.t :=
  match ticker with
  | JStr (c :: t) =>
    if browser w then
      let results :=
        (scrapeInvestidor10 (i10Run w), scrapeXpi (xpiRun w), scrapeBtgPactual (btgRun w)) in
      let i10Data := valueOr I10.empty (fst (fst results)) in
      let xpiData := valueOr Xpi.empty (snd (fst results)) in
      let btgData := valueOr Btg.empty (snd results) in
      if negb (Js.truthy (I10.cotacao i10Data))
      then mkResponse 404 (ErrorBody (lit "Dados essenciais não encontrados."))
      else mkResponse 200 (DataBody (report (c :: t) i10Data xpiData btgData))
    else mkResponse 500 (ErrorBody (lit "Erro geral ao buscar dados."))
  | _ => mkResponse 400 (ErrorBody (lit "Ticker não informado"))
  end.

End Handler.

End Scraper.

(* ------------------------------------------------------------------ *)
(** ** src/server.js: the reduced server *)

Module Server.

Definition strToNumber (str : jsval) : option float :=
  match str with
  | JStr (c :: t) =>
    let cleaned :=
      trim (replaceFirst 37 [] (replaceFirst 44 [46] (removeAll 46 (removeCurrency (c :: t))))) in
    if isNaN (parseFloat cleaned) then None else Some (parseFloat cleaned)
  | _ => None
  end.

(** [createResponse(val, type = 'neutral')]. *)
Definition createResponse (val : jsval) (type : Verdict) : Cell :=
  mkCell (orElse val (lit "-")) type.

(** ToNumber on a [number | null] operand: [null] counts as [0]. *)
Definition toNumber (x : option float) : float :=
  match x with
  | Some v => v
  | None => 0%float
  end.

(** Truthiness of a [number | null] value. *)
Definition numTruthy (x : option float) : bool :=
  match x with
  | Some v => Num.truthy v
  | None => false
  end.

Definition graham (vpa lpa : option float) : option float :=
  if gt (toNumber vpa) 0 && gt (toNumber lpa) 0
  then Some (sqrt (22.5 * toNumber lpa * toNumber vpa))%float
  else None.

Definition bazin (cotacao dy : option float) : option float :=
  if gt (toNumber dy) 0
  then Some (toNumber cotacao * (toNumber dy / 100) / 0.06)%float
  else None.

(** The cell of an estimate [e]:
    [createResponse(e ? `R$ ${e.toFixed(2)}` : '-', e > cotacao ? 'good' : 'neutral')]. *)
Definition estimateCell (e cotacao : option float) : Cell :=
  createResponse
    (JStr (if numTruthy e then lit "R$ " ++ toFixed2 (toNumber e) else lit "-"))
    (if gt (toNumber e) (toNumber cotacao) then good else neutral).

Module I10.
Record t := mk {
  cotacao : jsval; pl : jsval; pvp : jsval; dy : jsval; vpa : jsval;
  lpa : jsval; roe : jsval; divida : jsval; margem : jsval }.
Definition empty : t :=
  mk JUndefined JUndefined JUndefined JUndefined JUndefined JUndefined
     JUndefined JUndefined JUndefined.
End I10.

Module Resp.
Record t := mk {
  ticker : jsstring;
  cotacao : Cell; pl : Cell; pvp : Cell; dy : Cell;
  valorJusto : Cell; precoTeto : Cell }.
End Resp.

(** [scrapeInvestidor10]: [{}] when the [try] block throws; the promise
    rejects when [page.close()] in [finally] throws. *)
Definition scrapeInvestidor10 (r : run I10.t) : settled I10.t :=
  if closed r
  then Fulfilled (match page r with Extracted data => data | Threw => I10.empty end)
  else Rejected.

Record World := mkWorld { browser : bool; i10Run : run I10.t }.

Section Handler.

Variable toUpperCase : jsstring -> jsstring.

Definition report (ticker : jsstring) (i10 : I10.t) : Resp.t :=
  let cotacao := strToNumber (I10.cotacao i10) in
  let vpa := strToNumber (I10.vpa i10) in
  let lpa := strToNumber (I10.lpa i10) in
  let dy := strToNumber (I10.dy i10) in
  {| Resp.ticker := toUpperCase ticker;
     Resp.cotacao := createResponse (I10.cotacao i10) neutral;
     Resp.pl := createResponse (I10.pl i10) neutral;
     Resp.pvp := createResponse (I10.pvp i10) neutral;
     Resp.dy := createResponse (I10.dy i10) neutral;
     Resp.valorJusto := estimateCell (graham vpa lpa) cotacao;
     Resp.precoTeto := estimateCell (bazin cotacao dy) cotacao |}.

Definition buscar (ticker : jsval) (w : World) : Response Resp.t :=
  match ticker with
  | JStr (c :: t) =>
    if browser w then
      match scrapeInvestidor10 (i10Run w) with
      | Fulfilled i10 =>
        if negb (Js.truthy (I10.cotacao i10))
           || match I10.cotacao i10 with JStr s => isLit s "-" | _ => false end
        then mkResponse 404 (ErrorBody (lit "Ativo não encontrado ou erro ao ler página."))
        else mkResponse 200 (DataBody (report (c :: t) i10))
      | Rejected => mkResponse 500 (ErrorBody (lit "Erro interno ao processar dados."))
      end
    else mkResponse 500 (ErrorBody (lit "Erro interno ao processar dados."))
  | _ => mkResponse 400 (ErrorBody (lit "Ticker vazio"))
  end.

End Handler.

End Server.

(* ------------------------------------------------------------------ *)
(** ** The specification's side: what the claims compare the code with *)

Module Spec.

(** §4.1 as worded: absent inputs give null; otherwise a leading currency
    marker and the surrounding whitespace are stripped, the grouping dots
    removed, the decimal comma turned into a point, a trailing percent
    marker stripped, and the text parsed. *)
Definition stripLeadingCurrency (s : jsstring) : jsstring :=
  match s with
  | 82 :: 36 :: r => r
  | _ => s
  end.

Definition stripTrailingPercent (s : jsstring) : jsstring :=
  match rev s with
  | 37 :: r => rev r
  | _ => s
  end.

Definition normalize (raw : jsval) : option float :=
  match raw with
  | JStr s =>
    let t := trim s in
    if Js.eqb t [] || Js.eqb t (lit "-") then None
    else
      let t := trim (stripLeadingCurrency t) in
      let t := replaceFirst 44 [46] (removeAll 46 t) in
      let num := parseFloat (stripTrailingPercent t) in
      if isNaN num then None else Some num
  | _ => None
  end.

(** The documented locale format of a field: optional whitespace, an
    optional "R$" and whitespace, an optional minus sign, groups of digits
    separated by dots, an optional comma and decimals, optional whitespace,
    an optional percent sign, optional whitespace. *)
Record Layout := mkLayout {
  lead : list N; currency : option (list N); negative : bool;
  groups : list (list N); fraction : option (list N);
  gap : list N; percent : bool; trail : list N }.

Fixpoint joinDots (groups : list (list N)) : list N :=
  match groups with
  | [] => []
  | [g] => g
  | g :: rest => g ++ 46 :: joinDots rest
  end.

Definition signText (neg : bool) : jsstring := if neg then [45] else [].

Definition commaText (fraction : option (list N)) : jsstring :=
  match fraction with Some f => 44 :: f | None => [] end.

Definition percentText (pct : bool) : jsstring := if pct then [37] else [].

(** What follows the currency marker. *)
Definition amount (l : Layout) : jsstring :=
  signText (negative l) ++ joinDots (groups l) ++ commaText (fraction l)
  ++ gap l ++ percentText (percent l) ++ trail l.

Definition render (l : Layout) : jsstring :=
  lead l ++ match currency l with Some ws => 82 :: 36 :: ws | None => [] end ++ amount l.

Definition fractionDigits (l : Layout) : list N :=
  match fraction l with Some f => f | None => [] end.

Definition allDigits (ds : list N) : Prop := Forall (fun c => isDigit c = true) ds.
Definition allSpace (ws : list N) : Prop := Forall (fun c => isWhiteSpace c = true) ws.

Definition wellFormed (l : Layout) : Prop :=
  allSpace (lead l) /\
  match currency l with Some ws => allSpace ws | None => True end /\
  Forall allDigits (groups l) /\
  allDigits (fractionDigits l) /\
  allSpace (gap l) /\ allSpace (trail l) /\
  concat (groups l) ++ fractionDigits l <> [].

(** The number a well-formed text denotes: its digits, scaled by the number
    of decimals, rounded to the nearest binary64 value. *)
Definition denoted (l : Layout) : float :=
  decimalToFloat (negative l)
    (digitsValue (concat (groups l) ++ fractionDigits l))
    (- Z.of_nat (length (fractionDigits l))).

(** An input the normalizer treats as absent. *)
Definition absent (v : jsval) : Prop :=
  match v with
  | JStr s => trim s = [] \/ trim s = [45]
  | _ => True
  end.

(** §4.2: the reference rule table, keyed by the indicator names of the
    code ([pvp] is price/book, [pl] price/earnings, [dy] dividend yield,
    [roe], [roic], [margemLiquida] net margin, [margemEbitda] EBITDA margin,
    [dividaLiquidaEbit] net debt/EBIT, [dividaLiquidaEbitda] net
    debt/EBITDA, [liquidezCorrente] current liquidity, [payout],
    [potencial] upside potential, [risco] risk score, [cagr] earnings
    growth). *)
Record Rule := mkRule { favorable : float -> bool; unfavorable : float -> bool }.

Definition ruleTable : list (string * Rule) :=
  [ ("pvp", mkRule (fun v => lt v 1.0) (fun v => gt v 1.5));
    ("pl", mkRule (fun v => gt v 0 && lt v 10) (fun v => gt v 20));
    ("dy", mkRule (fun v => ge v 6) (fun v => lt v 4));
    ("roe", mkRule (fun v => ge v 15) (fun v => lt v 8));
    ("roic", mkRule (fun v => ge v 10) (fun v => lt v 5));
    ("margemLiquida", mkRule (fun v => ge v 15) (fun v => lt v 5));
    ("margemEbitda", mkRule (fun v => ge v 20) (fun v => lt v 10));
    ("dividaLiquidaEbit", mkRule (fun v => le v 1.0) (fun v => gt v 3.0));
    ("dividaLiquidaEbitda", mkRule (fun v => le v 2.0) (fun v => gt v 4.0));
    ("liquidezCorrente", mkRule (fun v => ge v 1.5) (fun v => lt v 1.0));
    ("payout", mkRule (fun v => ge v 25 && le v 75) (fun v => gt v 100));
    ("potencial", mkRule (fun v => gt v 15) (fun v => lt v 0));
    ("risco", mkRule (fun v => le v 25) (fun v => gt v 50));
    ("cagr", mkRule (fun v => ge v 10) (fun v => lt v 5)) ]%string.

Definition known (indicator : jsstring) : Prop :=
  In indicator (map (fun p => lit (fst p)) ruleTable).

(** §4.3: the verdict of an estimate against the current price. *)
Definition verdict (price : float) (estimate : option float) : Verdict :=
  match estimate with
  | None => neutral
  | Some e => if le e 0 then neutral else if lt price e then good else bad
  end.

(** The sentinel cell. *)
Definition dash : Cell := mkCell (lit "-") neutral.

(** §4.3 as worded: the earnings per share, times the base multiple plus
    twice the growth rate, times the ratio of the historical average rate to
    the current rate. *)
Definition revisedGraham (earningsPerShare growthRate : float) : float :=
  (earningsPerShare * (Scraper.PL_BASE_GRAHAM + 2 * growthRate)
   * (Scraper.SELIC_MEDIA_HISTORICA / Scraper.TAXA_SELIC_ATUAL))%float.

(** §4.4: a provider failed when its scraper threw or its promise
    rejected. *)
Definition failed {A : Type} (r : run A) : Prop := page r = Threw \/ closed r = false.


(** The cells of the report that come from each provider. *)
Definition xpiCells (r : Scraper.Resp.t) : list Cell :=
  [Scraper.Resp.xpiRecomendacao r; Scraper.Resp.xpiPrecoAlvo r;
   Scraper.Resp.xpiPotencial r; Scraper.Resp.xpiRisco r].

Definition btgCells (r : Scraper.Resp.t) : list Cell :=
  [Scraper.Resp.btgRecomendacao r; Scraper.Resp.btgPrecoAlvo r; Scraper.Resp.btgPotencial r].

Definition primaryCells (r : Scraper.Resp.t) : jsstring * list Cell * option jsstring :=
  (Scraper.Resp.ticker r,
   [Scraper.Resp.cotacao r; Scraper.Resp.pl r; Scraper.Resp.pvp r; Scraper.Resp.dy r;
    Scraper.Resp.dy5Anos r; Scraper.Resp.payout r; Scraper.Resp.evEbitda r;
    Scraper.Resp.pEbitda r; Scraper.Resp.pAtivo r; Scraper.Resp.roe r; Scraper.Resp.roic r;
    Scraper.Resp.roa r; Scraper.Resp.margemBruta r; Scraper.Resp.margemEbit r;
    Scraper.Resp.margemEbitda r; Scraper.Resp.margemLiquida r; Scraper.Resp.giroAtivos r;
    Scraper.Resp.dividaLiquidaEbit r; Scraper.Resp.dividaLiquidaEbitda r;
    Scraper.Resp.dividaLiquidaPatrimonio r; Scraper.Resp.liquidezCorrente r;
    Scraper.Resp.cagrLucros r; Scraper.Resp.lpa r; Scraper.Resp.vpa r;
    Scraper.Resp.precoTeto r; Scraper.Resp.bazin5Y r; Scraper.Resp.valorJusto r;
    Scraper.Resp.valorRevisado r],
   Scraper.Resp.grahamWarning r).




End Spec.

(* ------------------------------------------------------------------ *)
(** ** Definitions used by the proofs *)

Module Support.

(** A key whose lexicographic order is the order of the numbers. *)
Definition key (x : spec_float) : Z * Z * Z :=
  match x with
  | S754_zero _ => (0, 0, 0)%Z
  | S754_nan => (0, 0, 0)%Z
  | S754_infinity false => (2, 0, 0)%Z
  | S754_infinity true => (-2, 0, 0)%Z
  | S754_finite false m e => (1, e, Zpos m)%Z
  | S754_finite true m e => (-1, - e, Zneg m)%Z
  end.

Definition lexlt (a b : Z * Z * Z) : Prop :=
  let '(a1, a2, a3) := a in
  let '(b1, b2, b3) := b in
  (a1 < b1 \/ (a1 = b1 /\ (a2 < b2 \/ (a2 = b2 /\ a3 < b3))))%Z.

(** Not [NaN]. *)
Definition number (x : spec_float) : Prop := x <> S754_nan.

(** The comparisons of two numbers, read on their keys. *)
Definition FLt (x y : float) : Prop :=
  number (Prim2SF x) /\ number (Prim2SF y) /\ lexlt (key (Prim2SF x)) (key (Prim2SF y)).

Definition FLe (x y : float) : Prop :=
  number (Prim2SF x) /\ number (Prim2SF y) /\ ~ lexlt (key (Prim2SF y)) (key (Prim2SF x)).

Definition FEq (x y : float) : Prop :=
  number (Prim2SF x) /\ number (Prim2SF y) /\
  ~ lexlt (key (Prim2SF x)) (key (Prim2SF y)) /\ ~ lexlt (key (Prim2SF y)) (key (Prim2SF x)).

(** A text none of whose characters is [c]. *)
Definition avoids (c : N) (s : jsstring) : Prop := Forall (fun d => d <> c) s.

(** A text that does not start with whitespace. *)
Definition solidHead (s : jsstring) : Prop :=
  match s with
  | c :: _ => isWhiteSpace c = false
  | [] => True
  end.

(** A text that does not start with a digit. *)
Definition stops (r : jsstring) : Prop :=
  match r with
  | c :: _ => isDigit c = false
  | [] => True
  end.

Definition pointText (fraction : option (list N)) : jsstring :=
  match fraction with Some f => 46 :: f | None => [] end.

(** The cleaned text of a well-formed layout. *)
Definition core (l : Spec.Layout) : jsstring :=
  Spec.signText (Spec.negative l) ++ concat (Spec.groups l) ++ pointText (Spec.fraction l).

End Support.

Import Spec Support.

(** ** Codes of roundings, for the order of the results

    The rounding of the Standard Library's [SpecFloat] works on a record of a
    mantissa, a round bit and a sticky bit.  The definitions below read such
    a record as one integer, on which a shift and the rounding to nearest
    are monotone functions. *)

Module Codes.
#[local] Open Scope Z_scope.

(** A bit as an integer. *)
Definition b2z (b : bool) : Z := if b then 1 else 0.

(** The position of a value between two mantissas, as one integer: four
    times the mantissa, plus 2 for the round bit and 1 for the sticky bit. *)
Definition code (r : shr_record) : Z := 4 * shr_m r + 2 * b2z (shr_r r) + b2z (shr_s r).

(** One right shift, on codes. *)
Definition halve (c : Z) : Z := 2 * (c / 4) + (if c mod 4 =? 0 then 0 else 1).

(** Rounding to nearest, ties to even, on codes. *)
Definition nearest (c : Z) : Z :=
  c / 4 + (if (c mod 4 =? 3) || ((c mod 4 =? 2) && Z.odd (c / 4)) then 1 else 0).

Definition shifts (k : Z) (c : Z) : Z := Nat.iter (Z.to_nat k) halve c.

(** [binary_round_aux] for a non-negative value, on codes. *)
Definition rounded (c e : Z) : spec_float :=
  let T1 := Z.max (fexp prec emax (Zdigits2 (c / 4) + e)) e in
  let m2 := nearest (shifts (T1 - e) c) in
  let T2 := Z.max (fexp prec emax (Zdigits2 m2 + T1)) T1 in
  match m2 / 2 ^ (T2 - T1) with
  | Z0 => S754_zero false
  | Zpos M => if T2 <=? emax - prec then S754_finite false M T2 else S754_infinity false
  | Zneg _ => S754_nan
  end.

(** A positive result of rounding: finite, or infinite on overflow. *)
Definition finiteOrInf (M E : Z) : spec_float :=
  if E <=? emax - prec then S754_finite false (Z.to_pos M) E else S754_infinity false.

(** [x <= y] on keys. *)
Definition keyle (x y : spec_float) : Prop := ~ lexlt (key y) (key x).

(** The code of the quotient [n / d]: twice the integer part of [2n / d],
    plus one when [2n / d] is not an integer. *)
Definition sticky (n d : Z) : Z := 2 * (2 * n / d) + (if (2 * n) mod d =? 0 then 0 else 1).

(** The sign put back on a rounded magnitude. *)
Definition flip (s : bool) (x : spec_float) : spec_float := if s then SFopp x else x.

(** The exponent and the code that the division of [m * 2^e] by [mt * 2^et]
    hands to the rounding. *)
Definition quotientExponent (mt : positive) (et : Z) (m : positive) (e : Z) : Z :=
  Z.min (fexp prec emax (Zdigits2 (Z.pos m) + e - (Zdigits2 (Z.pos mt) + et))) (e - et).

Definition quotientCode (mt : positive) (et : Z) (m : positive) (e : Z) : Z :=
  sticky (Z.pos m * 2 ^ (e - et - quotientExponent mt et m e)) (Z.pos mt).

End Codes.

Import Codes.

(* ------------------------------------------------------------------ *)
(** ** Sample inputs *)

Module Samples.

(** A raw field holding the text [s]. *)
Definition text (s : string) : jsval := JStr (lit s).

(** "R$ -1.234.567,89 %" read through the theorem. *)
Definition sampleLayout : Layout :=
  mkLayout [32] (Some [32]) true [[49]; [50; 51; 52]; [53; 54; 55]] (Some [56; 57])
           [32] true [32; 32].

(** The reduced server on a share quoted at 30,00 with earnings 2,00 and
    book value 8,00 per share. *)
Definition quoted30 : Server.I10.t :=
  Server.I10.mk (text "R$ 30,00") JNull JNull JNull (text "8,00") (text "2,00") JNull JNull JNull.

(** A request for "petr4": the primary provider delivers a price, the XPI
    scraper throws, and the BTG page fails to close. *)
Definition petr4World : Scraper.World :=
  Scraper.mkWorld true
    (mkRun (Extracted
       (Scraper.I10.mk (text "R$ 38,50") (text "0,95") (text "4,20") (text "12,5%")
          (text "40,10") (text "9,10") (text "22,4%") JNull JNull JNull JNull JNull JNull
          JNull JNull JNull JNull JNull JNull JNull JNull JNull JNull JNull JNull JNull)) true)
    (mkRun Threw true)
    (mkRun (Extracted (Scraper.Btg.mk (text "COMPRA") (text "R$ 45,00") (text "16,9%"))) false).


End Samples.

Import Samples.

(* ------------------------------------------------------------------ *)
(** ** Integral numbers: [Math.ceil] and the [String] of its result *)

Module Whole.

(** An integral Number value, kept with its integer: [NaN], an infinity, or
    a signed whole number ([Integer true 0] is [-0]). *)
Inductive t := NotANumber | Infinite (neg : bool) | Integer (neg : bool) (n : N).

(** [Math.ceil(x)]: the smallest integral value that is not less than [x];
    [NaN], the infinities and the zeros are returned as they are, and a
    number in (-1, 0) gives [-0]. *)
Definition ceil (x : float) : t :=
  match Prim2SF x with
  | S754_nan => NotANumber
  | S754_infinity s => Infinite s
  | S754_zero s => Integer s 0
  | S754_finite s m e =>
    let '(a, k) := exactPos m e in
    Integer s (if s then a / 2 ^ k else (a + (2 ^ k - 1)) / 2 ^ k)
  end.

(** The Number itself. *)
Definition toNumber (w : t) : float :=
  match w with
  | NotANumber => nan
  | Infinite s => if s then neg_infinity else infinity
  | Integer s n => decimalToFloat s n 0
  end.

(** [String(x)] for an integral [x]: the shortest digits that read back as
    [x], followed by zeros up to the units below 10^21, in exponent notation
    from there on.  The digits are those of the integer itself below 2^53;
    above, 100000000000000016 prints as "100000000000000020". *)
Definition toString (w : t) : jsstring :=
  match w with
  | NotANumber => lit "NaN"
  | Infinite s => if s then lit "-Infinity" else lit "Infinity"
  | Integer s n =>
    if n =? 0 then lit "0"
    else
      let x := decimalToFloat false n 0 in
      (if s then lit "-" else [])
      ++ (if 10 ^ 21 <=? n then exponential x n
          else digitsOf (shortest x n (N.of_nat (length (digitsOf n))) 1 17))
  end.

End Whole.

(* ------------------------------------------------------------------ *)
(** ** src/scraper.js: the /buscar-fii route *)

Module Fii.

(** The object returned by the route's [page.evaluate]. *)
Module Raw.
Record t := mk {
  cotacao : jsval; pvp : jsval; dy : jsval; liquidezDiaria : jsval;
  ultimoRendimento : jsval; y1m : jsval; valorPatrimonial : jsval; vpa : jsval;
  vacancia : jsval; numCotistas : jsval; cotasEmitidas : jsval; segmento : jsval;
  tipoFundo : jsval; tipoGestao : jsval; taxaAdm : jsval; valorMercado : jsval }.
End Raw.

Module Resp.
Record t := mk {
  ticker : jsstring;
  cotacao : Cell; pvp : Cell; dy : Cell; liquidezDiaria : Cell; valorMercado : Cell;
  ultimoRendimento : Cell; y1m : Cell; ebn : Cell; vn : Cell; valorPatrimonial : Cell;
  vpa : Cell; vacancia : Cell; numCotistas : Cell; cotasEmitidas : Cell;
  segmento : Cell; tipoFundo : Cell; tipoGestao : Cell; taxaAdm : Cell }.
End Resp.

(** [ebn] and [vn]: the number of shares whose income buys one more share,
    and what they cost. *)
Definition magicNumber (cotacaoNum ultimoRendimentoNum : option float) : jsstring * jsstring :=
  match cotacaoNum, ultimoRendimentoNum with
  | Some cotacao, Some ultimoRendimento =>
    if gt cotacao 0 && gt ultimoRendimento 0 then
      let ebnNum := Whole.ceil (cotacao / ultimoRendimento)%float in
      let vnNum := (Whole.toNumber ebnNum * cotacao)%float in
      (Whole.toString ebnNum, lit "R$ " ++ replaceFirst 46 [44] (toFixed2 vnNum))
    else (lit "-", lit "-")
  | _, _ => (lit "-", lit "-")
  end.

(** [pvpClass]: two [if]s in a row, the second one overriding the first. *)
Definition pvpClass (pvpNum : option float) : Verdict :=
  match pvpNum with
  | Some pvp =>
    let c := if lt pvp 1 then good else neutral in
    if gt pvp 1.05 then bad else c
  | None => neutral
  end.

(** What one request meets: whether [getBrowser()] returns a browser, and
    the page: [page] is [Threw] when anything from [newPage] to
    [page.evaluate] throws (the two optional waits apart, whose errors are
    swallowed), [closed] tells whether the [page.close()] that follows the
    extraction completed. *)
Record World := mkWorld { browser : bool; fiiRun : run Raw.t }.

Section Handler.

Variable toUpperCase : jsstring -> jsstring.

Definition report (ticker : jsstring) (rawData : Raw.t) : Resp.t :=
  let cotacaoNum := Scraper.strToNumber (Raw.cotacao rawData) in
  let ultimoRendimentoNum := Scraper.strToNumber (Raw.ultimoRendimento rawData) in
  let '(ebn, vn) := magicNumber cotacaoNum ultimoRendimentoNum in
  let pvpNum := Scraper.strToNumber (Raw.pvp rawData) in
  {| Resp.ticker := toUpperCase ticker;
     Resp.cotacao := mkCell (orElse (Raw.cotacao rawData) (lit "-")) neutral;
     Resp.pvp := mkCell (orElse (Raw.pvp rawData) (lit "-")) (pvpClass pvpNum);
     Resp.dy := mkCell (orElse (Raw.dy rawData) (lit "-")) neutral;
     Resp.liquidezDiaria := mkCell (orElse (Raw.liquidezDiaria rawData) (lit "-")) neutral;
     Resp.valorMercado := mkCell (orElse (Raw.valorMercado rawData) (lit "-")) neutral;
     Resp.ultimoRendimento := mkCell (orElse (Raw.ultimoRendimento rawData) (lit "-")) neutral;
     Resp.y1m := mkCell (orElse (Raw.y1m rawData) (lit "-")) neutral;
     Resp.ebn := mkCell ebn neutral;
     Resp.vn := mkCell vn neutral;
     Resp.valorPatrimonial := mkCell (orElse (Raw.valorPatrimonial rawData) (lit "-")) neutral;
     Resp.vpa := mkCell (orElse (Raw.vpa rawData) (lit "-")) neutral;
     Resp.vacancia := mkCell (orElse (Raw.vacancia rawData) (lit "-")) neutral;
     Resp.numCotistas := mkCell (orElse (Raw.numCotistas rawData) (lit "-")) neutral;
     Resp.cotasEmitidas := mkCell (orElse (Raw.cotasEmitidas rawData) (lit "-")) neutral;
     Resp.segmento := mkCell (orElse (Raw.segmento rawData) (lit "-")) neutral;
     Resp.tipoFundo := mkCell (orElse (Raw.tipoFundo rawData) (lit "-")) neutral;
     Resp.tipoGestao := mkCell (orElse (Raw.tipoGestao rawData) (lit "-")) neutral;
     Resp.taxaAdm := mkCell (orElse (Raw.taxaAdm rawData) (lit "-")) neutral |}.

(** [app.post('/buscar-fii', ...)]. *)
Definition buscarFii (ticker : jsval) (w : World) : Response Resp.t :=
  match ticker with
  | JStr (c :: t) =>
    if browser w then
      match page (fiiRun w) with
      | Extracted rawData =>
        if closed (fiiRun w) then
          if negb (Js.truthy (Raw.cotacao rawData))
             || match Raw.cotacao rawData with JStr s => isLit s "-" | _ => false end
          then mkResponse 404 (ErrorBody (lit "Dados essenciais (cotação) não encontrados."))
          else mkResponse 200 (DataBody (report (c :: t) rawData))
        else mkResponse 500 (ErrorBody (lit "Erro ao buscar dados de FII."))
      | Threw => mkResponse 500 (ErrorBody (lit "Erro ao buscar dados de FII."))
      end
    else mkResponse 500 (ErrorBody (lit "Erro ao buscar dados de FII."))
  | _ => mkResponse 400 (ErrorBody (lit "Ticker não informado"))
  end.

End Handler.

End Fii.

(* ------------------------------------------------------------------ *)
(** ** The /register and /login routes (src/scraper.js and src/server.js) *)

Module Auth.

(** A row of the table [users]. *)
Module User.
Record t := mk { id : N; email : jsstring; password_hash : jsstring }.
End User.

(** What [/login] sends back on success: [{ message, user: { id, email } }]. *)
Record Session := mkSession { message : jsstring; userId : N; userEmail : jsstring }.

(** The texts of the answers: the two files differ in nothing else. *)
Record Texts := mkTexts {
  required : jsstring; taken : jsstring; created : jsstring; registerError : jsstring;
  incorrect : jsstring; logged : jsstring; loginError : jsstring }.

Definition scraperTexts : Texts :=
  mkTexts (lit "Email e senha são obrigatórios.") (lit "Usuário já cadastrado.")
          (lit "Conta criada com sucesso!") (lit "Erro interno ao criar conta.")
          (lit "Email ou senha incorretos.") (lit "Login realizado!")
          (lit "Erro interno ao fazer login.").

Definition serverTexts : Texts :=
  mkTexts (lit "Email/Senha obrigatórios.") (lit "Usuário já existe.")
          (lit "Conta criada!") (lit "Erro no servidor.")
          (lit "Dados incorretos.") (lit "Logado!") (lit "Erro no servidor.").

(** What one request meets: whether the [SELECT] completes, the salt of the
    hash ([None] when [bcrypt] throws), the id the database gives the new row
    ([None] when the [INSERT] throws), and whether [bcrypt.compare]
    completes. *)
Record World := mkWorld {
  selectOk : bool; salt : option jsstring; inserted : option N; compareOk : bool }.

Section Routes.

(** The database's comparison of the column [email] with the parameter of
    [WHERE email = ?], [bcrypt.hash(password, salt)] and
    [bcrypt.compare(password, hash)]. *)
Variable sameEmail : jsstring -> jsstring -> bool.
Variable hash : jsstring -> jsstring -> jsstring.
Variable compare : jsstring -> jsstring -> bool.

Variable texts : Texts.

(** [SELECT * FROM users WHERE email = ?]. *)
Definition select (table : list User.t) (e : jsstring) : list User.t :=
  filter (fun u => sameEmail (User.email u) e) table.

(** [app.post('/register', ...)] runs in two turns of the event loop that
    touch the table: the [SELECT], and after the hash has been awaited the
    [INSERT].  Queries of other requests may run in between, so each turn
    takes the table as it is then.  A request between its two queries is
    already answered, or about to insert the email with the hash. *)
Inductive pending := Answered (r : Response jsstring) | Inserting (e h : jsstring).

(** The handler up to the [INSERT]: the test of the body, the [SELECT] and
    the hash. *)
Definition registerSelect (email password : jsval) (w : World) (table : list User.t)
  : pending :=
  if negb (Js.truthy email) || negb (Js.truthy password)
  then Answered (mkResponse 400 (ErrorBody (required texts)))
  else
    match email, password with
    | JStr e, JStr p =>
      if selectOk w then
        match select table e with
        | _ :: _ => Answered (mkResponse 409 (ErrorBody (taken texts)))
        | [] =>
          match salt w with
          | Some s => Inserting e (hash p s)
          | None => Answered (mkResponse 500 (ErrorBody (registerError texts)))
          end
        end
      else Answered (mkResponse 500 (ErrorBody (registerError texts)))
    | _, _ => Answered (mkResponse 400 (ErrorBody (required texts)))
    end.

(** The [INSERT] and the answer: the answer and the table afterwards. *)
Definition registerInsert (q : pending) (w : World) (table : list User.t)
  : Response jsstring * list User.t :=
  match q with
  | Answered r => (r, table)
  | Inserting e h =>
    match inserted w with
    | Some i => (mkResponse 201 (DataBody (created texts)), table ++ [User.mk i e h])
    | None => (mkResponse 500 (ErrorBody (registerError texts)), table)
    end
  end.

(** A request that no query of another request separates from its own
    [INSERT]: both turns on the same table. *)
Definition register (email password : jsval) (w : World) (table : list User.t)
  : Response jsstring * list User.t :=
  registerInsert (registerSelect email password w table) w table.

(** [app.post('/login', ...)].  An [undefined] parameter makes the query
    throw, a [null] one matches no row; [bcrypt.compare] throws on a password
    that is not a string. *)
Definition login (email password : jsval) (w : World) (table : list User.t)
  : Response Session :=
  let failure := mkResponse 500 (ErrorBody (loginError texts)) in
  let refused := mkResponse 401 (ErrorBody (incorrect texts)) in
  let users :=
    match email with
    | JStr e => if selectOk w then Some (select table e) else None
    | JNull => if selectOk w then Some [] else None
    | JUndefined => None
    end in
  match users with
  | None => failure
  | Some [] => refused
  | Some (user :: _) =>
    match password with
    | JStr p =>
      if compareOk w then
        if compare p (User.password_hash user)
        then mkResponse 200 (DataBody (mkSession (logged texts) (User.id user) (User.email user)))
        else refused
      else failure
    | _ => failure
    end
  end.

End Routes.

End Auth.

(* ------------------------------------------------------------------ *)
(** ** [getBrowser]: the browser kept between requests *)

Module Browser.

Section Handles.

(** Browser handles. *)
Variable B : Type.

(** A call of [getBrowser] runs up to its first [await] and goes on when
    the awaited promise settles; other calls run in between.  An event is one
    such turn of the event loop: a call starts ([connected] is what
    [isConnected()] answers for the kept browser, which only src/server.js
    asks), the [browser.close()] of a suspended call settles (resolved or
    rejected, src/server.js only), or the [puppeteer.launch] of a suspended
    call settles (with a browser, or rejected). *)
Inductive event := Call (connected : bool) | Closed | Launched (b : option B).

(** What a turn does that shows outside: it calls [close()] on a browser,
    it calls [puppeteer.launch], and the call returns a browser or throws. *)
Inductive effect := Close (b : B) | Launch | Return (b : B) | Throw.

(** The variable [browser], and the numbers of calls suspended at
    [await browser.close()] and at [await puppeteer.launch(...)]. *)
Record state := mkState { browser : option B; closing : nat; launching : nat }.

(** No browser yet, no call under way. *)
Definition cold : state := mkState None 0 0.

(** The end of a launch, in both files: [browser = await ...; return
    browser].  Nothing settles when no call is suspended. *)
Definition settle (s : state) (b : option B) : state * list effect :=
  match launching s with
  | O => (s, [])
  | S n =>
    match b with
    | Some b => (mkState (Some b) (closing s) n, [Return b])
    | None => (mkState (browser s) (closing s) n, [Throw])
    end
  end.

(** src/scraper.js: one turn of [getBrowser]. *)
Definition getBrowser (s : state) (ev : event) : state * list effect :=
  match ev with
  | Call _ =>
    match browser s with
    | Some b => (s, [Return b])
    | None => (mkState None (closing s) (S (launching s)), [Launch])
    end
  | Closed => (s, [])
  | Launched b => settle s b
  end.

(** src/server.js: one turn of [getBrowser].  A kept browser that is no
    longer connected is closed first; when the [close()] has settled the
    variable is set to [null], whatever it holds by then, and a browser is
    launched. *)
Definition serverGetBrowser (s : state) (ev : event) : state * list effect :=
  match ev with
  | Call connected =>
    match browser s with
    | Some b =>
      if connected then (s, [Return b])
      else (mkState (Some b) (S (closing s)) (launching s), [Close b])
    | None => (mkState None (closing s) (S (launching s)), [Launch])
    end
  | Closed =>
    match closing s with
    | O => (s, [])
    | S n => (mkState None n (S (launching s)), [Launch])
    end
  | Launched b => settle s b
  end.

(** The turns of a trace, one after the other. *)
Fixpoint run (step : state -> event -> state * list effect) (s : state)
    (evs : list event) : state * list effect :=
  match evs with
  | [] => (s, [])
  | ev :: rest =>
    let '(s1, l1) := step s ev in
    let '(s2, l2) := run step s1 rest in
    (s2, l1 ++ l2)
  end.

(** What one call meets when nothing else runs before it ends: what
    [isConnected()] answers and what [puppeteer.launch] gives ([None] when it
    throws); and the turns of such a call. *)
Record World := mkWorld { launch : option B; isConnected : bool }.

Definition alone (w : World) : list event :=
  [Call (isConnected w); Closed; Launched (launch w)].

(** The browsers returned and the number of launches in a list of
    effects. *)
Fixpoint returned (l : list effect) : list B :=
  match l with
  | [] => []
  | Return b :: rest => b :: returned rest
  | _ :: rest => returned rest
  end.

Fixpoint launches (l : list effect) : nat :=
  match l with
  | [] => O
  | Launch :: rest => S (launches rest)
  | _ :: rest => launches rest
  end.

End Handles.

Arguments Call {B} connected.
Arguments Closed {B}.
Arguments Launched {B} b.
Arguments Close {B} b.
Arguments Launch {B}.
Arguments Return {B} b.
Arguments Throw {B}.
Arguments mkState {B} browser closing launching.
Arguments browser {B} s.
Arguments closing {B} s.
Arguments launching {B} s.
Arguments cold {B}.
Arguments settle {B} s b.
Arguments getBrowser {B} s ev.
Arguments serverGetBrowser {B} s ev.
Arguments run {B} step s evs.
Arguments mkWorld {B} launch isConnected.
Arguments launch {B} w.
Arguments isConnected {B} w.
Arguments alone {B} w.
Arguments returned {B} l.
Arguments launches {B} l.

End Browser.

(* ------------------------------------------------------------------ *)
(** ** src/scraper.js: the stand-alone scrapers [scrapeAcoes] and [scrapeFIIs] *)

Module Standalone.

(** [hay.includes(needle)]. *)
Fixpoint includes (needle hay : jsstring) : bool :=
  startsWith needle hay ||
  match hay with
  | _ :: t => includes needle t
  | [] => false
  end.

(** [v === null]. *)
Definition isNull (v : jsval) : bool :=
  match v with
  | JNull => true
  | _ => false
  end.

(** How a call ends: with a value, with [new Error(message)] thrown by the
    [catch] block, or with whatever a failing call threw. *)
Inductive outcome (A : Type) := Returned (a : A) | Raised (message : jsstring) | Crashed.
Arguments Returned {A} a.
Arguments Raised {A} message.
Arguments Crashed {A}.

(** The browser a call launched, when it ends. *)
Inductive browserState := NotLaunched | Open | Closed.

(** What one call meets: whether [puppeteer.launch], [browser.newPage] and
    [page.goto] complete, what [page.evaluate] gives, and whether
    [browser.close()] completes in the [try] block and in the [catch]
    block. *)
Record World (A : Type) := mkWorld {
  launch : bool; newPage : bool; goto : bool; evaluate : attempt A;
  closeInTry : bool; closeInCatch : bool }.
Arguments mkWorld {A} launch newPage goto evaluate closeInTry closeInCatch.
Arguments launch {A} w.
Arguments newPage {A} w.
Arguments goto {A} w.
Arguments evaluate {A} w.
Arguments closeInTry {A} w.
Arguments closeInCatch {A} w.

(** The shape the two scrapers share: launch, open and load the page outside
    [try]; extract, close and finish inside; close and throw anew in
    [catch]. *)
Definition scrapeWith {A R : Type} (finish : A -> R) (w : World A)
  : outcome R * browserState :=
  let caught :=
    if closeInCatch w
    then (Raised (lit "Erro ao extrair os dados do site Investidor10"), Closed)
    else (Crashed, Open) in
  if negb (launch w) then (Crashed, NotLaunched)
  else if negb (newPage w) then (Crashed, Open)
  else if negb (goto w) then (Crashed, Open)
  else
    match evaluate w with
    | Threw => caught
    | Extracted dados => if closeInTry w then (Returned (finish dados), Closed) else caught
    end.

(** What the page of a fund gives [scrapeFIIs]. *)
Module Dados.
Record t := mk {
  cotacao : jsstring; dy : jsstring; pvp : jsstring;
  ultimoRendimento : jsstring; y1m : jsstring }.
End Dados.

(** [ebn] is a number or the text '-'. *)
Inductive count := Dash | Count (n : Whole.t).

Module Fundo.
Record t := mk {
  ticker : jsstring; cotacao : jsstring; dy : jsstring; pvp : jsstring;
  ultimoRendimento : jsstring; y1m : jsstring; ebn : count; vn : jsstring }.
End Fundo.

Section Pages.

Variable toUpperCase toLowerCase : jsstring -> jsstring.

(** The loop of [scrapeAcoes] over the texts of the page's [span]s, from
    the current values of [vpa] and [lpa]. *)
Fixpoint scan (spans : list jsstring) (vpa lpa : jsval) : jsval * jsval :=
  match spans with
  | [] => (vpa, lpa)
  | span :: rest =>
    let texto := toLowerCase span in
    let vpa :=
      match rest with
      | next :: _ =>
        if includes (lit "vpa") texto && isNull vpa then JStr (trim next) else vpa
      | [] => vpa
      end in
    let lpa :=
      match rest with
      | next :: _ =>
        if includes (lit "lpa") texto && isNull lpa then JStr (trim next) else lpa
      | [] => lpa
      end in
    if Js.truthy vpa && Js.truthy lpa then (vpa, lpa) else scan rest vpa lpa
  end.

(** [scrapeAcoes(ticker)], on the texts of the page's [span]s. *)
Definition scrapeAcoes (w : World (list jsstring)) : outcome (jsval * jsval) * browserState :=
  scrapeWith (fun spans => scan spans JNull JNull) w.

(** [parseFloat(text.replace(/[^\d,.-]/g, '').replace(',', '.'))]. *)
Definition numberOf (text : jsstring) : float :=
  parseFloat
    (replaceFirst 44 [46]
       (filter (fun c => isDigit c || (c =? 44) || (c =? 46) || (c =? 45)) text)).

Definition finishFII (ticker : jsstring) (dados : Dados.t) : Fundo.t :=
  let cotacaoNum := numberOf (Dados.cotacao dados) in
  let ultimoRendimentoNum := numberOf (Dados.ultimoRendimento dados) in
  let '(ebn, vn) :=
    if gt cotacaoNum 0 && gt ultimoRendimentoNum 0
    then
      let ebn := Whole.ceil (cotacaoNum / ultimoRendimentoNum)%float in
      (Count ebn, toFixed2 (Whole.toNumber ebn * cotacaoNum)%float)
    else (Dash, lit "-") in
  Fundo.mk (toUpperCase ticker) (Dados.cotacao dados) (Dados.dy dados) (Dados.pvp dados)
           (Dados.ultimoRendimento dados) (Dados.y1m dados) ebn vn.

(** [scrapeFIIs(ticker)]. *)
Definition scrapeFIIs (ticker : jsstring) (w : World Dados.t) : outcome Fundo.t * browserState :=
  scrapeWith (finishFII ticker) w.

End Pages.

End Standalone.

(* ------------------------------------------------------------------ *)
(** ** Readings of the answers, for the further properties *)

Module Readings.

(** The order of the verdicts: unfavorable, neutral, favorable. *)
Definition rank (v : Verdict) : N :=
  match v with
  | bad => 0
  | neutral => 1
  | good => 2
  end.

(** The rows of [classifyIndicator] whose verdict grows with the value, and
    those whose verdict falls with it ([pl] and [payout] are neither). *)
Definition higherIsBetter : list string :=
  ["dy"; "roe"; "roic"; "margemLiquida"; "margemEbitda"; "liquidezCorrente";
   "potencial"; "cagr"]%string.

Definition lowerIsBetter : list string :=
  ["pvp"; "dividaLiquidaEbit"; "dividaLiquidaEbitda"; "risco"]%string.

(** Every cell of a report of the full server. *)
Definition cells (r : Scraper.Resp.t) : list Cell :=
  snd (fst (primaryCells r)) ++ xpiCells r ++ btgCells r.

(** Every cell of a report of the reduced server. *)
Definition serverCells (r : Server.Resp.t) : list Cell :=
  [Server.Resp.cotacao r; Server.Resp.pl r; Server.Resp.pvp r; Server.Resp.dy r;
   Server.Resp.valorJusto r; Server.Resp.precoTeto r].

(** The price cell of the primary provider is missing, empty or a dash. *)
Definition noPrice (v : jsval) : bool :=
  negb (Js.truthy v) || match v with JStr s => isLit s "-" | _ => false end.

(** The whole number of hundredths nearest to a finite number's magnitude,
    the larger one on a tie: what [toFixed(2)] prints. *)
Definition centsOf (x : float) : N :=
  match Prim2SF x with
  | S754_finite _ m e => let '(a, k) := exactPos m e in roundHundredths a k
  | _ => 0
  end.

(** Every cell of a report of /buscar-fii. *)
Definition fiiCells (r : Fii.Resp.t) : list Cell :=
  [Fii.Resp.cotacao r; Fii.Resp.pvp r; Fii.Resp.dy r; Fii.Resp.liquidezDiaria r;
   Fii.Resp.valorMercado r; Fii.Resp.ultimoRendimento r; Fii.Resp.y1m r; Fii.Resp.ebn r;
   Fii.Resp.vn r; Fii.Resp.valorPatrimonial r; Fii.Resp.vpa r; Fii.Resp.vacancia r;
   Fii.Resp.numCotistas r; Fii.Resp.cotasEmitidas r; Fii.Resp.segmento r;
   Fii.Resp.tipoFundo r; Fii.Resp.tipoGestao r; Fii.Resp.taxaAdm r].

(** At most one row of the table answers to each email. *)
Definition oneAccountPerEmail (sameEmail : jsstring -> jsstring -> bool)
    (table : list Auth.User.t) : Prop :=
  forall e, (length (Auth.select sameEmail table e) <= 1)%nat.

(** The text after the first [span] whose lower-case text mentions [key]
    and that is not the last one; [null] when there is none. *)
Fixpoint firstAfter (toLowerCase : jsstring -> jsstring) (key : jsstring)
    (spans : list jsstring) : jsval :=
  match spans with
  | span :: ((next :: _) as rest) =>
    if Standalone.includes key (toLowerCase span) then JStr (trim next)
    else firstAfter toLowerCase key rest
  | _ => JNull
  end.

(** The first browser a sequence of calls gets from [puppeteer.launch]. *)
Fixpoint firstLaunch {B : Type} (ws : list (Browser.World B)) : option B :=
  match ws with
  | [] => None
  | w :: rest =>
    match Browser.launch w with
    | Some b => Some b
    | None => firstLaunch rest
    end
  end.

(** [v] when it is not [null], [d] otherwise. *)
Definition orNull (v d : jsval) : jsval := if Standalone.isNull v then d else v.

(** A character that [scrapeFIIs] keeps in a number's text. *)
Definition kept (c : N) : bool := isDigit c || (c =? 44) || (c =? 46) || (c =? 45).

End Readings.

Import Readings.

(* ------------------------------------------------------------------ *)
(** ** Sample inputs of the further properties *)

Module Cases.

(** "R$ 10,50" and "0,10": a fund's price and its last income per share. *)
Definition priceLayout : Layout :=
  mkLayout [] (Some [32]) false [[49; 48]] (Some [53; 48]) [] false [].

Definition incomeLayout : Layout :=
  mkLayout [] None false [[48]] (Some [49; 48]) [] false [].

(** A database that compares emails code unit by code unit, and a stand-in
    for [bcrypt] whose hash is the salt followed by the password. *)
Definition plainHash (password salt : jsstring) : jsstring := salt ++ password.

Definition plainCompare (password hash : jsstring) : bool :=
  Js.eqb (skipn (length hash - length password) hash) password.

(** A request that meets no failure: salt "$2b$", row id 7. *)
Definition calm : Auth.World := Auth.mkWorld true (Some (lit "$2b$")) (Some 7) true.

End Cases.

Import Cases.

(* ================================================================== *)
(** * Proofs *)

(** ** Order of binary64 numbers *)

Module FloatOrder.

#[local] Open Scope Z_scope.

Lemma SFcompare_key (x y : spec_float) :
  number x -> number y ->
  exists c, SFcompare x y = Some c /\
    (c = Lt <-> lexlt (key x) (key y)) /\
    (c = Gt <-> lexlt (key y) (key x)).
Proof.
  unfold number.
  destruct x as [sx|sx| |sx mx ex], y as [sy|sy| |sy my ey]; try congruence; intros _ _;
    cbv [SFcompare]; try destruct sx; try destruct sy;
    try rewrite Pos.compare_cont_spec; cbv [Pos.switch_Eq];
    try destruct (Z.compare_spec ex ey); try destruct (Pos.compare_spec mx my); cbv [CompOpp];
    (eexists; split; [reflexivity|]; cbv [key lexlt]; split; split; intros;
     try discriminate; try reflexivity; try lia; exfalso; lia).
Qed.

Lemma number_dec (x : spec_float) : number x \/ x = S754_nan.
Proof. destruct x; unfold number; (now right) || (left; discriminate). Qed.

Lemma SFcompare_nan (x y : spec_float) :
  x = S754_nan \/ y = S754_nan -> SFcompare x y = None.
Proof. intros [-> | ->]; [reflexivity | now destruct x]. Qed.

Lemma ltb_true (x y : float) : PrimFloat.ltb x y = true <-> FLt x y.
Proof.
  rewrite FloatAxioms.ltb_spec. unfold SFltb, FLt.
  destruct (number_dec (Prim2SF x)) as [nx | ex];
    [destruct (number_dec (Prim2SF y)) as [ny | ey] |].
  - destruct (SFcompare_key _ _ nx ny) as (c & -> & hl & hg).
    destruct c; intuition (try discriminate; auto).
  - rewrite SFcompare_nan by auto. unfold number. intuition (try discriminate; auto).
  - rewrite SFcompare_nan by auto. unfold number. intuition (try discriminate; auto).
Qed.

Lemma leb_true (x y : float) : PrimFloat.leb x y = true <-> FLe x y.
Proof.
  rewrite FloatAxioms.leb_spec. unfold SFleb, FLe.
  destruct (number_dec (Prim2SF x)) as [nx | ex];
    [destruct (number_dec (Prim2SF y)) as [ny | ey] |].
  - destruct (SFcompare_key _ _ nx ny) as (c & -> & hl & hg).
    destruct c; intuition (try discriminate; auto).
  - rewrite SFcompare_nan by auto. unfold number. intuition (try discriminate; auto).
  - rewrite SFcompare_nan by auto. unfold number. intuition (try discriminate; auto).
Qed.

Lemma eqb_true (x y : float) : PrimFloat.eqb x y = true <-> FEq x y.
Proof.
  rewrite FloatAxioms.eqb_spec. unfold SFeqb, FEq.
  destruct (number_dec (Prim2SF x)) as [nx | ex];
    [destruct (number_dec (Prim2SF y)) as [ny | ey] |].
  - destruct (SFcompare_key _ _ nx ny) as (c & -> & hl & hg).
    destruct c; intuition (try discriminate; auto).
  - rewrite SFcompare_nan by auto. unfold number. intuition (try discriminate; auto).
  - rewrite SFcompare_nan by auto. unfold number. intuition (try discriminate; auto).
Qed.

Lemma eqb_false (x y : float) : PrimFloat.eqb x y = false <-> ~ FEq x y.
Proof. rewrite <- eqb_true. destruct (PrimFloat.eqb x y); intuition congruence. Qed.

Lemma ltb_false (x y : float) : PrimFloat.ltb x y = false <-> ~ FLt x y.
Proof. rewrite <- ltb_true. destruct (PrimFloat.ltb x y); intuition congruence. Qed.

Lemma leb_false (x y : float) : PrimFloat.leb x y = false <-> ~ FLe x y.
Proof. rewrite <- leb_true. destruct (PrimFloat.leb x y); intuition congruence. Qed.


(** Deciding a goal about comparisons of a number with literals: every
    comparison is read on keys, the keys of the literals are computed, and
    the rest is linear arithmetic. *)
Ltac literal_keys :=
  repeat match goal with
  | |- context [Prim2SF ?c] =>
    tryif is_var c then fail else
      let v := eval vm_compute in (Prim2SF c) in
      replace (Prim2SF c) with v in * by (vm_compute; reflexivity)
  | H : context [Prim2SF ?c] |- _ =>
    tryif is_var c then fail else
      let v := eval vm_compute in (Prim2SF c) in
      replace (Prim2SF c) with v in * by (vm_compute; reflexivity)
  end.

Ltac split_numbers :=
  repeat match goal with
  | |- context [Prim2SF ?x] => is_var x; destruct (Prim2SF x) as [[|]|[|]| |[|] ? ?]
  | H : context [Prim2SF ?x] |- _ => is_var x; destruct (Prim2SF x) as [[|]|[|]| |[|] ? ?]
  end.

Ltac float_order :=
  unfold Num.lt, Num.gt, Num.le, Num.ge, Num.truthy, Num.isNaN, is_zero, is_nan in *;
  repeat (progress rewrite ?Bool.andb_true_iff, ?Bool.andb_false_iff, ?Bool.orb_true_iff,
            ?Bool.orb_false_iff, ?Bool.negb_true_iff, ?Bool.negb_false_iff in *);
  rewrite ?ltb_true, ?ltb_false, ?leb_true, ?leb_false, ?eqb_true, ?eqb_false in *;
  unfold FLt, FLe, FEq in *;
  literal_keys; split_numbers;
  cbv [key lexlt number] in *;
  intuition (try congruence; try lia).

End FloatOrder.

Import FloatOrder.

(** ** [decimalToFloat] is never [NaN] *)

Module NoNaN.
#[local] Open Scope Z_scope.

Lemma shr_1_nonneg (mrs : shr_record) : 0 <= shr_m mrs -> 0 <= shr_m (shr_1 mrs).
Proof.
  destruct mrs as [m r s]. cbv [shr_m shr_1].
  destruct m as [|[p|p|]|[p|p|]]; cbv [shr_m]; lia.
Qed.

Lemma iter_shr_1_nonneg (p : positive) (mrs : shr_record) :
  0 <= shr_m mrs -> 0 <= shr_m (iter_pos shr_1 p mrs).
Proof.
  revert mrs. induction p as [p IH | p IH |]; intros mrs H; cbn [iter_pos].
  - apply IH, IH, shr_1_nonneg, H.
  - apply IH, IH, H.
  - apply shr_1_nonneg, H.
Qed.

Lemma shr_fexp_nonneg (m e : Z) (l : location) :
  0 <= m -> 0 <= shr_m (fst (shr_fexp prec emax m e l)).
Proof.
  intros H. unfold shr_fexp, shr.
  assert (H0 : 0 <= shr_m (shr_record_of_loc m l)) by (destruct l as [|[]]; exact H).
  destruct (fexp prec emax (Zdigits2 m + e) - e); cbn [fst]; auto using iter_shr_1_nonneg.
Qed.

Lemma round_nearest_even_nonneg (m : Z) (l : location) :
  0 <= m -> 0 <= round_nearest_even m l.
Proof. destruct l as [|[]]; cbn [round_nearest_even]; try destruct (Z.even m); lia. Qed.

Lemma binary_round_aux_number (s : bool) (m e : Z) (l : location) :
  0 <= m -> number (binary_round_aux prec emax s m e l).
Proof.
  intros H. unfold binary_round_aux.
  pose proof (shr_fexp_nonneg m e l H) as H1.
  destruct (shr_fexp prec emax m e l) as [mrs' e']. cbn [fst] in H1.
  pose proof (shr_fexp_nonneg _ e' loc_Exact
                (round_nearest_even_nonneg _ (loc_of_shr_record mrs') H1)) as H2.
  destruct (shr_fexp prec emax _ e' loc_Exact) as [mrs'' e'']. cbn [fst] in H2.
  destruct (shr_m mrs'') as [|q|q]; try lia; try discriminate.
  destruct (e'' <=? emax - prec); discriminate.
Qed.

Lemma binary_round_number (s : bool) (m : positive) (e : Z) :
  number (binary_round prec emax s m e).
Proof.
  unfold binary_round.
  destruct (shl_align m e _) as [mz ez]. apply binary_round_aux_number. lia.
Qed.

Lemma binary_normalize_number (m e : Z) (sz : bool) :
  number (binary_normalize prec emax m e sz).
Proof.
  destruct m; cbn [binary_normalize]; try apply binary_round_number. discriminate.
Qed.

Lemma SFdiv_finite_number (sx sy : bool) (mx my : positive) (ex ey : Z) :
  number (SFdiv prec emax (S754_finite sx mx ex) (S754_finite sy my ey)).
Proof.
  cbn [SFdiv]. unfold SFdiv_core_binary.
  set (m' := match _ - _ - _ with Z0 => _ | Zpos _ => _ | Zneg _ => _ end).
  assert (0 <= m').
  { subst m'. destruct (_ - _ - _); try lia. apply Z.shiftl_nonneg. lia. }
  pose proof (Z_div_mod m' (Zpos my) eq_refl) as Hd.
  destruct (Z.div_eucl m' (Z.pos my)) as [q r].
  apply binary_round_aux_number. nia.
Qed.

Lemma decimalToSF_number (neg : bool) (m : N) (e10 : Z) : number (decimalToSF neg m e10).
Proof.
  unfold decimalToSF. destruct m; [discriminate|].
  destruct e10; auto using binary_normalize_number, SFdiv_finite_number.
Qed.

Lemma SFcompare_refl (x : spec_float) : number x -> SFcompare x x = Some Eq.
Proof.
  destruct x as [[]|[]| |[] m e]; unfold number; try congruence; intros _; cbn [SFcompare];
    try reflexivity; rewrite Z.compare_refl, Pos.compare_cont_refl; reflexivity.
Qed.

Lemma is_nan_false (x : float) : is_nan x = false <-> number (Prim2SF x).
Proof.
  unfold is_nan. rewrite FloatAxioms.eqb_spec. unfold SFeqb.
  destruct (number_dec (Prim2SF x)) as [n | e].
  - rewrite SFcompare_refl by exact n. cbv [negb]. tauto.
  - rewrite e. cbv [SFcompare negb]. unfold number. intuition congruence.
Qed.

Lemma SF2Prim_number (x : spec_float) : number x -> is_nan (SF2Prim x) = false.
Proof.
  destruct x as [[]|[]| |s m e]; unfold number; try congruence; intros _;
    try (vm_compute; reflexivity).
  apply is_nan_false. cbn [SF2Prim].
  assert (H : number (Prim2SF (Z.ldexp (of_uint63 (Uint63.of_Z (Z.pos m))) e))).
  { rewrite Z_ldexp_spec, of_uint63_spec.
    pose proof (binary_normalize_number (Uint63.to_Z (Uint63.of_Z (Z.pos m))) 0 false) as H.
    destruct (binary_normalize _ _ _ _ _) as [| | |s' m' e']; cbn [SFldexp]; try exact H.
    apply binary_round_number. }
  destruct s; [rewrite opp_spec|exact H].
  destruct (Prim2SF _); cbn [SFopp]; unfold number in *; congruence.
Qed.

Lemma decimalToFloat_number (neg : bool) (m : N) (e10 : Z) :
  isNaN (decimalToFloat neg m e10) = false.
Proof. apply SF2Prim_number, decimalToSF_number. Qed.

End NoNaN.

Import NoNaN.

(** ** Rounding is monotone

    [binary_round_aux] on a non-negative value is a function of the code
    of its argument, and that function does not decrease. *)

Module Rounding.
#[local] Open Scope Z_scope.

Ltac divmod := Z.div_mod_to_equations; lia.

Lemma halve_mono (a b : Z) : 0 <= a <= b -> 0 <= halve a <= halve b.
Proof.
  unfold halve. intros H.
  destruct (Z.eqb_spec (a mod 4) 0), (Z.eqb_spec (b mod 4) 0); divmod.
Qed.

Lemma halve_floor (c : Z) : 0 <= c -> halve c / 4 = c / 4 / 2.
Proof. unfold halve. intros H. destruct (Z.eqb_spec (c mod 4) 0); divmod. Qed.

Lemma nearest_mono (a b : Z) : 0 <= a <= b -> 0 <= nearest a <= nearest b.
Proof.
  unfold nearest. intros H. rewrite !Zodd_mod.
  destruct (Z.eqb_spec (a mod 4) 3), (Z.eqb_spec (a mod 4) 2), (Z.eqb_spec (b mod 4) 3),
    (Z.eqb_spec (b mod 4) 2), (Z.eqb_spec (a / 4 mod 2) 1), (Z.eqb_spec (b / 4 mod 2) 1);
    cbn [orb andb]; divmod.
Qed.

Lemma nearest_bounds (c : Z) : 0 <= c -> c / 4 <= nearest c <= c / 4 + 1.
Proof. unfold nearest. intros H. destruct (_ || _); lia. Qed.

Lemma code_shr_1 (r : shr_record) :
  0 <= shr_m r -> code (shr_1 r) = halve (code r) /\ 0 <= shr_m (shr_1 r).
Proof.
  destruct r as [m r s]. unfold code, halve. cbn [shr_m shr_r shr_s shr_1]. intros H.
  destruct m as [|[p|p|]|p]; try lia; destruct r, s; cbn [shr_m shr_r shr_s orb b2z];
    match goal with |- context [?x mod 4 =? 0] => destruct (Z.eqb_spec (x mod 4) 0) end;
    split; try lia; divmod.
Qed.

Lemma nearest_spec (r : shr_record) :
  0 <= shr_m r -> round_nearest_even (shr_m r) (loc_of_shr_record r) = nearest (code r).
Proof.
  destruct r as [m r s]. unfold code, nearest. cbn [shr_m shr_r shr_s]. intros H.
  assert (E4 : (4 * m + 2 * b2z r + b2z s) / 4 = m) by (destruct r, s; cbn [b2z]; divmod).
  assert (M4 : (4 * m + 2 * b2z r + b2z s) mod 4 = 2 * b2z r + b2z s)
    by (destruct r, s; cbn [b2z]; divmod).
  rewrite E4, M4. rewrite <- Z.negb_even.
  destruct r, s; cbn [loc_of_shr_record round_nearest_even b2z Z.eqb orb andb Z.add Z.mul Pos.add Pos.mul Pos.eqb];
    try destruct (Z.even m); cbn [negb]; lia.
Qed.

(** *** Iterated shifts *)

Lemma shifts_0 (c : Z) : shifts 0 c = c.
Proof. reflexivity. Qed.

Lemma shifts_succ (k c : Z) : 0 <= k -> shifts (k + 1) c = halve (shifts k c).
Proof.
  intros H. unfold shifts. rewrite Z2Nat.inj_add by lia.
  rewrite Nat.add_comm. apply Nat.iter_succ.
Qed.

Lemma shifts_add (a b c : Z) : 0 <= a -> 0 <= b -> shifts (a + b) c = shifts a (shifts b c).
Proof.
  intros Ha Hb. unfold shifts. rewrite Z2Nat.inj_add by lia. apply Nat.iter_add.
Qed.

Lemma shifts_mono (k a b : Z) : 0 <= a <= b -> 0 <= shifts k a <= shifts k b.
Proof.
  intros H. unfold shifts. induction (Z.to_nat k) as [|n IH]; [exact H|].
  rewrite !Nat.iter_succ. apply halve_mono, IH.
Qed.

Lemma shifts_floor (k c : Z) : 0 <= c -> 0 <= k -> shifts k c / 4 = c / 4 / 2 ^ k.
Proof.
  intros Hc Hk. revert k Hk. apply natlike_ind.
  - rewrite shifts_0, Z.pow_0_r, Z.div_1_r. reflexivity.
  - intros k Hk IH. unfold Z.succ. rewrite shifts_succ by exact Hk.
    rewrite halve_floor by (apply (shifts_mono k c c); lia).
    rewrite IH, Z.pow_add_r, Z.pow_1_r by lia.
    rewrite Z.div_div by lia. reflexivity.
Qed.

Lemma iter_pos_nat {A : Type} (f : A -> A) (p : positive) (x : A) :
  iter_pos f p x = Nat.iter (Pos.to_nat p) f x.
Proof.
  revert x. induction p as [p IH | p IH |]; intros x; cbn [iter_pos].
  - rewrite !IH, Pos2Nat.inj_xI.
    replace (S (2 * Pos.to_nat p))%nat with (Pos.to_nat p + Pos.to_nat p + 1)%nat by lia.
    rewrite !Nat.iter_add. reflexivity.
  - rewrite !IH, Pos2Nat.inj_xO.
    replace (2 * Pos.to_nat p)%nat with (Pos.to_nat p + Pos.to_nat p)%nat by lia.
    rewrite Nat.iter_add. reflexivity.
  - reflexivity.
Qed.

Lemma code_shr (p : positive) (r : shr_record) :
  0 <= shr_m r ->
  code (iter_pos shr_1 p r) = shifts (Zpos p) (code r) /\ 0 <= shr_m (iter_pos shr_1 p r).
Proof.
  intros H. rewrite iter_pos_nat. unfold shifts. rewrite Z2Nat.inj_pos.
  induction (Pos.to_nat p) as [|n [IH1 IH2]]; [split; [reflexivity | exact H]|].
  rewrite !Nat.iter_succ, <- IH1. apply code_shr_1, IH2.
Qed.

Lemma code_nonneg (r : shr_record) : 0 <= shr_m r -> 0 <= code r.
Proof. unfold code. destruct (shr_r r), (shr_s r); cbn [b2z]; lia. Qed.

Lemma code_floor (r : shr_record) : code r / 4 = shr_m r.
Proof. unfold code. destruct (shr_r r), (shr_s r); cbn [b2z]; divmod. Qed.

Lemma code_of_loc (m : Z) (l : location) :
  shr_m (shr_record_of_loc m l) = m.
Proof. destruct l as [|[]]; reflexivity. Qed.

(** *** Digits *)

Lemma digits2_size (p : positive) : digits2_pos p = Pos.size p.
Proof. induction p; cbn [digits2_pos Pos.size]; congruence. Qed.

Lemma digits_bounds (m : Z) : 0 < m -> 2 ^ (Zdigits2 m - 1) <= m < 2 ^ Zdigits2 m.
Proof.
  destruct m as [|p|p]; try lia. intros _. cbn [Zdigits2]. rewrite digits2_size.
  pose proof (Pos.size_gt p) as G. pose proof (Pos.size_le p) as L.
  apply Pos2Z.pos_lt_pos in G. apply Pos2Z.pos_le_pos in L.
  rewrite Pos2Z.inj_pow in G, L. change (Z.pos p~0) with (2 * Z.pos p) in L.
  assert (S1 : 1 <= Z.pos (Pos.size p)) by lia.
  assert (E : 2 ^ Z.pos (Pos.size p) = 2 ^ (Z.pos (Pos.size p) - 1) * 2).
  { rewrite <- (Z.pow_1_r 2) at 3. rewrite <- Z.pow_add_r by lia. f_equal. lia. }
  change (Z.pos 2) with 2 in *. lia.
Qed.

Lemma digits_nonneg (m : Z) : 0 <= Zdigits2 m.
Proof. destruct m; cbn [Zdigits2]; lia. Qed.

Lemma digits_0 : Zdigits2 0 = 0.
Proof. reflexivity. Qed.

Lemma digits_pos (m : Z) : 0 < m -> 0 < Zdigits2 m.
Proof. destruct m; cbn [Zdigits2]; lia. Qed.

(** [m < 2^d] exactly when [m] has at most [d] digits. *)
Lemma digits_le (m d : Z) : 0 <= m -> 0 <= d -> (Zdigits2 m <= d <-> m < 2 ^ d).
Proof.
  intros Hm Hd. destruct (Z.eq_dec m 0) as [-> | N].
  - rewrite digits_0. split; intros; [apply Z.pow_pos_nonneg|]; lia.
  - pose proof (digits_bounds m ltac:(lia)) as [L U]. split; intros H.
    + eapply Z.lt_le_trans; [exact U|]. apply Z.pow_le_mono_r; lia.
    + destruct (Z_le_gt_dec (Zdigits2 m) d) as [|G]; [assumption|exfalso].
      assert (2 ^ d <= 2 ^ (Zdigits2 m - 1)) by (apply Z.pow_le_mono_r; lia). lia.
Qed.

Lemma digits_mono (a b : Z) : 0 <= a <= b -> Zdigits2 a <= Zdigits2 b.
Proof.
  intros H. apply digits_le; [lia | apply digits_nonneg|].
  destruct (Z.eq_dec b 0) as [-> | N].
  - assert (a = 0) by lia. subst. reflexivity.
  - pose proof (digits_bounds b ltac:(lia)). lia.
Qed.

(** Shifting right by [k] removes at most [k] digits. *)
Lemma digits_shift (m k : Z) : 0 <= m -> 0 <= k -> Zdigits2 m <= Zdigits2 (m / 2 ^ k) + k.
Proof.
  intros Hm Hk. apply digits_le; [lia | pose proof (digits_nonneg (m / 2 ^ k)); lia|].
  assert (P : 0 < 2 ^ k) by (apply Z.pow_pos_nonneg; lia).
  assert (Q : 0 <= m / 2 ^ k) by (apply Z.div_pos; lia).
  assert (m / 2 ^ k < 2 ^ Zdigits2 (m / 2 ^ k)).
  { destruct (Z.eq_dec (m / 2 ^ k) 0) as [-> | N]; [reflexivity|].
    apply digits_bounds. lia. }
  rewrite Z.pow_add_r by (try apply digits_nonneg; lia).
  pose proof (Z.mul_succ_div_gt m (2 ^ k) P). nia.
Qed.

(** In the other direction, when digits remain. *)
Lemma digits_shift_exact (m k : Z) :
  0 <= k -> 2 ^ k <= m -> Zdigits2 (m / 2 ^ k) = Zdigits2 m - k.
Proof.
  intros Hk Hm.
  assert (P : 0 < 2 ^ k) by (apply Z.pow_pos_nonneg; lia).
  assert (Q : 1 <= m / 2 ^ k) by (apply Z.div_le_lower_bound; lia).
  pose proof (digits_bounds m ltac:(lia)) as [L U].
  pose proof (digits_bounds (m / 2 ^ k) ltac:(lia)) as [L' U'].
  pose proof (digits_shift m k ltac:(lia) Hk).
  assert (K : k < Zdigits2 m).
  { apply (Z.pow_lt_mono_r_iff 2); [lia | apply digits_nonneg | lia]. }
  destruct (Z_le_gt_dec (Zdigits2 (m / 2 ^ k)) (Zdigits2 m - k)) as [|G]; [lia|exfalso].
  assert (2 ^ (Zdigits2 m - k) <= 2 ^ (Zdigits2 (m / 2 ^ k) - 1)) by (apply Z.pow_le_mono_r; lia).
  assert (m / 2 ^ k * 2 ^ k <= m) by (rewrite Z.mul_comm; apply Z.mul_div_le, P).
  assert (2 ^ (Zdigits2 m - k) * 2 ^ k = 2 ^ Zdigits2 m).
  { rewrite <- Z.pow_add_r by lia. f_equal. lia. }
  nia.
Qed.

(** *** [binary_round_aux] on codes *)

Lemma shr_fexp_code (m e : Z) (l : location) :
  0 <= m ->
  code (fst (shr_fexp prec emax m e l)) =
    shifts (Z.max (fexp prec emax (Zdigits2 m + e)) e - e) (code (shr_record_of_loc m l)) /\
  snd (shr_fexp prec emax m e l) = Z.max (fexp prec emax (Zdigits2 m + e)) e /\
  0 <= shr_m (fst (shr_fexp prec emax m e l)).
Proof.
  intros Hm. unfold shr_fexp, shr.
  assert (H0 : 0 <= shr_m (shr_record_of_loc m l)) by (rewrite code_of_loc; exact Hm).
  destruct (fexp prec emax (Zdigits2 m + e) - e) as [|p|p] eqn:E; cbn [fst snd].
  - replace (Z.max _ e - e) with 0 by lia. rewrite shifts_0. repeat split; [lia | exact H0].
  - replace (Z.max _ e - e) with (Z.pos p) by lia.
    destruct (code_shr p _ H0) as [C N]. repeat split; [exact C | lia | exact N].
  - replace (Z.max _ e - e) with 0 by lia. rewrite shifts_0. repeat split; [lia | exact H0].
Qed.

Lemma bra_rounded (m e : Z) (l : location) :
  0 <= m ->
  binary_round_aux prec emax false m e l = rounded (code (shr_record_of_loc m l)) e.
Proof.
  intros Hm. unfold binary_round_aux, rounded.
  rewrite code_floor, code_of_loc.
  destruct (shr_fexp_code m e l Hm) as (C1 & E1 & N1).
  destruct (shr_fexp prec emax m e l) as [mrs' e']. cbn [fst snd] in C1, E1, N1.
  rewrite nearest_spec by exact N1. rewrite C1. subst e'.
  set (T1 := Z.max (fexp prec emax (Zdigits2 m + e)) e) in *.
  set (m2 := nearest _).
  assert (H2 : 0 <= m2).
  { subst m2. rewrite <- C1. apply (nearest_mono (code mrs') (code mrs')).
    pose proof (code_nonneg mrs' N1). lia. }
  destruct (shr_fexp_code m2 T1 loc_Exact H2) as (C2 & E2 & N2).
  destruct (shr_fexp prec emax m2 T1 loc_Exact) as [mrs'' e'']. cbn [fst snd] in C2, E2, N2.
  subst e''.
  set (T2 := Z.max (fexp prec emax (Zdigits2 m2 + T1)) T1) in *.
  assert (M : shr_m mrs'' = m2 / 2 ^ (T2 - T1)).
  { rewrite <- code_floor, C2. rewrite shifts_floor.
    - rewrite code_floor, code_of_loc. reflexivity.
    - apply code_nonneg. rewrite code_of_loc. exact H2.
    - subst T2. lia. }
  rewrite M. reflexivity.
Qed.

(** *** The shape of a rounded value *)

Lemma fexp_eq (x : Z) : fexp prec emax x = Z.max (x - 53) (-1074).
Proof. reflexivity. Qed.

Lemma digits_div (m k : Z) : 0 <= m -> 0 <= k -> Zdigits2 (m / 2 ^ k) <= Z.max (Zdigits2 m - k) 0.
Proof.
  intros Hm Hk.
  assert (P : 0 < 2 ^ k) by (apply Z.pow_pos_nonneg; lia).
  apply digits_le; [apply Z.div_pos; lia | lia |].
  destruct (Z_le_gt_dec k (Zdigits2 m)) as [L | G].
  - replace (Z.max (Zdigits2 m - k) 0) with (Zdigits2 m - k) by lia.
    apply Z.div_lt_upper_bound; [exact P|].
    rewrite <- Z.pow_add_r by lia. replace (k + (Zdigits2 m - k)) with (Zdigits2 m) by lia.
    apply digits_le; [lia | apply digits_nonneg | lia].
  - replace (Z.max (Zdigits2 m - k) 0) with 0 by lia.
    assert (m < 2 ^ k).
    { assert (Zdigits2 m <= k) by lia. apply digits_le in H; lia. }
    rewrite Z.div_small by lia. reflexivity.
Qed.

Section Shape.

Variables c e : Z.
Hypothesis Hc : 0 <= c.

Let T1 := Z.max (fexp prec emax (Zdigits2 (c / 4) + e)) e.
Let m2 := nearest (shifts (T1 - e) c).

Lemma rounded_m2_bounds : 0 <= m2 <= 2 ^ 53.
Proof.
  subst m2.
  assert (K : 0 <= T1 - e) by (subst T1; lia).
  pose proof (shifts_mono (T1 - e) c c ltac:(lia)) as S.
  pose proof (nearest_bounds _ (proj1 S)) as B.
  rewrite shifts_floor in B by lia.
  assert (M0 : 0 <= c / 4) by (apply Z.div_pos; lia).
  pose proof (digits_div (c / 4) (T1 - e) M0 K) as D.
  assert (D' : Zdigits2 (c / 4 / 2 ^ (T1 - e)) <= 53).
  { subst T1. rewrite fexp_eq in *. lia. }
  apply digits_le in D'; [|apply Z.div_pos; [lia | apply Z.pow_pos_nonneg; lia] | lia].
  assert (0 <= c / 4 / 2 ^ (T1 - e)) by (apply Z.div_pos; [lia | apply Z.pow_pos_nonneg; lia]).
  lia.
Qed.

Lemma T1_emin : -1074 <= T1.
Proof. subst T1. rewrite fexp_eq. lia. Qed.

Lemma rounded_shape :
  (m2 = 0 /\ rounded c e = S754_zero false) \/
  (0 < m2 < 2 ^ 53 /\ rounded c e = finiteOrInf m2 T1) \/
  (m2 = 2 ^ 53 /\ rounded c e = finiteOrInf (2 ^ 52) (T1 + 1)).
Proof.
  pose proof rounded_m2_bounds as B. pose proof T1_emin as E.
  unfold rounded. fold T1. fold m2.
  destruct (Z.eq_dec m2 0) as [Z0 | NZ]; [left|right].
  - rewrite Z0. split; [reflexivity|]. rewrite Z.div_0_l; [reflexivity|].
    apply Z.pow_nonzero; [lia|]. lia.
  - destruct (Z.eq_dec m2 (2 ^ 53)) as [C | NC]; [right|left].
    + split; [exact C|]. rewrite C.
      assert (D : Zdigits2 (2 ^ 53) = 54) by reflexivity.
      rewrite D, fexp_eq.
      replace (Z.max (Z.max (54 + T1 - 53) (-1074)) T1) with (T1 + 1) by lia.
      replace (T1 + 1 - T1) with 1 by lia.
      change (2 ^ 53 / 2 ^ 1) with (Z.pos (Z.to_pos (2 ^ 52))). reflexivity.
    + assert (R : 0 < m2 < 2 ^ 53) by lia. split; [exact R|].
      assert (D : Zdigits2 m2 <= 53) by (apply digits_le; lia).
      rewrite fexp_eq.
      replace (Z.max (Z.max (Zdigits2 m2 + T1 - 53) (-1074)) T1) with T1 by lia.
      rewrite Z.sub_diag, Z.pow_0_r, Z.div_1_r.
      unfold finiteOrInf. destruct m2; try lia. reflexivity.
Qed.

End Shape.

Lemma key_finiteOrInf (M E : Z) :
  0 < M ->
  key (finiteOrInf M E) = (if E <=? emax - prec then (1, E, M) else (2, 0, 0)).
Proof.
  intros H. unfold finiteOrInf. destruct (E <=? emax - prec); [|reflexivity].
  cbn [key]. rewrite Z2Pos.id by exact H. reflexivity.
Qed.

(** *** Rounding is monotone *)

Ltac key_cases :=
  unfold keyle; rewrite ?key_finiteOrInf by lia;
  change (emax - prec) with 971;
  repeat match goal with
  | |- context [?a <=? 971] => destruct (Z.leb_spec a 971)
  end;
  cbv [key lexlt]; lia.

(** [ca] is the code of a value at exponent [e]; [cb'] is the code, at the
    same exponent, of a value at least as large, which the caller holds at
    the exponent [e + j], not above its canonical exponent. *)
Lemma rounded_mono (ca cb' e j : Z) :
  0 <= ca <= cb' -> 0 <= j ->
  e + j <= fexp prec emax (Zdigits2 (shifts j cb' / 4) + (e + j)) ->
  keyle (rounded ca e) (rounded (shifts j cb') (e + j)).
Proof.
  intros Hc Hj F.
  pose proof (shifts_mono j cb' cb' ltac:(lia)) as [Hb _].
  set (cb := shifts j cb') in *.
  assert (Fb : cb / 4 = cb' / 4 / 2 ^ j) by (subst cb; apply shifts_floor; lia).
  assert (Ma : 0 <= ca / 4) by (apply Z.div_pos; lia).
  assert (Mb' : ca / 4 <= cb' / 4) by (apply Z.div_le_mono; lia).
  assert (D : Zdigits2 (ca / 4) + e <= Zdigits2 (cb / 4) + (e + j)).
  { pose proof (digits_mono (ca / 4) (cb' / 4) ltac:(lia)).
    pose proof (digits_shift (cb' / 4) j ltac:(lia) Hj). rewrite Fb. lia. }
  pose proof (rounded_shape ca e ltac:(lia)) as Sa.
  pose proof (rounded_shape cb (e + j) Hb) as Sb.
  pose proof (rounded_m2_bounds cb (e + j) Hb) as Bb.
  cbv zeta in Sa, Sb, Bb.
  set (T1a := Z.max (fexp prec emax (Zdigits2 (ca / 4) + e)) e) in *.
  set (T1b := Z.max (fexp prec emax (Zdigits2 (cb / 4) + (e + j))) (e + j)) in *.
  set (m2a := nearest (shifts (T1a - e) ca)) in *.
  set (m2b := nearest (shifts (T1b - (e + j)) cb)) in *.
  assert (Tb : T1b = fexp prec emax (Zdigits2 (cb / 4) + (e + j))) by (subst T1b; lia).
  assert (Tab : T1a <= T1b) by (subst T1a; rewrite Tb, !fexp_eq; rewrite fexp_eq in F; lia).
  assert (Ea : -1074 <= T1a) by (subst T1a; rewrite fexp_eq; lia).
  destruct (Z.eq_dec T1a T1b) as [Teq | Tne].
  - (* the same exponent: the mantissas are ordered *)
    assert (M : m2a <= m2b).
    { subst m2a m2b cb. rewrite <- shifts_add by lia.
      replace (T1b - (e + j) + j) with (T1a - e) by lia.
      apply nearest_mono. apply shifts_mono. lia. }
    destruct Sa as [[Za ->] | [[Ra ->] | [Ca ->]]];
      destruct Sb as [[Zb ->] | [[Rb ->] | [Cb ->]]]; try lia; key_cases.
  - (* a higher exponent: the larger value has a full mantissa *)
    assert (Tlt : T1a < T1b) by lia.
    assert (Tn : T1b = Zdigits2 (cb / 4) + (e + j) - 53) by (rewrite fexp_eq in Tb; lia).
    assert (Kb : 0 <= T1b - (e + j)) by lia.
    assert (Dp : 0 < Zdigits2 (cb / 4)) by lia.
    assert (Pb : 0 < cb / 4).
    { destruct (Z.eq_dec (cb / 4) 0) as [Z0 | N]; [rewrite Z0 in Dp; discriminate|].
      assert (0 <= cb / 4) by (apply Z.div_pos; lia). lia. }
    assert (Full : 2 ^ 52 <= cb / 4 / 2 ^ (T1b - (e + j))).
    { pose proof (digits_bounds (cb / 4) Pb) as [L _].
      assert (X : 2 ^ (T1b - (e + j)) <= cb / 4).
      { eapply Z.le_trans; [|exact L]. apply Z.pow_le_mono_r; lia. }
      pose proof (digits_shift_exact (cb / 4) (T1b - (e + j)) Kb X) as Dx.
      assert (Q : 0 < cb / 4 / 2 ^ (T1b - (e + j))).
      { apply Z.div_str_pos. split; [apply Z.pow_pos_nonneg; lia | exact X]. }
      pose proof (digits_bounds _ Q) as [L' _].
      replace (Zdigits2 (cb / 4 / 2 ^ (T1b - (e + j))) - 1) with 52 in L' by lia.
      exact L'. }
    assert (M : 2 ^ 52 <= m2b).
    { subst m2b.
      pose proof (shifts_mono (T1b - (e + j)) cb cb ltac:(lia)) as [S0 _].
      pose proof (nearest_bounds _ S0) as [B _].
      rewrite shifts_floor in B by lia. lia. }
    destruct Sa as [[Za ->] | [[Ra ->] | [Ca ->]]];
      destruct Sb as [[Zb ->] | [[Rb ->] | [Cb ->]]]; try lia; key_cases.
Qed.

(** *** Codes of quotients *)

Lemma sticky_mono (a b d : Z) : 0 < d -> 0 <= a <= b -> 0 <= sticky a d <= sticky b d.
Proof.
  intros Hd H. unfold sticky.
  assert (Q : 2 * a / d <= 2 * b / d) by (apply Z.div_le_mono; lia).
  assert (Q0 : 0 <= 2 * a / d) by (apply Z.div_pos; lia).
  destruct (Z.eqb_spec ((2 * a) mod d) 0) as [Ea | Ea],
           (Z.eqb_spec ((2 * b) mod d) 0) as [Eb | Eb]; try lia.
  (* a inexact, b exact: the integer parts differ *)
  destruct (Z.eq_dec (2 * a / d) (2 * b / d)) as [E | N]; [exfalso | lia].
  pose proof (Z.div_mod (2 * a) d ltac:(lia)). pose proof (Z.div_mod (2 * b) d ltac:(lia)).
  pose proof (Z.mod_pos_bound (2 * a) d Hd). rewrite E in *. nia.
Qed.

Lemma sticky_floor (n d : Z) : 0 < d -> 0 <= n -> sticky n d / 4 = n / d.
Proof.
  intros Hd Hn. unfold sticky.
  assert (E : 2 * n / d / 2 = n / d).
  { rewrite Z.div_div by lia. rewrite (Z.mul_comm d 2), Z.div_mul_cancel_l by lia. reflexivity. }
  rewrite <- E. generalize (2 * n / d). intros q.
  destruct (_ =? 0); divmod.
Qed.

Lemma double_divmod (n d : Z) :
  0 < d -> 0 <= n ->
  (2 * (n mod d) < d /\ 2 * n / d = 2 * (n / d) /\ (2 * n) mod d = 2 * (n mod d)) \/
  (d <= 2 * (n mod d) /\ 2 * n / d = 2 * (n / d) + 1 /\ (2 * n) mod d = 2 * (n mod d) - d).
Proof.
  intros Hd Hn.
  pose proof (Z.div_mod n d ltac:(lia)) as E. pose proof (Z.mod_pos_bound n d Hd) as B.
  set (q := n / d) in *. set (r := n mod d) in *.
  destruct (Z_lt_ge_dec (2 * r) d) as [L | G]; [left | right]; (split; [lia|]).
  - apply (Z.div_mod_unique d); [left; apply Z.mod_pos_bound; lia | lia |].
    rewrite <- Z.div_mod by lia. rewrite E at 1. ring.
  - apply (Z.div_mod_unique d); [left; apply Z.mod_pos_bound; lia | lia |].
    rewrite <- Z.div_mod by lia. rewrite E at 1. ring.
Qed.

Lemma halve_sticky (n d : Z) : 0 < d -> 0 <= n -> halve (sticky (2 * n) d) = sticky n d.
Proof.
  intros Hd Hn. unfold halve. rewrite sticky_floor by lia.
  assert (K : (sticky (2 * n) d mod 4 =? 0) = ((2 * n) mod d =? 0)).
  { unfold sticky.
    pose proof (Z.mod_pos_bound (2 * n) d Hd) as B.
    destruct (double_divmod (2 * n) d Hd ltac:(lia)) as [(L & -> & ->) | (G & -> & ->)].
    - generalize dependent ((2 * n) mod d). generalize (2 * n / d). intros q r L B.
      destruct (Z.eqb_spec (2 * r) 0), (Z.eqb_spec r 0); try lia.
      + destruct (Z.eqb_spec ((2 * (2 * q) + 0) mod 4) 0) as [M | M]; [reflexivity | exfalso].
        revert M. clear. intros. divmod.
      + destruct (Z.eqb_spec ((2 * (2 * q) + 1) mod 4) 0) as [M | M]; [exfalso | reflexivity].
        revert M. clear. intros. divmod.
    - generalize dependent ((2 * n) mod d). generalize (2 * n / d). intros q r G B.
      destruct (Z.eqb_spec r 0); [lia|].
      match goal with |- (?x mod 4 =? 0) = false => destruct (Z.eqb_spec (x mod 4) 0) as [M | M] end;
        [exfalso | reflexivity].
      revert M. clear. intros M. destruct (_ =? 0) in M; divmod. }
  rewrite K. reflexivity.
Qed.

Lemma shifts_sticky (j n d : Z) :
  0 < d -> 0 <= n -> 0 <= j -> shifts j (sticky (n * 2 ^ j) d) = sticky n d.
Proof.
  intros Hd Hn Hj. revert j Hj n Hn. apply (natlike_ind (fun j => forall n, 0 <= n -> _)).
  - intros n Hn. rewrite shifts_0, Z.pow_0_r, Z.mul_1_r. reflexivity.
  - intros j Hj IH n Hn. unfold Z.succ.
    replace (j + 1) with (1 + j) by lia. rewrite shifts_add by lia.
    replace (n * 2 ^ (1 + j)) with (2 * n * 2 ^ j)
      by (rewrite Z.pow_add_r, Z.pow_1_r by lia; ring).
    rewrite IH by lia. change (shifts 1 ?c) with (halve c). apply halve_sticky; lia.
Qed.

Lemma sticky_exact (n : Z) : sticky n 1 = 4 * n.
Proof. unfold sticky. rewrite Z.div_1_r, Z.mod_1_r. cbn [Z.eqb]. lia. Qed.

(** The record the division hands to the rounding has the code of the
    quotient. *)
Lemma code_new_location (n d : Z) :
  0 < d -> 0 <= n ->
  code (shr_record_of_loc (n / d) (new_location d (n mod d))) = sticky n d.
Proof.
  intros Hd Hn. unfold sticky, new_location, new_location_even, new_location_odd.
  pose proof (Z.div_mod n d ltac:(lia)) as E. pose proof (Z.mod_pos_bound n d Hd) as B.
  set (q := n / d) in *. set (r := n mod d) in *.
  assert (Q : 0 <= q) by (subst q; apply Z.div_pos; lia).
  pose proof (double_divmod n d Hd Hn) as X. fold q r in X.
  destruct (Z.even d) eqn:Ev.
  - destruct (Z.eqb_spec r 0) as [R0 | R0].
    + destruct X as [(L & -> & ->) | (G & _)]; [|lia]. rewrite R0.
      unfold code; cbn [shr_record_of_loc shr_m shr_r shr_s b2z]. change (2 * 0 =? 0) with true. lia.
    + destruct (Z.compare_spec (2 * r) d) as [C | C | C];
        destruct X as [(L & -> & ->) | (G & -> & ->)]; try lia;
        unfold code; cbn [shr_record_of_loc shr_m shr_r shr_s b2z];
        match goal with |- context [?x =? 0] => destruct (Z.eqb_spec x 0) end; lia.
  - destruct (Z.eqb_spec r 0) as [R0 | R0].
    + destruct X as [(L & -> & ->) | (G & _)]; [|lia]. rewrite R0.
      unfold code; cbn [shr_record_of_loc shr_m shr_r shr_s b2z]. change (2 * 0 =? 0) with true. lia.
    + assert (Od : d mod 2 = 1).
      { rewrite <- Z.negb_odd in Ev. apply negb_false_iff in Ev.
        rewrite Zodd_mod in Ev. apply Z.eqb_eq in Ev. exact Ev. }
      assert (2 * r <> d) by (intros Eq; rewrite <- Eq in Od; revert Od; clear; intros; divmod).
      destruct (Z.compare_spec (2 * r + 1) d) as [C | C | C];
        destruct X as [(L & -> & ->) | (G & -> & ->)]; try lia;
        unfold code; cbn [shr_record_of_loc shr_m shr_r shr_s b2z];
        match goal with |- context [?x =? 0] => destruct (Z.eqb_spec x 0) end; lia.
Qed.

End Rounding.

Import Rounding.

(** ** Products and quotients keep the order *)

Module Monotone.
#[local] Open Scope Z_scope.

(** *** The order of the keys *)

Lemma keyle_refl (x : spec_float) : keyle x x.
Proof. unfold keyle. destruct (key x) as [[a b] c]. cbv [lexlt]. lia. Qed.

Lemma keyle_trans (x y z : spec_float) : keyle x y -> keyle y z -> keyle x z.
Proof.
  unfold keyle. destruct (key x) as [[a b] c], (key y) as [[a' b'] c'], (key z) as [[a'' b''] c''].
  cbv [lexlt]. lia.
Qed.

Lemma key_opp (x : spec_float) :
  key (SFopp x) = (let '(a, b, c) := key x in (- a, - b, - c)).
Proof. destruct x as [[]|[]| |[] m e]; cbn [SFopp key negb]; try reflexivity.
  rewrite Z.opp_involutive. reflexivity. Qed.

Lemma keyle_opp (x y : spec_float) : keyle x y -> keyle (SFopp y) (SFopp x).
Proof.
  unfold keyle. rewrite !key_opp. destruct (key x) as [[a b] c], (key y) as [[a' b'] c'].
  cbv [lexlt]. lia.
Qed.

Lemma key_least (x : spec_float) : keyle (S754_infinity true) x.
Proof. unfold keyle. destruct x as [[]|[]| |[] m e]; cbv [key lexlt]; lia. Qed.

Lemma key_greatest (x : spec_float) : keyle x (S754_infinity false).
Proof. unfold keyle. destruct x as [[]|[]| |[] m e]; cbv [key lexlt]; lia. Qed.

Lemma rounded_nonneg (c e : Z) (s : bool) : 0 <= c -> keyle (S754_zero s) (rounded c e).
Proof.
  intros Hc.
  destruct (rounded_shape c e Hc) as [(_ & ->) | [(B & ->) | (B & ->)]]; cbv zeta in *.
  - unfold keyle. cbv [key lexlt]. lia.
  - unfold keyle. rewrite key_finiteOrInf by lia. destruct (_ <=? _); cbv [key lexlt]; lia.
  - unfold keyle. rewrite key_finiteOrInf by lia. destruct (_ <=? _); cbv [key lexlt]; lia.
Qed.

(** *** The sign of a rounding *)

Lemma bra_flip (s : bool) (m e : Z) (l : location) :
  0 <= m ->
  binary_round_aux prec emax s m e l = flip s (rounded (code (shr_record_of_loc m l)) e).
Proof.
  intros Hm. rewrite <- bra_rounded by exact Hm.
  unfold binary_round_aux.
  destruct (shr_fexp prec emax m e l) as [mrs' e'].
  destruct (shr_fexp prec emax _ e' loc_Exact) as [mrs'' e''].
  destruct (shr_m mrs''); destruct s; cbn [flip SFopp negb]; try reflexivity;
    destruct (e'' <=? emax - prec); reflexivity.
Qed.

(** *** Canonical floats *)

Lemma canonical_spec (m : positive) (e : Z) :
  bounded prec emax m e = true ->
  -1074 <= e /\ Zdigits2 (Z.pos m) <= 53 /\ (Zdigits2 (Z.pos m) = 53 \/ e = -1074).
Proof.
  unfold bounded, canonical_mantissa. intros H. apply andb_true_iff in H as [H _].
  apply Z.eqb_eq in H. rewrite fexp_eq in H.
  change (Z.pos (digits2_pos m)) with (Zdigits2 (Z.pos m)) in H. lia.
Qed.

Lemma canonical_order (ma mb : positive) (ea eb : Z) :
  bounded prec emax ma ea = true -> bounded prec emax mb eb = true ->
  keyle (S754_finite false ma ea) (S754_finite false mb eb) ->
  ea <= eb /\ Z.pos ma <= Z.pos mb * 2 ^ (eb - ea) /\
  Zdigits2 (Z.pos ma) + ea <= Zdigits2 (Z.pos mb) + eb.
Proof.
  intros Ca Cb K. apply canonical_spec in Ca, Cb.
  unfold keyle in K. cbv [key lexlt] in K.
  assert (O : ea < eb \/ (ea = eb /\ Z.pos ma <= Z.pos mb)) by lia. clear K.
  destruct O as [L | (-> & L)].
  - assert (Db : Zdigits2 (Z.pos mb) = 53) by lia.
    pose proof (digits_bounds (Z.pos mb) ltac:(lia)) as [Lb _]. rewrite Db in Lb.
    assert (Ua : Z.pos ma < 2 ^ 53) by (apply digits_le; lia).
    assert (P : 2 ^ 1 <= 2 ^ (eb - ea)) by (apply Z.pow_le_mono_r; lia).
    change (2 ^ (53 - 1)) with (2 ^ 52) in Lb.
    assert (E53 : 2 ^ 53 = 2 * 2 ^ 52) by reflexivity.
    rewrite Z.pow_1_r in P.
    split; [lia|]. split; [|lia].
    generalize dependent (2 ^ (eb - ea)). generalize dependent (2 ^ 52).
    generalize dependent (2 ^ 53). intros. nia.
  - rewrite Z.sub_diag, Z.pow_0_r. split; [lia|]. split; [lia|].
    pose proof (digits_mono (Z.pos ma) (Z.pos mb) ltac:(lia)). lia.
Qed.

Lemma digits_ge (m d : Z) : 0 < m -> 2 ^ (d - 1) <= m -> d <= Zdigits2 m.
Proof.
  intros Hm H. destruct (Z_le_gt_dec d (Zdigits2 m)) as [|G]; [assumption | exfalso].
  pose proof (digits_bounds m Hm) as [_ U].
  assert (2 ^ Zdigits2 m <= 2 ^ (d - 1)) by (apply Z.pow_le_mono_r; lia). lia.
Qed.

Lemma digits_mul (a b : Z) : 0 < a -> 0 < b -> Zdigits2 a + Zdigits2 b - 1 <= Zdigits2 (a * b).
Proof.
  intros Ha Hb. apply digits_ge; [nia|].
  pose proof (digits_bounds a Ha) as [La _]. pose proof (digits_bounds b Hb) as [Lb _].
  pose proof (digits_pos a Ha). pose proof (digits_pos b Hb).
  replace (Zdigits2 a + Zdigits2 b - 1 - 1) with ((Zdigits2 a - 1) + (Zdigits2 b - 1)) by lia.
  rewrite Z.pow_add_r by lia.
  assert (0 < 2 ^ (Zdigits2 a - 1)) by (apply Z.pow_pos_nonneg; lia).
  assert (0 < 2 ^ (Zdigits2 b - 1)) by (apply Z.pow_pos_nonneg; lia).
  nia.
Qed.

Lemma digits_quotient (n d : Z) :
  0 < n -> 0 < d -> Zdigits2 n - Zdigits2 d <= Zdigits2 (n / d).
Proof.
  intros Hn Hd.
  assert (Q : 0 <= n / d) by (apply Z.div_pos; lia).
  destruct (Z_le_gt_dec (Zdigits2 n - Zdigits2 d) 0) as [L | G].
  - pose proof (digits_nonneg (n / d)). lia.
  - pose proof (digits_bounds n Hn) as [Ln _]. pose proof (digits_bounds d Hd) as [_ Ud].
    assert (B : 2 ^ (Zdigits2 n - Zdigits2 d - 1) <= n / d).
    { apply Z.div_le_lower_bound; [lia|].
      replace (Zdigits2 n - 1) with (Zdigits2 d + (Zdigits2 n - Zdigits2 d - 1)) in Ln by lia.
      pose proof (digits_pos d Hd).
      rewrite Z.pow_add_r in Ln by lia.
      assert (0 < 2 ^ (Zdigits2 n - Zdigits2 d - 1)) by (apply Z.pow_pos_nonneg; lia).
      nia. }
    assert (0 < 2 ^ (Zdigits2 n - Zdigits2 d - 1)) by (apply Z.pow_pos_nonneg; lia).
    apply digits_ge; lia.
Qed.

Lemma digits_scaled (m s : Z) : 0 < m -> 0 <= s -> Zdigits2 (m * 2 ^ s) = Zdigits2 m + s.
Proof.
  intros Hm Hs.
  assert (P : 0 < 2 ^ s) by (apply Z.pow_pos_nonneg; lia).
  pose proof (digits_bounds m Hm) as [L U]. pose proof (digits_pos m Hm).
  apply Z.le_antisymm.
  - apply digits_le; [nia | lia |]. rewrite Z.pow_add_r by lia. nia.
  - apply digits_ge; [nia|].
    replace (Zdigits2 m + s - 1) with ((Zdigits2 m - 1) + s) by lia.
    rewrite Z.pow_add_r by lia. nia.
Qed.

(** *** An operation that rounds a non-negative quantity *)

Section Operation.

Variable op : spec_float -> spec_float.
Variable opCode opExponent : positive -> Z -> Z.

Hypothesis op_zero : forall s, op (S754_zero s) = S754_zero s.
Hypothesis op_infinity : forall s, op (S754_infinity s) = S754_infinity s.
Hypothesis op_finite : forall s m e,
  op (S754_finite s m e) = flip s (rounded (opCode m e) (opExponent m e)).
Hypothesis opCode_nonneg : forall m e, 0 <= opCode m e.
Hypothesis op_positive : forall ma ea mb eb,
  bounded prec emax ma ea = true -> bounded prec emax mb eb = true ->
  keyle (S754_finite false ma ea) (S754_finite false mb eb) ->
  keyle (rounded (opCode ma ea) (opExponent ma ea)) (rounded (opCode mb eb) (opExponent mb eb)).

Lemma op_negative_le_zero (m : positive) (e : Z) (s : bool) :
  keyle (op (S754_finite true m e)) (S754_zero s).
Proof.
  rewrite op_finite. cbn [flip].
  pose proof (keyle_opp _ _ (rounded_nonneg (opCode m e) (opExponent m e) false (opCode_nonneg m e))) as K.
  unfold keyle in *. cbn [SFopp key negb] in *. exact K.
Qed.

Lemma op_positive_ge_zero (m : positive) (e : Z) (s : bool) :
  keyle (S754_zero s) (op (S754_finite false m e)).
Proof. rewrite op_finite. cbn [flip]. apply rounded_nonneg, opCode_nonneg. Qed.

Lemma op_mono (a b : spec_float) :
  SpecFloat.valid_binary prec emax a = true -> SpecFloat.valid_binary prec emax b = true ->
  number a -> number b -> keyle a b -> keyle (op a) (op b).
Proof.
  intros Va Vb Na Nb K.
  destruct a as [sa | sa | | sa ma ea]; [| | congruence |].
  - (* a is zero *)
    rewrite op_zero.
    destruct b as [sb | sb | | sb mb eb]; [| | congruence |].
    + rewrite op_zero. unfold keyle. cbv [key lexlt]. lia.
    + rewrite op_infinity. destruct sb; [|apply key_greatest].
      exfalso. apply K. cbv [key lexlt]. lia.
    + destruct sb; [|apply op_positive_ge_zero].
      exfalso. apply K. cbv [key lexlt]. lia.
  - (* a is infinite *)
    rewrite op_infinity. destruct sa; [apply key_least|].
    destruct b as [sb | sb | | sb mb eb]; [| | congruence |].
    + exfalso. apply K. cbv [key lexlt]. lia.
    + rewrite op_infinity. exact K.
    + exfalso. apply K. destruct sb; cbv [key lexlt]; lia.
  - (* a is finite *)
    destruct b as [sb | sb | | sb mb eb]; [| | congruence |].
    + rewrite op_zero. destruct sa; [apply op_negative_le_zero|].
      exfalso. apply K. cbv [key lexlt]. lia.
    + rewrite op_infinity. destruct sb; [|apply key_greatest].
      exfalso. apply K. destruct sa; cbv [key lexlt]; lia.
    + cbn [SpecFloat.valid_binary] in Va, Vb.
      destruct sa, sb.
      * rewrite !op_finite. cbn [flip]. apply keyle_opp, op_positive; try assumption.
        unfold keyle in *. cbv [key lexlt] in *. lia.
      * eapply keyle_trans; [apply (op_negative_le_zero _ _ false) | apply op_positive_ge_zero].
      * exfalso. apply K. cbv [key lexlt]. lia.
      * rewrite !op_finite. cbn [flip]. apply op_positive; assumption.
Qed.

End Operation.

(** *** Multiplication by a positive finite number *)

Lemma code_exact (m : Z) : code (shr_record_of_loc m loc_Exact) = 4 * m.
Proof. unfold code. cbn [shr_record_of_loc shr_m shr_r shr_s b2z]. lia. Qed.

Lemma SFmul_finite (s : bool) (m my : positive) (e ey : Z) :
  SFmul prec emax (S754_finite s m e) (S754_finite false my ey) =
  flip s (rounded (4 * Z.pos (m * my)) (e + ey)).
Proof.
  cbn [SFmul]. rewrite bra_flip by lia. rewrite code_exact.
  destruct s; reflexivity.
Qed.

Lemma SFmul_positive (ma mb my : positive) (ea eb ey : Z) :
  bounded prec emax my ey = true ->
  bounded prec emax ma ea = true -> bounded prec emax mb eb = true ->
  keyle (S754_finite false ma ea) (S754_finite false mb eb) ->
  keyle (rounded (4 * Z.pos (ma * my)) (ea + ey)) (rounded (4 * Z.pos (mb * my)) (eb + ey)).
Proof.
  intros Cy Ca Cb K.
  destruct (canonical_order _ _ _ _ Ca Cb K) as (E & M & _).
  apply canonical_spec in Cy, Cb.
  set (j := eb - ea) in *.
  assert (P : 0 < 2 ^ j) by (apply Z.pow_pos_nonneg; lia).
  assert (S : shifts j (sticky (Z.pos (mb * my) * 2 ^ j) 1) = 4 * Z.pos (mb * my)).
  { rewrite shifts_sticky by lia. apply sticky_exact. }
  rewrite <- S. replace (eb + ey) with (ea + ey + j) by lia.
  apply rounded_mono.
  - rewrite sticky_exact. rewrite !Pos2Z.inj_mul. nia.
  - lia.
  - rewrite S. replace (4 * Z.pos (mb * my) / 4) with (Z.pos (mb * my))
      by (rewrite Z.mul_comm, Z.div_mul; lia).
    rewrite fexp_eq. rewrite Pos2Z.inj_mul.
    pose proof (digits_mul (Z.pos mb) (Z.pos my) ltac:(lia) ltac:(lia)).
    pose proof (digits_pos (Z.pos mb) ltac:(lia)). pose proof (digits_pos (Z.pos my) ltac:(lia)).
    lia.
Qed.

Lemma SFmul_mono_finite (a b : spec_float) (my : positive) (ey : Z) :
  bounded prec emax my ey = true ->
  SpecFloat.valid_binary prec emax a = true -> SpecFloat.valid_binary prec emax b = true ->
  number a -> number b -> keyle a b ->
  keyle (SFmul prec emax a (S754_finite false my ey)) (SFmul prec emax b (S754_finite false my ey)).
Proof.
  intros Cy.
  apply (op_mono (fun x => SFmul prec emax x (S754_finite false my ey))
           (fun m e => 4 * Z.pos (m * my)) (fun m e => e + ey)).
  - intros []; reflexivity.
  - intros []; reflexivity.
  - intros s m e. apply SFmul_finite.
  - intros m e. lia.
  - intros ma ea mb eb. apply SFmul_positive. exact Cy.
Qed.

(** *** Division by a positive finite number *)

Lemma quotient_scale (mt m : positive) (et e : Z) : 0 <= e - et - quotientExponent mt et m e.
Proof. unfold quotientExponent. lia. Qed.

Lemma SFdiv_core (mt m : positive) (et e : Z) :
  let n := Z.pos m * 2 ^ (e - et - quotientExponent mt et m e) in
  SFdiv_core_binary prec emax (Z.pos m) e (Z.pos mt) et =
  (n / Z.pos mt, quotientExponent mt et m e, new_location (Z.pos mt) (n mod Z.pos mt)).
Proof.
  intros n. subst n. unfold SFdiv_core_binary. fold (quotientExponent mt et m e).
  pose proof (quotient_scale mt m et e) as S.
  generalize dependent (e - et - quotientExponent mt et m e). intros s S.
  assert (E : match s with Z.pos _ => Z.shiftl (Z.pos m) s | 0 => Z.pos m | Z.neg _ => 0 end =
              Z.pos m * 2 ^ s).
  { destruct s as [|p|p]; try lia. rewrite Z.shiftl_mul_pow2 by lia. reflexivity. }
  rewrite E. unfold Z.div, Z.modulo. destruct (Z.div_eucl _ (Z.pos mt)). reflexivity.
Qed.

Lemma SFdiv_finite (s : bool) (m mt : positive) (e et : Z) :
  SFdiv prec emax (S754_finite s m e) (S754_finite false mt et) =
  flip s (rounded (quotientCode mt et m e) (quotientExponent mt et m e)).
Proof.
  cbn [SFdiv]. rewrite SFdiv_core. cbv zeta.
  pose proof (quotient_scale mt m et e) as S.
  assert (P : 0 < 2 ^ (e - et - quotientExponent mt et m e)) by (apply Z.pow_pos_nonneg; lia).
  rewrite bra_flip by (apply Z.div_pos; nia).
  rewrite code_new_location by nia.
  destruct s; reflexivity.
Qed.

Lemma quotientCode_nonneg (mt m : positive) (et e : Z) : 0 <= quotientCode mt et m e.
Proof.
  unfold quotientCode.
  pose proof (quotient_scale mt m et e) as S.
  assert (P : 0 < 2 ^ (e - et - quotientExponent mt et m e)) by (apply Z.pow_pos_nonneg; lia).
  apply (sticky_mono 0 _ (Z.pos mt)); nia.
Qed.

Lemma SFdiv_positive (mt ma mb : positive) (et ea eb : Z) :
  bounded prec emax ma ea = true -> bounded prec emax mb eb = true ->
  keyle (S754_finite false ma ea) (S754_finite false mb eb) ->
  keyle (rounded (quotientCode mt et ma ea) (quotientExponent mt et ma ea))
        (rounded (quotientCode mt et mb eb) (quotientExponent mt et mb eb)).
Proof.
  intros Ca Cb K.
  destruct (canonical_order _ _ _ _ Ca Cb K) as (E & M & D).
  pose proof (quotient_scale mt ma et ea) as Sa. pose proof (quotient_scale mt mb et eb) as Sb.
  assert (J : quotientExponent mt et ma ea <= quotientExponent mt et mb eb).
  { unfold quotientExponent. rewrite !fexp_eq. lia. }
  unfold quotientCode.
  set (qa := quotientExponent mt et ma ea) in *. set (qb := quotientExponent mt et mb eb) in *.
  set (j := qb - qa).
  assert (P : 0 < 2 ^ j) by (apply Z.pow_pos_nonneg; lia).
  assert (Pa : 0 < 2 ^ (ea - et - qa)) by (apply Z.pow_pos_nonneg; lia).
  assert (Pb : 0 < 2 ^ (eb - et - qb)) by (apply Z.pow_pos_nonneg; lia).
  assert (S : shifts j (sticky (Z.pos mb * 2 ^ (eb - et - qb) * 2 ^ j) (Z.pos mt)) =
              sticky (Z.pos mb * 2 ^ (eb - et - qb)) (Z.pos mt)).
  { apply shifts_sticky; subst j; nia. }
  rewrite <- S. replace qb with (qa + j) at 2 by (subst j; lia).
  apply rounded_mono.
  - apply sticky_mono; [lia|]. split; [nia|].
    rewrite <- Z.mul_assoc, <- Z.pow_add_r by (subst j; lia).
    replace (eb - et - qb + j) with ((eb - ea) + (ea - et - qa)) by (subst j; lia).
    rewrite Z.pow_add_r by lia. rewrite Z.mul_assoc.
    apply Z.mul_le_mono_nonneg_r; lia.
  - subst j. lia.
  - rewrite S. rewrite sticky_floor by nia.
    replace (qa + j) with qb by (subst j; lia).
    pose proof (digits_quotient (Z.pos mb * 2 ^ (eb - et - qb)) (Z.pos mt) ltac:(nia) ltac:(lia)) as Q.
    rewrite digits_scaled in Q by lia.
    rewrite fexp_eq. subst qb. unfold quotientExponent in *. rewrite fexp_eq in *. lia.
Qed.

Lemma SFdiv_mono_finite (a b : spec_float) (mt : positive) (et : Z) :
  SpecFloat.valid_binary prec emax a = true -> SpecFloat.valid_binary prec emax b = true ->
  number a -> number b -> keyle a b ->
  keyle (SFdiv prec emax a (S754_finite false mt et)) (SFdiv prec emax b (S754_finite false mt et)).
Proof.
  apply (op_mono (fun x => SFdiv prec emax x (S754_finite false mt et))
           (quotientCode mt et) (quotientExponent mt et)).
  - intros []; reflexivity.
  - intros []; reflexivity.
  - intros s m e. apply SFdiv_finite.
  - intros m e. apply quotientCode_nonneg.
  - intros ma ea mb eb. apply SFdiv_positive.
Qed.

End Monotone.

Import Monotone.

(** ** The order on doubles *)

Module Product.
#[local] Open Scope Z_scope.

Lemma SFmul_comm (x y : spec_float) : SFmul prec emax x y = SFmul prec emax y x.
Proof.
  destruct x as [sx | sx | | sx mx ex], y as [sy | sy | | sy my ey]; cbn [SFmul];
    rewrite ?(xorb_comm sx sy); try reflexivity.
  rewrite (Pos.mul_comm mx my), (Z.add_comm ex ey). reflexivity.
Qed.

Lemma nonneg_sign (y : spec_float) :
  keyle (S754_zero false) y -> number y ->
  (exists s, y = S754_zero s) \/ y = S754_infinity false \/ exists m e, y = S754_finite false m e.
Proof.
  intros K N. destruct y as [s | [] | | [] m e]; try congruence.
  - left. eexists. reflexivity.
  - exfalso. apply K. cbv [key lexlt]. lia.
  - right. left. reflexivity.
  - exfalso. apply K. cbv [key lexlt]. lia.
  - right. right. do 2 eexists. reflexivity.
Qed.

(** Multiplying by a number that is not negative keeps the order. *)
Lemma SFmul_mono (a b y : spec_float) :
  SpecFloat.valid_binary prec emax a = true -> SpecFloat.valid_binary prec emax b = true ->
  SpecFloat.valid_binary prec emax y = true ->
  number a -> number b -> number y ->
  keyle a b -> keyle (S754_zero false) y ->
  number (SFmul prec emax a y) -> number (SFmul prec emax b y) ->
  keyle (SFmul prec emax a y) (SFmul prec emax b y).
Proof.
  intros Va Vb Vy Na Nb Ny K Ky Ra Rb.
  destruct (nonneg_sign y Ky Ny) as [(s & ->) | [-> | (m & e & ->)]].
  - destruct a as [sa | sa | | sa ma ea], b as [sb | sb | | sb mb eb]; cbn [SFmul];
      unfold keyle; cbv [key lexlt]; lia.
  - unfold number in *.
    destruct a as [sa | [] | | [] ma ea], b as [sb | [] | | [] mb eb]; cbn [SFmul xorb] in *;
      try congruence; unfold keyle in *; cbv [key lexlt] in *; lia.
  - apply SFmul_mono_finite; assumption.
Qed.

(** *** The operations on doubles *)

Lemma FLe_keyle (x y : float) :
  FLe x y <-> number (Prim2SF x) /\ number (Prim2SF y) /\ keyle (Prim2SF x) (Prim2SF y).
Proof. reflexivity. Qed.

Lemma mul_comm (x y : float) : (x * y = y * x)%float.
Proof.
  apply Prim2SF_inj. rewrite !FloatAxioms.mul_spec. apply SFmul_comm.
Qed.

Lemma mul_le (a b y : float) :
  FLe a b -> FLe 0 y ->
  number (Prim2SF (a * y)) -> number (Prim2SF (b * y)) ->
  FLe (a * y) (b * y).
Proof.
  intros (Na & Nb & K) (_ & Ny & Ky) Ra Rb.
  split; [exact Ra|]. split; [exact Rb|].
  rewrite !FloatAxioms.mul_spec in *.
  replace (Prim2SF 0) with (S754_zero false) in Ky by (vm_compute; reflexivity).
  apply SFmul_mono; try assumption; apply FloatAxioms.Prim2SF_valid.
Qed.

Lemma SFdiv_number (a : spec_float) (mt : positive) (et : Z) :
  number a -> number (SFdiv prec emax a (S754_finite false mt et)).
Proof.
  destruct a as [s | s | | s m e]; unfold number; try congruence; intros _.
  - cbn [SFdiv]. congruence.
  - cbn [SFdiv]. congruence.
  - apply SFdiv_finite_number.
Qed.

Lemma SFdiv_nan (a : spec_float) (t : spec_float) :
  number (SFdiv prec emax a t) -> number a.
Proof. destruct a; unfold number; cbn [SFdiv]; congruence. Qed.

Lemma div_le (a b t : float) (mt : positive) (et : Z) :
  Prim2SF t = S754_finite false mt et ->
  FLe a b -> FLe (a / t) (b / t).
Proof.
  intros T (Na & Nb & K).
  unfold FLe. rewrite !FloatAxioms.div_spec, T.
  split; [apply SFdiv_number, Na|]. split; [apply SFdiv_number, Nb|].
  apply SFdiv_mono_finite; try assumption; apply FloatAxioms.Prim2SF_valid.
Qed.

Lemma div_number (a t : float) : number (Prim2SF (a / t)) -> number (Prim2SF a).
Proof. rewrite FloatAxioms.div_spec. apply SFdiv_nan. Qed.

(** *** The ceiling formula *)

Lemma FLt_FLe (x y : float) : FLt x y -> FLe x y.
Proof.
  intros (Nx & Ny & L). split; [exact Nx|]. split; [exact Ny|].
  destruct (key (Prim2SF x)) as [[a b] c], (key (Prim2SF y)) as [[a' b'] c'].
  cbv [lexlt] in *. lia.
Qed.

Lemma FLe_zero_div (dy h : float) (mh : positive) (eh : Z) :
  Prim2SF h = S754_finite false mh eh -> FLt 0 dy -> FLe 0 (dy / h).
Proof.
  intros H L.
  assert (Z : (0 / h = 0)%float).
  { apply Prim2SF_inj. rewrite FloatAxioms.div_spec, H.
    replace (Prim2SF 0) with (S754_zero false) by (vm_compute; reflexivity). reflexivity. }
  rewrite <- Z at 1. apply (div_le _ _ _ _ _ H), FLt_FLe, L.
Qed.

(** For a fixed yield above zero the formula does not decrease with the
    price. *)
Lemma ceiling_mono_price (t p1 p2 dy : float) (mt : positive) (et : Z) :
  Prim2SF t = S754_finite false mt et ->
  le p1 p2 = true -> gt dy 0 = true ->
  isNaN (p1 * (dy / 100) / t) = false -> isNaN (p2 * (dy / 100) / t) = false ->
  le (p1 * (dy / 100) / t) (p2 * (dy / 100) / t) = true.
Proof.
  unfold le, gt, isNaN. rewrite !is_nan_false, !leb_true, ltb_true.
  intros T L D R1 R2.
  apply (div_le _ _ _ _ _ T). apply mul_le.
  - exact L.
  - apply (FLe_zero_div dy 100 7036874417766400 (-46)); [vm_compute; reflexivity | exact D].
  - exact (div_number _ _ R1).
  - exact (div_number _ _ R2).
Qed.

(** For a fixed price above zero the formula does not decrease with the
    yield. *)
Lemma ceiling_mono_yield (t p d1 d2 : float) (mt : positive) (et : Z) :
  Prim2SF t = S754_finite false mt et ->
  le d1 d2 = true -> gt p 0 = true ->
  isNaN (p * (d1 / 100) / t) = false -> isNaN (p * (d2 / 100) / t) = false ->
  le (p * (d1 / 100) / t) (p * (d2 / 100) / t) = true.
Proof.
  unfold le, gt, isNaN. rewrite !is_nan_false, !leb_true, ltb_true.
  intros T L P R1 R2.
  apply (div_le _ _ _ _ _ T).
  rewrite (mul_comm p (d1 / 100)), (mul_comm p (d2 / 100)).
  apply mul_le.
  - apply (div_le _ _ 100 7036874417766400 (-46)); [vm_compute; reflexivity | exact L].
  - apply FLt_FLe, P.
  - rewrite mul_comm. exact (div_number _ _ R1).
  - rewrite mul_comm. exact (div_number _ _ R2).
Qed.

End Product.

Import Product.

(* ------------------------------------------------------------------ *)
(** ** Chains of comparisons *)

Module Thresholds.

Lemma FLe_trans (x y z : float) : FLe x y -> FLe y z -> FLe x z.
Proof.
  unfold FLe. intros (Nx & _ & A) (Ny & Nz & B). split; [exact Nx|]. split; [exact Nz|].
  destruct (key (Prim2SF x)) as [[a b] c], (key (Prim2SF y)) as [[a' b'] c'],
           (key (Prim2SF z)) as [[a'' b''] c'']. cbv [lexlt] in *. lia.
Qed.

Lemma FLe_FLt_trans (x y z : float) : FLe x y -> FLt y z -> FLt x z.
Proof.
  unfold FLe, FLt. intros (Nx & _ & A) (Ny & Nz & B). split; [exact Nx|]. split; [exact Nz|].
  destruct (key (Prim2SF x)) as [[a b] c], (key (Prim2SF y)) as [[a' b'] c'],
           (key (Prim2SF z)) as [[a'' b''] c'']. cbv [lexlt] in *. lia.
Qed.

Lemma FLt_FLe_trans (x y z : float) : FLt x y -> FLe y z -> FLt x z.
Proof.
  unfold FLe, FLt. intros (Nx & _ & A) (Ny & Nz & B). split; [exact Nx|]. split; [exact Nz|].
  destruct (key (Prim2SF x)) as [[a b] c], (key (Prim2SF y)) as [[a' b'] c'],
           (key (Prim2SF z)) as [[a'' b''] c'']. cbv [lexlt] in *. lia.
Qed.

(** A threshold passed from below stays passed, one passed from above
    stays passed on the way down. *)
Lemma ge_up (a b c : float) : le a b = true -> ge a c = true -> ge b c = true.
Proof. unfold le, ge. rewrite !leb_true. intros L H. exact (FLe_trans _ _ _ H L). Qed.

Lemma gt_up (a b c : float) : le a b = true -> gt a c = true -> gt b c = true.
Proof. unfold le, gt. rewrite leb_true, !ltb_true. intros L H. exact (FLt_FLe_trans _ _ _ H L). Qed.

Lemma le_down (a b c : float) : le a b = true -> le b c = true -> le a c = true.
Proof. unfold le. rewrite !leb_true. apply FLe_trans. Qed.

Lemma lt_down (a b c : float) : le a b = true -> lt b c = true -> lt a c = true.
Proof. unfold le, lt. rewrite leb_true, !ltb_true. apply FLe_FLt_trans. Qed.

Ltac crossed L :=
  match goal with
  | H : ge ?a ?c = true, H' : ge ?b ?c = false |- _ =>
    rewrite (ge_up a b c L H) in H'; discriminate
  | H : gt ?a ?c = true, H' : gt ?b ?c = false |- _ =>
    rewrite (gt_up a b c L H) in H'; discriminate
  | H : le ?b ?c = true, H' : le ?a ?c = false |- _ =>
    rewrite (le_down a b c L H) in H'; discriminate
  | H : lt ?b ?c = true, H' : lt ?a ?c = false |- _ =>
    rewrite (lt_down a b c L H) in H'; discriminate
  end.

End Thresholds.

Import Thresholds.

(* ------------------------------------------------------------------ *)
(** ** Sums and products of numbers that are not negative *)

Module Sums.
#[local] Open Scope Z_scope.

Lemma binary_round_nonneg (p : positive) (e : Z) :
  number (binary_round prec emax false p e) /\
  keyle (S754_zero false) (binary_round prec emax false p e).
Proof.
  unfold binary_round. destruct (shl_align p e _) as [mz ez]. split.
  - apply binary_round_aux_number. lia.
  - rewrite bra_flip by lia. cbn [flip]. apply rounded_nonneg.
    apply code_nonneg. rewrite code_of_loc. lia.
Qed.

(** A sum of two numbers that are not negative is a number that is not
    negative. *)
Lemma SFadd_nonneg (x y : spec_float) :
  number x -> number y -> keyle (S754_zero false) x -> keyle (S754_zero false) y ->
  number (SFadd prec emax x y) /\ keyle (S754_zero false) (SFadd prec emax x y).
Proof.
  intros Nx Ny Kx Ky.
  destruct (nonneg_sign x Kx Nx) as [(sx & ->) | [-> | (mx & ex & ->)]],
           (nonneg_sign y Ky Ny) as [(sy & ->) | [-> | (my & ey & ->)]];
    cbn [SFadd]; try (split; [assumption || discriminate | assumption]).
  - destruct sx, sy; split; try discriminate; unfold keyle; cbv [key lexlt]; lia.
  - cbn [cond_Zopp Z.add]. cbn [binary_normalize]. apply binary_round_nonneg.
Qed.

Lemma SFmul_nonneg (x y : spec_float) :
  number x -> number y -> keyle (S754_zero false) x -> keyle (S754_zero false) y ->
  number (SFmul prec emax x y) -> keyle (S754_zero false) (SFmul prec emax x y).
Proof.
  intros Nx Ny Kx Ky.
  destruct (nonneg_sign x Kx Nx) as [(sx & ->) | [-> | (mx & ex & ->)]],
           (nonneg_sign y Ky Ny) as [(sy & ->) | [-> | (my & ey & ->)]];
    cbn [SFmul xorb]; intros N; try (unfold keyle; cbv [key lexlt]; lia);
    try (exfalso; apply N; reflexivity).
  rewrite bra_flip by lia. cbn [flip]. apply rounded_nonneg.
  apply code_nonneg. rewrite code_of_loc. lia.
Qed.

Lemma SFmul_number_l (x y : spec_float) : number (SFmul prec emax x y) -> number x.
Proof. destruct x; unfold number; cbn [SFmul]; congruence. Qed.

Lemma SFmul_finite_number (x : spec_float) (s : bool) (m : positive) (e : Z) :
  number x -> number (SFmul prec emax (S754_finite s m e) x).
Proof.
  destruct x as [sx | sx | | sx mx ex]; unfold number; intros N; cbn [SFmul]; try congruence.
  apply binary_round_aux_number. lia.
Qed.

Lemma add_nonneg (x y : float) : FLe 0 x -> FLe 0 y -> FLe 0 (x + y).
Proof.
  intros (N0 & Nx & Kx) (_ & Ny & Ky). unfold FLe.
  rewrite FloatAxioms.add_spec.
  replace (Prim2SF 0) with (S754_zero false) in * by (vm_compute; reflexivity).
  destruct (SFadd_nonneg _ _ Nx Ny Kx Ky) as [N K].
  split; [discriminate|]. split; [exact N | exact K].
Qed.

Lemma mul_number_l (x y : float) : number (Prim2SF (x * y)) -> number (Prim2SF x).
Proof. rewrite FloatAxioms.mul_spec. apply SFmul_number_l. Qed.

Lemma twice_nonneg (g : float) : FLe 0 g -> FLe 0 (2 * g).
Proof.
  intros (N0 & Ng & Kg). unfold FLe. rewrite FloatAxioms.mul_spec.
  replace (Prim2SF 0) with (S754_zero false) in * by (vm_compute; reflexivity).
  replace (Prim2SF 2) with (S754_finite false 4503599627370496 (-51))
    by (vm_compute; reflexivity).
  assert (N : number (SFmul prec emax (S754_finite false 4503599627370496 (-51)) (Prim2SF g)))
    by (apply SFmul_finite_number, Ng).
  split; [discriminate|]. split; [exact N|].
  apply SFmul_nonneg; try assumption; try discriminate.
  unfold keyle. cbv [key lexlt]. lia.
Qed.

End Sums.

Import Sums.

(* ------------------------------------------------------------------ *)
(** ** Lower bounds: sums, products and the least positive number *)

Module Positive.
#[local] Open Scope Z_scope.

Lemma iter_xO_nat (n : nat) (p : positive) :
  Z.pos (Nat.iter n xO p) = Z.pos p * 2 ^ Z.of_nat n.
Proof.
  induction n as [|n IH]; [cbn; lia|].
  rewrite Nat2Z.inj_succ, Z.pow_succ_r by lia.
  change (Nat.iter (S n) xO p) with (xO (Nat.iter n xO p)).
  rewrite Pos2Z.inj_xO, IH. lia.
Qed.

Lemma iter_xO (p d : positive) : Z.pos (Pos.iter xO p d) = Z.pos p * 2 ^ Z.pos d.
Proof. rewrite Pos2Nat.inj_iter, <- (positive_nat_Z d). apply iter_xO_nat. Qed.

Lemma quarter (x : Z) : 4 * x / 4 = x.
Proof. rewrite Z.mul_comm. apply Z.div_mul. lia. Qed.

(** A canonical number, held at a lower exponent, rounds to itself. *)
Lemma rounded_canonical (m : positive) (e k : Z) :
  bounded prec emax m e = true -> 0 <= k ->
  rounded (4 * (Z.pos m * 2 ^ k)) (e - k) = S754_finite false m e.
Proof.
  intros Hb Hk.
  assert (P : 0 < 2 ^ k) by (apply Z.pow_pos_nonneg; lia).
  pose proof Hb as Hb'. unfold bounded in Hb'. apply andb_true_iff in Hb' as [C E].
  unfold canonical_mantissa in C. apply Z.eqb_eq in C.
  change (Z.pos (digits2_pos m)) with (Zdigits2 (Z.pos m)) in C.
  apply Z.leb_le in E.
  unfold rounded.
  rewrite quarter.
  rewrite digits_scaled by lia.
  replace (Zdigits2 (Z.pos m) + k + (e - k)) with (Zdigits2 (Z.pos m) + e) by lia.
  rewrite C. replace (Z.max e (e - k)) with e by lia.
  replace (e - (e - k)) with k by lia.
  assert (S : shifts k (4 * (Z.pos m * 2 ^ k)) = 4 * Z.pos m).
  { rewrite <- (sticky_exact (Z.pos m * 2 ^ k)), shifts_sticky by lia. apply sticky_exact. }
  rewrite S.
  assert (N : nearest (4 * Z.pos m) = Z.pos m).
  { unfold nearest. rewrite quarter.
    replace ((4 * Z.pos m) mod 4) with 0 by (rewrite Z.mul_comm, Z.mod_mul; lia).
    cbn. lia. }
  rewrite N, C. replace (Z.max e e) with e by lia.
  rewrite Z.sub_diag, Z.pow_0_r, Z.div_1_r.
  apply Z.leb_le in E. rewrite E. reflexivity.
Qed.

(** The rounding of an integer that is at least a canonical number is at
    least that number. *)
Lemma binary_round_ge (mc : positive) (ec : Z) (p : positive) (ez : Z) :
  bounded prec emax mc ec = true -> ez <= ec ->
  Z.pos mc * 2 ^ (ec - ez) <= Z.pos p ->
  keyle (S754_finite false mc ec) (binary_round prec emax false p ez).
Proof.
  intros Hb He Hle.
  unfold binary_round, shl_align.
  change (Z.pos (digits2_pos p)) with (Zdigits2 (Z.pos p)).
  set (f := fexp prec emax (Zdigits2 (Z.pos p) + ez)).
  assert (Pc : 0 < 2 ^ (ec - ez)) by (apply Z.pow_pos_nonneg; lia).
  destruct (f - ez) as [|d|d] eqn:D.
  - rewrite bra_rounded, code_exact by lia.
    rewrite <- (rounded_canonical mc ec (ec - ez) Hb) by lia.
    replace (ec - (ec - ez)) with ez by lia.
    assert (G : keyle (rounded (4 * (Z.pos mc * 2 ^ (ec - ez))) ez)
                      (rounded (shifts 0 (4 * Z.pos p)) (ez + 0))).
    { apply rounded_mono; [lia | lia |]. rewrite shifts_0, quarter, Z.add_0_r. fold f. lia. }
    rewrite shifts_0, Z.add_0_r in G. exact G.
  - rewrite bra_rounded, code_exact by lia.
    rewrite <- (rounded_canonical mc ec (ec - ez) Hb) by lia.
    replace (ec - (ec - ez)) with ez by lia.
    assert (G : keyle (rounded (4 * (Z.pos mc * 2 ^ (ec - ez))) ez)
                      (rounded (shifts 0 (4 * Z.pos p)) (ez + 0))).
    { apply rounded_mono; [lia | lia |]. rewrite shifts_0, quarter, Z.add_0_r. fold f. lia. }
    rewrite shifts_0, Z.add_0_r in G. exact G.
  - assert (Fz : f = ez - Z.pos d) by lia.
    pose proof (iter_xO p d) as I.
    assert (Pd : 0 < 2 ^ Z.pos d) by (apply Z.pow_pos_nonneg; lia).
    rewrite bra_rounded, code_exact by lia. rewrite I.
    rewrite <- (rounded_canonical mc ec (ec - f) Hb) by lia.
    replace (ec - (ec - f)) with f by lia.
    assert (G : keyle (rounded (4 * (Z.pos mc * 2 ^ (ec - f))) f)
                      (rounded (shifts 0 (4 * (Z.pos p * 2 ^ Z.pos d))) (f + 0))).
    { apply rounded_mono; [|lia|].
      - split; [nia|]. apply Z.mul_le_mono_nonneg_l; [lia|].
        replace (ec - f) with ((ec - ez) + Z.pos d) by lia.
        rewrite Z.pow_add_r by lia. nia.
      - rewrite shifts_0, quarter, Z.add_0_r.
        rewrite digits_scaled by lia.
        replace (Zdigits2 (Z.pos p) + Z.pos d + f) with (Zdigits2 (Z.pos p) + ez) by lia.
        fold f. lia. }
    rewrite shifts_0, Z.add_0_r in G. exact G.
Qed.

Lemma shl_align_value (m : positive) (e e' : Z) :
  e' <= e -> Z.pos (fst (shl_align m e e')) = Z.pos m * 2 ^ (e - e').
Proof.
  intros H. unfold shl_align. destruct (e' - e) as [|d|d] eqn:D; cbn [fst].
  - replace (e - e') with 0 by lia. lia.
  - lia.
  - replace (e - e') with (Z.pos d) by lia.
    apply iter_xO.
Qed.

(** Adding a number that is not negative to a positive finite number does
    not give less. *)
Lemma SFadd_ge (mc : positive) (ec : Z) (t : spec_float) :
  bounded prec emax mc ec = true ->
  number t -> keyle (S754_zero false) t ->
  number (SFadd prec emax (S754_finite false mc ec) t) /\
  keyle (S754_finite false mc ec) (SFadd prec emax (S754_finite false mc ec) t).
Proof.
  intros Hb Nt Kt.
  destruct (nonneg_sign t Kt Nt) as [(s & ->) | [-> | (m & e & ->)]]; cbn [SFadd].
  - split; [discriminate | apply keyle_refl].
  - split; [discriminate | apply key_greatest].
  - cbn [cond_Zopp]. rewrite !shl_align_value by lia.
    set (ez := Z.min ec e).
    assert (P1 : 0 < 2 ^ (ec - ez)) by (apply Z.pow_pos_nonneg; lia).
    assert (P2 : 0 < 2 ^ (e - ez)) by (apply Z.pow_pos_nonneg; lia).
    destruct (Z.pos mc * 2 ^ (ec - ez) + Z.pos m * 2 ^ (e - ez)) as [|p|p] eqn:E; try nia.
    cbn [binary_normalize]. split.
    + apply binary_round_nonneg.
    + apply binary_round_ge; [exact Hb | lia | nia].
Qed.

Lemma add_ge (c t : float) (mc : positive) (ec : Z) :
  Prim2SF c = S754_finite false mc ec -> FLe 0 t -> FLe c (c + t).
Proof.
  intros Hc (_ & Nt & Kt).
  replace (Prim2SF 0) with (S754_zero false) in Kt by (vm_compute; reflexivity).
  pose proof (FloatAxioms.Prim2SF_valid c) as V. rewrite Hc in V.
  cbn [SpecFloat.valid_binary] in V.
  destruct (SFadd_ge mc ec (Prim2SF t) V Nt Kt) as [N K].
  unfold FLe. rewrite FloatAxioms.add_spec, Hc.
  split; [discriminate|]. split; [exact N | exact K].
Qed.

(** A number above zero is at least the least positive number. *)
Lemma least_positive (x : float) : FLt 0 x -> FLe 5e-324 x.
Proof.
  intros (_ & Nx & L). unfold FLe.
  replace (Prim2SF 0) with (S754_zero false) in L by (vm_compute; reflexivity).
  replace (Prim2SF 5e-324) with (S754_finite false 1 (-1074)) by (vm_compute; reflexivity).
  split; [discriminate|]. split; [exact Nx|].
  pose proof (FloatAxioms.Prim2SF_valid x) as V.
  destruct (Prim2SF x) as [s | [] | | [] m e]; cbv [key lexlt] in *; try lia.
  cbn [SpecFloat.valid_binary] in V. apply canonical_spec in V. lia.
Qed.

(** The product of two numbers above zero is a number. *)
Lemma mul_number (x y : float) : FLt 0 x -> FLt 0 y -> number (Prim2SF (x * y)).
Proof.
  intros (_ & Nx & Lx) (_ & Ny & Ly). rewrite FloatAxioms.mul_spec.
  replace (Prim2SF 0) with (S754_zero false) in * by (vm_compute; reflexivity).
  destruct (Prim2SF x) as [sx | [] | | [] mx ex], (Prim2SF y) as [sy | [] | | [] my ey];
    cbv [key lexlt] in Lx, Ly; try lia; cbn [SFmul xorb]; try discriminate.
  apply binary_round_aux_number. lia.
Qed.

(** The revised Graham formula on earnings and a growth rate above zero
    gives a number above zero. *)
Lemma revised_positive (lpa g : float) :
  FLt 0 lpa -> FLt 0 g ->
  FLt 0 ((lpa * (Scraper.PL_BASE_GRAHAM + 2 * g) * Scraper.SELIC_MEDIA_HISTORICA)
         / Scraper.TAXA_SELIC_ATUAL)%float.
Proof.
  intros Hl Hg.
  assert (M : FLe 8.5 (Scraper.PL_BASE_GRAHAM + 2 * g)).
  { apply (add_ge Scraper.PL_BASE_GRAHAM _ 4785074604081152 (-49)); [vm_compute; reflexivity|].
    apply twice_nonneg, FLt_FLe, Hg. }
  assert (M0 : FLt 0 (Scraper.PL_BASE_GRAHAM + 2 * g)).
  { refine (FLt_FLe_trans _ 8.5 _ _ M). apply ltb_true. vm_compute. reflexivity. }
  assert (A : FLe 4e-323 (lpa * (Scraper.PL_BASE_GRAHAM + 2 * g))).
  { apply (FLe_trans _ (5e-324 * (Scraper.PL_BASE_GRAHAM + 2 * g))).
    - rewrite (mul_comm 5e-324).
      replace 4e-323%float with (8.5 * 5e-324)%float
        by (apply Prim2SF_inj; vm_compute; reflexivity).
      apply mul_le; [exact M | apply leb_true; vm_compute; reflexivity | |].
      + apply is_nan_false. vm_compute. reflexivity.
      + apply mul_number; [exact M0 | apply ltb_true; vm_compute; reflexivity].
    - apply mul_le; [apply least_positive, Hl | apply FLt_FLe, M0 | |].
      + apply mul_number; [apply ltb_true; vm_compute; reflexivity | exact M0].
      + apply mul_number; assumption. }
  assert (A0 : FLt 0 (lpa * (Scraper.PL_BASE_GRAHAM + 2 * g))).
  { refine (FLt_FLe_trans _ 4e-323 _ _ A). apply ltb_true. vm_compute. reflexivity. }
  assert (S0 : FLt 0 Scraper.SELIC_MEDIA_HISTORICA) by (apply ltb_true; vm_compute; reflexivity).
  assert (B : FLe (4e-323 * Scraper.SELIC_MEDIA_HISTORICA)
                  (lpa * (Scraper.PL_BASE_GRAHAM + 2 * g) * Scraper.SELIC_MEDIA_HISTORICA)).
  { apply mul_le; [exact A | apply FLt_FLe, S0 | |].
    - apply is_nan_false. vm_compute. reflexivity.
    - apply mul_number; assumption. }
  pose proof (div_le _ _ Scraper.TAXA_SELIC_ATUAL 8444249301319680 (-49)
                ltac:(vm_compute; reflexivity) B) as C.
  refine (FLt_FLe_trans _ _ _ _ C). apply ltb_true. vm_compute. reflexivity.
Qed.

End Positive.

Import Positive.

(** ** Texts: replacing, trimming and reading *)

Module Text.

Ltac to_arith :=
  unfold isDigit, isWhiteSpace in *;
  repeat rewrite ?andb_true_iff, ?orb_true_iff, ?andb_false_iff, ?orb_false_iff,
    ?negb_true_iff, ?negb_false_iff, ?N.leb_le, ?N.eqb_eq, ?N.leb_gt, ?N.eqb_neq in *.

Lemma digit_code (c : N) : isDigit c = true <-> 48 <= c <= 57.
Proof. to_arith. lia. Qed.

Lemma digit_not_space (c : N) : isDigit c = true -> isWhiteSpace c = false.
Proof. intros H. apply digit_code in H. to_arith. lia. Qed.

Lemma space_not_digit (c : N) : isWhiteSpace c = true -> isDigit c = false.
Proof. destruct (isDigit c) eqn:E; [|reflexivity]. apply digit_not_space in E. congruence. Qed.

Lemma space_avoids (c : N) (ws : list N) :
  isWhiteSpace c = false -> allSpace ws -> avoids c ws.
Proof.
  intros Hc H. induction H as [|d ws Hd _ IH]; constructor; auto.
  intros ->. congruence.
Qed.

Lemma digits_avoid (c : N) (ds : list N) :
  isDigit c = false -> allDigits ds -> avoids c ds.
Proof.
  intros Hc H. induction H as [|d ds Hd _ IH]; constructor; auto.
  intros ->. congruence.
Qed.

Lemma avoids_app (c : N) (a b : jsstring) : avoids c a -> avoids c b -> avoids c (a ++ b).
Proof. intros; apply Forall_app; auto. Qed.

Lemma replaceFirst_avoids (c : N) (r s : jsstring) : avoids c s -> replaceFirst c r s = s.
Proof.
  induction 1 as [|d s Hd _ IH]; cbn [replaceFirst]; [reflexivity|].
  apply N.eqb_neq in Hd. rewrite Hd, IH. reflexivity.
Qed.

Lemma replaceFirst_first (c : N) (r a b : jsstring) :
  avoids c a -> replaceFirst c r (a ++ c :: b) = a ++ r ++ b.
Proof.
  induction 1 as [|d s Hd _ IH]; cbn [replaceFirst app].
  - rewrite N.eqb_refl. reflexivity.
  - apply N.eqb_neq in Hd. rewrite Hd, IH. reflexivity.
Qed.

Lemma removeAll_avoids (c : N) (s : jsstring) : avoids c s -> removeAll c s = s.
Proof.
  unfold removeAll. induction 1 as [|d s Hd _ IH]; cbn [filter]; [reflexivity|].
  apply N.eqb_neq in Hd. rewrite Hd. cbn [negb]. rewrite IH. reflexivity.
Qed.

Lemma removeAll_app (c : N) (a b : jsstring) :
  removeAll c (a ++ b) = removeAll c a ++ removeAll c b.
Proof. apply filter_app. Qed.

Lemma removeAll_joinDots (gs : list (list N)) :
  Forall allDigits gs -> removeAll 46 (joinDots gs) = concat gs.
Proof.
  induction 1 as [|g gs Hg Hgs IH]; [reflexivity|].
  assert (Hg' : removeAll 46 g = g) by (apply removeAll_avoids, digits_avoid; auto).
  destruct gs as [|g' gs'].
  - cbn [joinDots concat]. rewrite app_nil_r. exact Hg'.
  - change (joinDots (g :: g' :: gs')) with (g ++ 46 :: joinDots (g' :: gs')).
    rewrite removeAll_app, Hg'. cbn [concat]. f_equal.
    unfold removeAll at 1. cbn [filter]. rewrite N.eqb_refl. cbn [negb]. exact IH.
Qed.

Lemma removeCurrency_cons (c d : N) (u : jsstring) :
  removeCurrency (c :: d :: u) =
  if (c =? 82) && (d =? 36)
  then match u with w :: u' => if isWhiteSpace w then u' else u | [] => [] end
  else c :: removeCurrency (d :: u).
Proof. reflexivity. Qed.

Lemma removeCurrency_avoids (s : jsstring) : avoids 82 s -> removeCurrency s = s.
Proof.
  induction 1 as [|c s Hc Hs IH]; [reflexivity|].
  destruct s as [|d u]; [reflexivity|].
  rewrite removeCurrency_cons. apply N.eqb_neq in Hc. rewrite Hc. cbn [andb].
  rewrite IH. reflexivity.
Qed.

Lemma removeCurrency_first (a u : jsstring) :
  avoids 82 a ->
  removeCurrency (a ++ 82 :: 36 :: u) =
  a ++ match u with w :: u' => if isWhiteSpace w then u' else u | [] => [] end.
Proof.
  induction 1 as [|c s Hc Hs IH].
  - reflexivity.
  - change ((c :: s) ++ 82 :: 36 :: u) with (c :: (s ++ 82 :: 36 :: u)).
    destruct (s ++ 82 :: 36 :: u) as [|d v] eqn:E.
    + destruct s; discriminate.
    + rewrite removeCurrency_cons. apply N.eqb_neq in Hc. rewrite Hc. cbn [andb].
      rewrite IH. reflexivity.
Qed.

(** *** Trimming *)

Lemma trimStart_space (ws s : jsstring) : allSpace ws -> trimStart (ws ++ s) = trimStart s.
Proof.
  induction 1 as [|c ws Hc _ IH]; [reflexivity|].
  cbn [app trimStart]. rewrite Hc. exact IH.
Qed.

Lemma trimStart_solid (s : jsstring) : solidHead s -> trimStart s = s.
Proof. destruct s as [|c t]; cbn [solidHead trimStart]; [reflexivity|]. intros ->. reflexivity. Qed.

Lemma trimStart_solidHead (s : jsstring) : solidHead (trimStart s).
Proof.
  induction s as [|c t IH]; cbn [trimStart]; [exact I|].
  destruct (isWhiteSpace c) eqn:E; [exact IH | exact E].
Qed.

Lemma trimStart_split (s : jsstring) : exists ws, allSpace ws /\ s = ws ++ trimStart s.
Proof.
  induction s as [|c t (ws & Hws & E)]; cbn [trimStart].
  - exists []. split; [constructor | reflexivity].
  - destruct (isWhiteSpace c) eqn:Ec.
    + exists (c :: ws). split; [constructor; assumption|]. cbn [app]. congruence.
    + exists []. split; [constructor | reflexivity].
Qed.

Lemma allSpace_rev (ws : jsstring) : allSpace ws -> allSpace (rev ws).
Proof. apply Forall_rev. Qed.

Lemma trimEnd_space (s ws : jsstring) : allSpace ws -> trimEnd (s ++ ws) = trimEnd s.
Proof.
  intros H. unfold trimEnd. rewrite rev_app_distr, trimStart_space by (apply allSpace_rev, H).
  reflexivity.
Qed.

Lemma trimEnd_solid (s : jsstring) : solidHead (rev s) -> trimEnd s = s.
Proof. intros H. unfold trimEnd. rewrite trimStart_solid by exact H. apply rev_involutive. Qed.

Lemma trimEnd_split (s : jsstring) : exists ws, allSpace ws /\ s = trimEnd s ++ ws.
Proof.
  destruct (trimStart_split (rev s)) as (ws & Hws & E).
  exists (rev ws). split; [apply allSpace_rev, Hws|].
  unfold trimEnd. rewrite <- rev_app_distr, <- E. symmetry. apply rev_involutive.
Qed.

Lemma trim_core (a core b : jsstring) :
  allSpace a -> allSpace b -> solidHead core -> solidHead (rev core) ->
  trim (a ++ core ++ b) = core.
Proof.
  intros Ha Hb Hh Hl. unfold trim.
  rewrite trimStart_space by exact Ha.
  destruct core as [|c t].
  - cbn [app]. unfold trimEnd.
    destruct (trimStart_split b) as (ws & Hws & E).
    assert (Hn : trimStart b = []).
    { clear - Hb. induction Hb as [|c b Hc _ IH]; cbn [trimStart]; [reflexivity|].
      rewrite Hc. exact IH. }
    rewrite Hn. reflexivity.
  - rewrite trimStart_solid by exact Hh.
    rewrite trimEnd_space by exact Hb. apply trimEnd_solid, Hl.
Qed.

Lemma trim_split (s : jsstring) :
  exists a b, allSpace a /\ allSpace b /\ s = a ++ trim s ++ b.
Proof.
  destruct (trimStart_split s) as (a & Ha & Ea).
  destruct (trimEnd_split (trimStart s)) as (b & Hb & Eb).
  exists a, b. repeat split; try assumption.
  unfold trim. rewrite <- Eb. exact Ea.
Qed.

(** *** Reading digits *)

Lemma spanDigits_app (ds r : jsstring) :
  allDigits ds -> stops r -> spanDigits (ds ++ r) = (ds, r).
Proof.
  intros H Hr. induction H as [|c ds Hc _ IH].
  - destruct r as [|c t]; cbn [app spanDigits]; [reflexivity|].
    cbn [stops] in Hr. rewrite Hr. reflexivity.
  - cbn [app spanDigits]. rewrite Hc, IH. reflexivity.
Qed.

Lemma spanDigits_all (ds : jsstring) : allDigits ds -> spanDigits ds = (ds, []).
Proof. intros H. rewrite <- (app_nil_r ds) at 1. apply spanDigits_app; [exact H | exact I]. Qed.

(** *** The number at the head of a cleaned text *)

Lemma startsWith_Infinity (s : jsstring) :
  match s with c :: _ => c <> 73 | [] => True end ->
  startsWith (lit "Infinity") s = false.
Proof.
  destruct s as [|c t]; intros H; unfold startsWith, Js.eqb.
  - reflexivity.
  - destruct (list_eq_dec N.eq_dec _ _) as [E|]; [|reflexivity].
    change (lit "Infinity") with [73; 110; 102; 105; 110; 105; 116; 121] in E.
    cbn [length firstn] in E. congruence.
Qed.

Lemma unsignedLiteral_decimal (neg : bool) (ds : jsstring) (fraction : option (list N)) :
  allDigits ds ->
  allDigits (match fraction with Some f => f | None => [] end) ->
  ds ++ match fraction with Some f => f | None => [] end <> [] ->
  unsignedLiteral neg (ds ++ pointText fraction) =
  Some (decimalToFloat neg
          (digitsValue (ds ++ match fraction with Some f => f | None => [] end))
          (- Z.of_nat (length (match fraction with Some f => f | None => [] end)))).
Proof.
  intros Hds Hf Hne. unfold unsignedLiteral.
  rewrite startsWith_Infinity.
  2:{ destruct ds as [|c t].
      - destruct fraction; cbn [app pointText]; [discriminate | exact I].
      - cbn [app]. inversion Hds as [|? ? Hc _]; subst. apply digit_code in Hc. lia. }
  rewrite spanDigits_app; [|exact Hds|destruct fraction; cbn [pointText stops]; reflexivity].
  destruct fraction as [f|]; cbn [pointText].
  - rewrite N.eqb_refl, spanDigits_all by exact Hf.
    destruct (ds ++ f) eqn:E; [congruence|]. reflexivity.
  - destruct (ds ++ []) eqn:E; [congruence|]. reflexivity.
Qed.

Lemma parseFloat_decimal (neg : bool) (ds : jsstring) (fraction : option (list N)) :
  allDigits ds ->
  allDigits (match fraction with Some f => f | None => [] end) ->
  ds ++ match fraction with Some f => f | None => [] end <> [] ->
  parseFloat (signText neg ++ ds ++ pointText fraction) =
  decimalToFloat neg
    (digitsValue (ds ++ match fraction with Some f => f | None => [] end))
    (- Z.of_nat (length (match fraction with Some f => f | None => [] end))).
Proof.
  intros Hds Hf Hne. unfold parseFloat.
  pose proof (unsignedLiteral_decimal neg ds fraction Hds Hf Hne) as U.
  destruct neg; cbn [signText app].
  - cbn [trimStart]. change (isWhiteSpace 45) with false. cbv iota.
    rewrite N.eqb_refl, U. reflexivity.
  - destruct (ds ++ pointText fraction) as [|c t] eqn:E.
    + destruct ds; [destruct fraction|]; cbn [app pointText] in E, Hne; congruence.
    + assert (Hc : isDigit c = true \/ c = 46).
      { destruct ds as [|d ds'].
        - destruct fraction; cbn [app pointText] in E; [|discriminate]. right. congruence.
        - left. cbn [app] in E. inversion Hds; subst. congruence. }
      assert (Hw : isWhiteSpace c = false).
      { destruct Hc as [Hc | ->]; [apply digit_not_space, Hc | reflexivity]. }
      cbn [trimStart]. rewrite Hw.
      assert (H45 : (c =? 45) = false).
      { apply N.eqb_neq. destruct Hc as [Hc | ->]; [apply digit_code in Hc|]; lia. }
      assert (H43 : (c =? 43) = false).
      { apply N.eqb_neq. destruct Hc as [Hc | ->]; [apply digit_code in Hc|]; lia. }
      rewrite H45, H43, U. reflexivity.
Qed.

(** *** The cleaning chain on a well-formed text *)

Lemma render_amount (l : Layout) :
  render l =
  lead l ++ match currency l with Some ws => 82 :: 36 :: ws | None => [] end ++ amount l.
Proof. reflexivity. Qed.

Lemma joinDots_avoids (c : N) (gs : list (list N)) :
  isDigit c = false -> c <> 46 -> Forall allDigits gs -> avoids c (joinDots gs).
Proof.
  intros Hc H46. induction 1 as [|g gs Hg Hgs IH]; [constructor|].
  destruct gs as [|g' gs'].
  - cbn [joinDots]. apply digits_avoid; assumption.
  - change (joinDots (g :: g' :: gs')) with (g ++ 46 :: joinDots (g' :: gs')).
    apply avoids_app; [apply digits_avoid; assumption|]. constructor; [congruence | exact IH].
Qed.

Lemma concat_digits (gs : list (list N)) : Forall allDigits gs -> allDigits (concat gs).
Proof.
  induction 1 as [|g gs Hg _ IH]; [constructor|]. cbn [concat]. apply Forall_app. split; assumption.
Qed.

Section WellFormed.

Variable l : Layout.
Hypothesis Hlead : allSpace (lead l).
Hypothesis Hcur : match currency l with Some ws => allSpace ws | None => True end.
Hypothesis Hgroups : Forall allDigits (groups l).
Hypothesis Hfrac : allDigits (fractionDigits l).
Hypothesis Hgap : allSpace (gap l).
Hypothesis Htrail : allSpace (trail l).
Hypothesis Hdigit : concat (groups l) ++ fractionDigits l <> [].

(** No character of the amount is [c], for [c] none of its characters. *)
Lemma amount_avoids (c : N) :
  isDigit c = false -> isWhiteSpace c = false ->
  c <> 45 -> c <> 46 -> c <> 44 -> c <> 37 -> avoids c (amount l).
Proof.
  intros Hd Hw H45 H46 H44 H37. unfold amount.
  repeat apply avoids_app.
  - destruct (negative l); repeat constructor; congruence.
  - apply joinDots_avoids; assumption.
  - unfold commaText. pose proof Hfrac as F. unfold fractionDigits in F.
    destruct (fraction l); constructor; [congruence|]. apply digits_avoid; assumption.
  - apply space_avoids; assumption.
  - destruct (percent l); repeat constructor; congruence.
  - apply space_avoids; assumption.
Qed.

Lemma amount_solidHead : solidHead (amount l).
Proof.
  unfold amount. pose proof Hdigit as D. pose proof Hgroups as G. pose proof Hfrac as F.
  unfold fractionDigits in *.
  destruct (negative l); [reflexivity|]. cbn [signText app].
  destruct (groups l) as [|g gs].
  - cbn [joinDots app]. destruct (fraction l); [reflexivity|]. cbn [concat app] in D. congruence.
  - inversion G as [|? ? Hg Hgs]; subst.
    destruct g as [|c g].
    + destruct gs as [|g' gs'].
      * cbn [joinDots app]. destruct (fraction l); [reflexivity|]. cbn [concat app] in D. congruence.
      * reflexivity.
    + assert (isWhiteSpace c = false) by (inversion Hg; subst; apply digit_not_space; assumption).
      destruct gs; cbn [joinDots app solidHead]; assumption.
Qed.

Lemma removeCurrency_render :
  exists ws, allSpace ws /\ removeCurrency (render l) = ws ++ amount l.
Proof.
  rewrite render_amount. pose proof Hcur as C.
  destruct (currency l) as [ws|].
  - cbn [app]. rewrite removeCurrency_first by (apply space_avoids; [reflexivity | exact Hlead]).
    destruct ws as [|w ws']; cbn [app].
    + exists (lead l). split; [exact Hlead|]. f_equal.
      pose proof amount_solidHead as S. destruct (amount l) as [|c t]; [reflexivity|].
      cbn [solidHead] in S. rewrite S. reflexivity.
    + inversion C as [|? ? Hw Hws]; subst. rewrite Hw.
      exists (lead l ++ ws'). split; [apply Forall_app; split; assumption|].
      rewrite app_assoc. reflexivity.
  - exists (lead l). split; [exact Hlead|]. cbn [app].
    apply removeCurrency_avoids, avoids_app.
    + apply space_avoids; [reflexivity | exact Hlead].
    + apply amount_avoids; (reflexivity || discriminate).
Qed.

Lemma cleaned_render : Scraper.cleaned (render l) = core l.
Proof.
  unfold Scraper.cleaned. destruct removeCurrency_render as (ws & Hws & ->).
  pose proof Hfrac as F. unfold fractionDigits in F.
  assert (D : allDigits (concat (groups l))) by (apply concat_digits, Hgroups).
  assert (Asign : forall c, c <> 45 -> avoids c (signText (negative l)))
    by (intros; destruct (negative l); repeat constructor; congruence).
  assert (Apct : forall c, c <> 37 -> avoids c (percentText (percent l)))
    by (intros; destruct (percent l); repeat constructor; congruence).
  assert (Aws : forall c, isWhiteSpace c = false -> avoids c ws)
    by (intros; apply space_avoids; assumption).
  assert (Agap : forall c, isWhiteSpace c = false -> avoids c (gap l))
    by (intros; apply space_avoids; assumption).
  assert (Atrail : forall c, isWhiteSpace c = false -> avoids c (trail l))
    by (intros; apply space_avoids; assumption).
  assert (Adigits : forall c, isDigit c = false -> avoids c (concat (groups l)))
    by (intros; apply digits_avoid; assumption).
  (* the dots *)
  unfold amount. rewrite !removeAll_app.
  rewrite (removeAll_avoids 46 ws) by (apply Aws; reflexivity).
  rewrite (removeAll_avoids 46 (signText _)) by (apply Asign; discriminate).
  rewrite removeAll_joinDots by exact Hgroups.
  rewrite (removeAll_avoids 46 (commaText _))
    by (unfold commaText; destruct (fraction l); constructor;
        [discriminate | apply digits_avoid; [reflexivity | exact F]]).
  rewrite (removeAll_avoids 46 (gap l)) by (apply Agap; reflexivity).
  rewrite (removeAll_avoids 46 (percentText _)) by (apply Apct; discriminate).
  rewrite (removeAll_avoids 46 (trail l)) by (apply Atrail; reflexivity).
  (* the comma *)
  assert (E44 :
    replaceFirst 44 [46]
      (ws ++ signText (negative l) ++ concat (groups l) ++ commaText (fraction l)
       ++ gap l ++ percentText (percent l) ++ trail l) =
    (ws ++ core l) ++ gap l ++ percentText (percent l) ++ trail l).
  { unfold core, commaText, pointText. destruct (fraction l) as [f|].
    - replace (ws ++ signText (negative l) ++ concat (groups l) ++ (44 :: f) ++ gap l
               ++ percentText (percent l) ++ trail l)
        with ((ws ++ signText (negative l) ++ concat (groups l))
              ++ 44 :: (f ++ gap l ++ percentText (percent l) ++ trail l))
        by (rewrite <- !app_assoc; reflexivity).
      rewrite replaceFirst_first
        by (repeat apply avoids_app;
            [apply Aws; reflexivity | apply Asign; discriminate | apply Adigits; reflexivity]).
      rewrite <- !app_assoc. reflexivity.
    - cbn [app]. rewrite app_nil_r, <- !app_assoc. apply replaceFirst_avoids.
      repeat apply avoids_app;
        [apply Aws; reflexivity | apply Asign; discriminate | apply Adigits; reflexivity
        | apply Agap; reflexivity | apply Apct; discriminate | apply Atrail; reflexivity]. }
  rewrite E44. clear E44.
  (* the percent sign *)
  assert (A37 : avoids 37 ((ws ++ core l) ++ gap l)).
  { unfold core, pointText. repeat apply avoids_app;
      [apply Aws; reflexivity | apply Asign; discriminate | apply Adigits; reflexivity
      | | apply Agap; reflexivity ].
    destruct (fraction l); constructor; [discriminate|]. apply digits_avoid; [reflexivity | exact F]. }
  assert (E37 :
    replaceFirst 37 [] ((ws ++ core l) ++ gap l ++ percentText (percent l) ++ trail l) =
    ws ++ core l ++ (gap l ++ trail l)).
  { destruct (percent l); cbn [percentText app].
    - rewrite app_assoc, replaceFirst_first by exact A37.
      cbn [app]. rewrite <- !app_assoc. reflexivity.
    - rewrite replaceFirst_avoids.
      + rewrite <- !app_assoc. reflexivity.
      + rewrite app_assoc. apply avoids_app; [exact A37 | apply Atrail; reflexivity]. }
  rewrite E37. clear E37 A37.
  (* the trim *)
  assert (S : Forall (fun c => isWhiteSpace c = false) (core l)).
  { unfold core, pointText. apply Forall_app; split; [|apply Forall_app; split].
    - destruct (negative l); repeat constructor.
    - eapply Forall_impl; [|exact D]. apply digit_not_space.
    - destruct (fraction l); constructor; [reflexivity|].
      eapply Forall_impl; [|exact F]. apply digit_not_space. }
  apply trim_core.
  - exact Hws.
  - apply Forall_app; split; assumption.
  - destruct (core l); [exact I|]. inversion S; assumption.
  - apply Forall_rev in S. destruct (rev (core l)); [exact I|]. inversion S; assumption.
Qed.

Lemma in_joinDots (c : N) (gs : list (list N)) : In c (concat gs) -> In c (joinDots gs).
Proof.
  induction gs as [|g gs IH]; [intros []|].
  cbn [concat]. intros H. apply in_app_or in H.
  destruct gs as [|g' gs'].
  - cbn [joinDots]. destruct H as [H | []]. exact H.
  - change (joinDots (g :: g' :: gs')) with (g ++ 46 :: joinDots (g' :: gs')).
    apply in_or_app. destruct H as [H | H]; [left; exact H | right; right; apply IH, H].
Qed.

(** A well-formed text contains a digit. *)
Lemma render_digit : exists c, isDigit c = true /\ In c (render l).
Proof.
  pose proof Hdigit as D. pose proof Hfrac as F.
  assert (Dg : allDigits (concat (groups l))) by (apply concat_digits, Hgroups).
  destruct (concat (groups l) ++ fractionDigits l) as [|c t] eqn:E; [congruence|].
  assert (Hin : In c (concat (groups l) ++ fractionDigits l)) by (rewrite E; left; reflexivity).
  exists c. apply in_app_or in Hin. rewrite render_amount. unfold amount.
  destruct Hin as [Hin | Hin].
  - split; [eapply Forall_forall in Dg; eassumption|].
    apply in_or_app; right. apply in_or_app; right. apply in_or_app; right.
    apply in_or_app; left. apply in_joinDots, Hin.
  - split; [eapply Forall_forall in F; eassumption|].
    apply in_or_app; right. apply in_or_app; right. apply in_or_app; right.
    apply in_or_app; right. apply in_or_app; left.
    unfold fractionDigits in Hin. unfold commaText.
    destruct (fraction l); [right; exact Hin | destruct Hin].
Qed.

End WellFormed.

(** A text whose trimmed form is empty or a lone dash has no digit. *)
Lemma blank_no_digit (s : jsstring) (c : N) :
  trim s = [] \/ trim s = [45] -> In c s -> isDigit c = false.
Proof.
  intros Ht Hin. destruct (trim_split s) as (a & b & Ha & Hb & E).
  rewrite E in Hin.
  assert (Hs : forall d, In d a \/ In d b -> isDigit d = false).
  { intros d [Hd | Hd]; apply space_not_digit;
      [eapply Forall_forall in Ha | eapply Forall_forall in Hb]; eassumption. }
  apply in_app_or in Hin. destruct Hin as [Hin | Hin]; [apply Hs; auto|].
  apply in_app_or in Hin. destruct Hin as [Hin | Hin]; [|apply Hs; auto].
  destruct Ht as [Ht | Ht]; rewrite Ht in Hin; [destruct Hin|].
  destruct Hin as [<- | []]. reflexivity.
Qed.

Lemma guard_spec (s : jsstring) :
  Js.eqb (trim s) (lit "-") || Js.eqb (trim s) [] = true <-> trim s = [] \/ trim s = [45].
Proof.
  change (lit "-") with [45]. unfold Js.eqb.
  destruct (list_eq_dec N.eq_dec (trim s) [45]), (list_eq_dec N.eq_dec (trim s) []);
    cbn [orb]; intuition congruence.
Qed.

Theorem strToNumber_render (l : Layout) :
  wellFormed l -> Scraper.strToNumber (JStr (render l)) = Some (denoted l).
Proof.
  intros (Hlead & Hcur & Hgroups & Hfrac & Hgap & Htrail & Hdigit).
  unfold Scraper.strToNumber.
  destruct (Js.eqb (trim (render l)) (lit "-") || Js.eqb (trim (render l)) []) eqn:G.
  - apply guard_spec in G.
    destruct (render_digit l Hgroups Hfrac Hdigit) as (c & Hc & Hin).
    rewrite (blank_no_digit _ _ G Hin) in Hc. discriminate.
  - rewrite cleaned_render by assumption. unfold core.
    rewrite parseFloat_decimal;
      [|apply concat_digits, Hgroups | exact Hfrac | exact Hdigit].
    fold (fractionDigits l). fold (denoted l).
    unfold denoted. rewrite decimalToFloat_number. reflexivity.
Qed.

(** The two copies of [strToNumber] compute the same function. *)
Lemma blank_cleaned (s : jsstring) :
  trim s = [] \/ trim s = [45] -> Scraper.cleaned s = trim s.
Proof.
  intros Ht. unfold Scraper.cleaned.
  assert (A : forall c, isDigit c = true \/ c = 82 \/ c = 46 \/ c = 44 \/ c = 37 -> avoids c s).
  { intros c Hc. apply Forall_forall. intros d Hd E0. subst d.
    destruct (trim_split s) as (a & b & Ha & Hb & E). rewrite E in Hd.
    assert (Hs : forall x, In c x -> allSpace x -> False).
    { intros x Hx Hall. eapply Forall_forall in Hall; [|exact Hx].
      destruct Hc as [Hc | Hc]; [apply digit_not_space in Hc; congruence|].
      destruct Hc as [-> | [-> | [-> | ->]]]; discriminate. }
    apply in_app_or in Hd. destruct Hd as [Hd | Hd]; [eapply Hs; eassumption|].
    apply in_app_or in Hd. destruct Hd as [Hd | Hd]; [|eapply Hs; eassumption].
    destruct Ht as [Ht | Ht]; rewrite Ht in Hd; [destruct Hd|].
    destruct Hd as [<- | []].
    destruct Hc as [Hc | [Hc | [Hc | [Hc | Hc]]]]; discriminate. }
  rewrite removeCurrency_avoids by (apply A; auto).
  rewrite removeAll_avoids by (apply A; auto).
  rewrite (replaceFirst_avoids 44) by (apply A; auto 6).
  rewrite (replaceFirst_avoids 37) by (apply A; auto 6).
  reflexivity.
Qed.

Theorem strToNumber_same (v : jsval) : Server.strToNumber v = Scraper.strToNumber v.
Proof.
  destruct v as [| |[|c t]]; try reflexivity.
  unfold Server.strToNumber, Scraper.strToNumber. fold (Scraper.cleaned (c :: t)).
  destruct (Js.eqb (trim (c :: t)) (lit "-") || Js.eqb (trim (c :: t)) []) eqn:G; [|reflexivity].
  apply guard_spec in G. rewrite (blank_cleaned _ G).
  destruct G as [-> | ->]; reflexivity.
Qed.


End Text.

Import Text.

#[local] Open Scope N_scope.

(** ** Normalization *)

Lemma strToNumber_absent (v : jsval) : absent v -> Scraper.strToNumber v = None.
Proof.
  destruct v as [| |s]; try reflexivity. cbn [absent]. intros H.
  unfold Scraper.strToNumber. apply guard_spec in H. rewrite H. reflexivity.
Qed.

(** A normalized value is a number, never [NaN]. *)
Lemma strToNumber_number (v : jsval) (x : float) :
  Scraper.strToNumber v = Some x -> isNaN x = false.
Proof.
  destruct v as [| |s]; try discriminate. unfold Scraper.strToNumber.
  destruct (_ || _); [discriminate|].
  destruct (isNaN (parseFloat (Scraper.cleaned s))) eqn:E; [discriminate|].
  intros H. injection H as <-. exact E.
Qed.

Example normalize_samples :
  Scraper.strToNumber (text "R$ 1.234,56") = Some 1234.56%float /\
  Scraper.strToNumber (text "-") = None /\
  Scraper.strToNumber (text "12,5%") = Some 12.5%float /\
  Scraper.strToNumber (text "1.234.567,89") = Some 1234567.89%float /\
  Scraper.strToNumber (text "-1,5") = Some (-1.5)%float /\
  Scraper.strToNumber (text "") = None /\
  Scraper.strToNumber (text "   ") = None /\
  Scraper.strToNumber (text ".,") = None /\
  Scraper.strToNumber JNull = None /\
  Scraper.strToNumber JUndefined = None.
Proof. vm_compute. repeat split. Qed.

(** C2 (as stated) fails: a percent sign inside the text is removed by the
    code, so "1%2" reads 12, whereas stripping only a trailing percent
    marker leaves "1%2", which reads 1. *)
Lemma strToNumber_percent_inside :
  Scraper.strToNumber (text "1%2") = Some 12%float /\
  normalize (text "1%2") = Some 1%float /\
  Scraper.strToNumber (text "1%2") <> normalize (text "1%2").
Proof.
  assert (A : Scraper.strToNumber (text "1%2") = Some 12%float) by (vm_compute; reflexivity).
  assert (B : normalize (text "1%2") = Some 1%float) by (vm_compute; reflexivity).
  split; [exact A | split; [exact B |]].
  rewrite A, B. intros H.
  apply (f_equal (fun o => match o with Some x => PrimFloat.eqb x 1 | None => false end)) in H.
  vm_compute in H. discriminate.
Qed.

(** C2 (amended): absent inputs (not a string, empty, whitespace only, a lone
    dash) give null; a text in the documented locale format gives the
    binary64 value nearest to the decimal it denotes, sign preserved,
    whatever the number of grouping dots; the three examples of the
    specification hold; and the copy of [strToNumber] in src/server.js
    computes the same function. *)
Theorem strToNumber_normalizes :
  (forall v, absent v -> Scraper.strToNumber v = None) /\
  (forall l, wellFormed l -> Scraper.strToNumber (JStr (render l)) = Some (denoted l)) /\
  (forall v x, Scraper.strToNumber v = Some x -> isNaN x = false) /\
  Scraper.strToNumber (text "R$ 1.234,56") = Some 1234.56%float /\
  Scraper.strToNumber (text "-") = None /\
  Scraper.strToNumber (text "12,5%") = Some 12.5%float /\
  (forall v, Server.strToNumber v = Scraper.strToNumber v).
Proof.
  split; [exact strToNumber_absent|].
  split; [exact strToNumber_render|].
  split; [exact strToNumber_number|].
  split; [apply normalize_samples|].
  split; [apply normalize_samples|].
  split; [apply normalize_samples|].
  exact strToNumber_same.
Qed.

Lemma strToNumber_normalizes_witness :
  Scraper.strToNumber (text " R$ -1.234.567,89 %  ") = Some (-1234567.89)%float.
Proof.
  refine (eq_trans (proj1 (proj2 strToNumber_normalizes) sampleLayout _) _).
  - unfold wellFormed, allSpace, allDigits.
    repeat split; repeat constructor; discriminate.
  - vm_compute. reflexivity.
Defined.

(** ** Classification of indicators *)

Ltac eval_cases :=
  repeat match goal with
  | |- context [isLit (lit ?a) ?b] =>
    let r := eval vm_compute in (isLit (lit a) b) in
    replace (isLit (lit a) b) with r by (vm_compute; reflexivity)
  end;
  cbv beta iota.

Ltac split_bools :=
  repeat match goal with
  | |- context [if ?b then _ else _] => destruct b eqn:?
  end.

Lemma classify_rule (name : string) (rule : Rule) (valueStr : jsval) (v : float) :
  In (name, rule) ruleTable ->
  Scraper.strToNumber valueStr = Some v ->
  (Scraper.classifyIndicator (lit name) valueStr = good <-> favorable rule v = true) /\
  (Scraper.classifyIndicator (lit name) valueStr = bad <-> unfavorable rule v = true) /\
  (Scraper.classifyIndicator (lit name) valueStr = neutral <->
     favorable rule v = false /\ unfavorable rule v = false).
Proof.
  intros Hin Hv. unfold Scraper.classifyIndicator. rewrite Hv.
  cbv [In ruleTable] in Hin.
  repeat (destruct Hin as [Hin | Hin]; [injection Hin as <- <- | ]); try contradiction.
  all: eval_cases; cbv [favorable unfavorable].
  all: split_bools.
  all: repeat split; intros; try discriminate; try reflexivity; exfalso; float_order.
Qed.

Lemma classify_pvp_between (valueStr : jsval) (v : float) :
  Scraper.strToNumber valueStr = Some v ->
  ge v 1.0 = true -> le v 1.5 = true ->
  Scraper.classifyIndicator (lit "pvp") valueStr = neutral.
Proof.
  intros Hv H1 H2.
  apply (classify_rule "pvp" (mkRule (fun v => lt v 1.0) (fun v => gt v 1.5)) valueStr v);
    [left; reflexivity | exact Hv |].
  cbv [favorable unfavorable]. split; float_order.
Qed.

(** C3: on every row of the reference rule table and every normalized value,
    [classifyIndicator] says 'good' exactly when the row's favorable
    predicate holds, 'bad' exactly when its unfavorable predicate holds, and
    'neutral' otherwise; for price/book, 0.8 is favorable, 2.0 unfavorable
    and every value in [1.0, 1.5] neutral. *)
Theorem classifyIndicator_rule_table :
  (forall name rule valueStr v,
     In (name, rule) ruleTable ->
     Scraper.strToNumber valueStr = Some v ->
     (Scraper.classifyIndicator (lit name) valueStr = good <-> favorable rule v = true) /\
     (Scraper.classifyIndicator (lit name) valueStr = bad <-> unfavorable rule v = true) /\
     (Scraper.classifyIndicator (lit name) valueStr = neutral <->
        favorable rule v = false /\ unfavorable rule v = false)) /\
  Scraper.classifyIndicator (lit "pvp") (text "0,8") = good /\
  Scraper.classifyIndicator (lit "pvp") (text "2,0") = bad /\
  (forall valueStr v,
     Scraper.strToNumber valueStr = Some v ->
     ge v 1.0 = true -> le v 1.5 = true ->
     Scraper.classifyIndicator (lit "pvp") valueStr = neutral).
Proof.
  split; [exact classify_rule|].
  split; [vm_compute; reflexivity|].
  split; [vm_compute; reflexivity|].
  exact classify_pvp_between.
Qed.

(** Return on equity of "18,2%" is favorable: 18.2 >= 15. *)
Lemma classifyIndicator_rule_table_witness :
  Scraper.classifyIndicator (lit "roe") (text "18,2%") = good.
Proof.
  apply (proj1 (proj1 classifyIndicator_rule_table "roe"%string
                  (mkRule (fun v => ge v 15) (fun v => lt v 8)) (text "18,2%") 18.2%float
                  ltac:(cbv [In ruleTable]; tauto) ltac:(vm_compute; reflexivity))).
  vm_compute. reflexivity.
Defined.

Lemma isLit_false (indicator : jsstring) (name : string) :
  indicator <> lit name -> isLit indicator name = false.
Proof.
  intros H. unfold isLit, Js.eqb. destruct (list_eq_dec N.eq_dec indicator (lit name)); congruence.
Qed.

Lemma classify_null (indicator : jsstring) (valueStr : jsval) :
  Scraper.strToNumber valueStr = None -> Scraper.classifyIndicator indicator valueStr = neutral.
Proof. intros H. unfold Scraper.classifyIndicator. rewrite H. reflexivity. Qed.

Lemma classify_unknown (indicator : jsstring) (valueStr : jsval) :
  ~ known indicator -> Scraper.classifyIndicator indicator valueStr = neutral.
Proof.
  intros H. unfold Scraper.classifyIndicator.
  destruct (Scraper.strToNumber valueStr) as [value|]; [|reflexivity].
  assert (K : forall name rule, In (name, rule) ruleTable -> isLit indicator name = false).
  { intros name rule Hin. apply isLit_false. intros ->. apply H.
    unfold known. apply (in_map (fun p => lit (fst p)) _ _ Hin). }
  repeat (erewrite K by (cbv [In ruleTable]; tauto)). reflexivity.
Qed.

(** C8: classification is a total function whose result is 'neutral'
    whenever the raw text normalizes to null (null, empty, dash-only and
    unparseable texts among them) and whenever the indicator name is not in
    the rule table. *)
Theorem classify_neutral (indicator : jsstring) (valueStr : jsval) :
  (Scraper.strToNumber valueStr = None ->
   Scraper.classifyIndicator indicator valueStr = neutral) /\
  (~ known indicator -> Scraper.classifyIndicator indicator valueStr = neutral) /\
  Scraper.strToNumber JNull = None /\
  Scraper.strToNumber (text "") = None /\
  Scraper.strToNumber (text "-") = None /\
  Scraper.strToNumber (text "n/d") = None.
Proof.
  split; [apply classify_null|].
  split; [apply classify_unknown|].
  repeat split; vm_compute; reflexivity.
Qed.

(** The handler's own key 'cagrLucros' is not a row of the table. *)
Lemma classify_neutral_witness :
  Scraper.classifyIndicator (lit "pvp") (text "n/d") = neutral /\
  Scraper.classifyIndicator (lit "cagrLucros") (text "12,5%") = neutral.
Proof.
  split.
  - apply (proj1 (classify_neutral (lit "pvp") (text "n/d"))). vm_compute. reflexivity.
  - apply (proj1 (proj2 (classify_neutral (lit "cagrLucros") (text "12,5%")))).
    unfold known. cbv [In map ruleTable fst]. intros H.
    repeat (destruct H as [H | H]; [vm_compute in H; discriminate|]). exact H.
Defined.

(** ** Valuation verdicts *)

Lemma classifyValuation_verdict (cotacaoStr : jsval) (price : float) (valuation : option float) :
  Scraper.strToNumber cotacaoStr = Some price ->
  class (Scraper.classifyValuation cotacaoStr valuation) = verdict price valuation.
Proof.
  intros H. unfold Scraper.classifyValuation, verdict. rewrite H.
  destruct valuation as [e|]; [|reflexivity].
  destruct (le e 0); [reflexivity|]. destruct (lt price e); reflexivity.
Qed.

Lemma estimateCell_class (e cotacao : option float) :
  class (Server.estimateCell e cotacao) =
  if gt (Server.toNumber e) (Server.toNumber cotacao) then good else neutral.
Proof. reflexivity. Qed.

Lemma estimateCell_never_bad (e cotacao : option float) :
  class (Server.estimateCell e cotacao) <> bad.
Proof. rewrite estimateCell_class. destruct (gt _ _); discriminate. Qed.

(** C4 (as stated) fails on src/server.js: with the price at 30 and the
    Graham estimate at about 18.97, the price is not below the estimate, so
    the verdict should be unfavorable; the reduced server answers
    'neutral'. *)
Lemma server_verdict_not_unfavorable :
  Server.strToNumber (Server.I10.cotacao quoted30) = Some 30%float /\
  Server.graham (Server.strToNumber (Server.I10.vpa quoted30))
                (Server.strToNumber (Server.I10.lpa quoted30))
    = Some 18.973665961010276%float /\
  verdict 30 (Some 18.973665961010276%float) = bad /\
  class (Server.Resp.valorJusto (Server.report asciiUpper (lit "PETR4") quoted30)) = neutral.
Proof. repeat split; vm_compute; reflexivity. Qed.

(** C4 (amended): in src/scraper.js, for every estimate and every price text
    that normalizes to a number, the verdict is neutral when the estimate is
    null or not above zero, favorable when the price is strictly below the
    estimate, and unfavorable otherwise; in src/server.js the verdict is
    favorable when the estimate is strictly above the price (null counting
    as 0 on both sides) and neutral otherwise, never unfavorable. *)
Theorem valuation_verdict :
  (forall cotacaoStr price valuation,
     Scraper.strToNumber cotacaoStr = Some price ->
     class (Scraper.classifyValuation cotacaoStr valuation) = verdict price valuation) /\
  (forall e cotacao,
     class (Server.estimateCell e cotacao) =
     if gt (Server.toNumber e) (Server.toNumber cotacao) then good else neutral) /\
  (forall e cotacao, class (Server.estimateCell e cotacao) <> bad).
Proof.
  split; [exact classifyValuation_verdict|].
  split; [exact estimateCell_class | exact estimateCell_never_bad].
Qed.

(** Price 30,00 against an estimate of 18.97: unfavorable in the full server. *)
Lemma valuation_verdict_witness :
  class (Scraper.classifyValuation (text "R$ 30,00") (Some 18.973665961010276%float)) = bad.
Proof.
  refine (eq_trans (proj1 valuation_verdict (text "R$ 30,00") 30%float _ _) _);
    vm_compute; reflexivity.
Defined.

(** C10: without a price that normalizes to a number the valuation cell is
    the sentinel ('-', neutral), whatever the estimate; an estimate is shown
    and classified only when the price text normalized and the estimate is
    above zero. *)
Theorem valuation_needs_price (cotacaoStr : jsval) (valuation : option float) :
  (Scraper.strToNumber cotacaoStr = None ->
   Scraper.classifyValuation cotacaoStr valuation = dash) /\
  (Scraper.classifyValuation cotacaoStr valuation <> dash ->
   exists price e,
     Scraper.strToNumber cotacaoStr = Some price /\ valuation = Some e /\ le e 0 = false).
Proof.
  unfold Scraper.classifyValuation. split.
  - intros ->. reflexivity.
  - destruct (Scraper.strToNumber cotacaoStr) as [price|]; [|intros H; now elim H].
    destruct valuation as [e|]; [|intros H; now elim H].
    destruct (le e 0) eqn:E; [intros H; now elim H|].
    intros _. exists price, e. split; [reflexivity | split; [reflexivity | exact E]].
Qed.

(** A price cell reading "n/d" with a positive estimate of 25. *)
Lemma valuation_needs_price_witness :
  Scraper.classifyValuation (text "n/d") (Some 25%float) = dash.
Proof.
  apply (proj1 (valuation_needs_price (text "n/d") (Some 25%float))).
  vm_compute. reflexivity.
Defined.

#[local] Open Scope float_scope.

(** ** Valuation formulas *)

(** A number above zero is truthy. *)
Lemma gt0_truthy (x : float) : gt x 0 = true -> Num.truthy x = true.
Proof. intros. float_order. Qed.

(** On numbers, "not above zero" is "at most zero". *)
Lemma not_gt0_le0 (x : float) : isNaN x = false -> (gt x 0 = false <-> le x 0 = true).
Proof. intros. float_order. Qed.

Lemma graham_spec (vpaNum lpaNum : option float) :
  Scraper.valorJustoGraham vpaNum lpaNum =
  match vpaNum, lpaNum with
  | Some vpa, Some lpa => if gt lpa 0 && gt vpa 0 then Some (sqrt (22.5 * lpa * vpa)) else None
  | _, _ => None
  end.
Proof.
  unfold Scraper.valorJustoGraham. destruct vpaNum as [vpa|], lpaNum as [lpa|]; try reflexivity.
  destruct (gt lpa 0) eqn:L, (gt vpa 0) eqn:V; rewrite ?andb_false_r, ?andb_false_l; try reflexivity.
  rewrite !gt0_truthy by assumption. reflexivity.
Qed.

Lemma server_graham (vpa lpa : option float) :
  Server.graham vpa lpa = Scraper.valorJustoGraham vpa lpa.
Proof.
  rewrite graham_spec. unfold Server.graham, Server.toNumber.
  assert (Z : gt 0 0 = false) by reflexivity.
  destruct vpa as [v|], lpa as [l|]; rewrite ?Z, ?andb_false_r; try reflexivity.
  rewrite andb_comm. reflexivity.
Qed.

(** C5 (as stated) fails: with earnings 2 and book value 8 per share the
    estimate is sqrt(360), about 18.97 and not 18.0; and with both at 1e200
    the product overflows and the estimate is +Infinity. *)
Lemma graham_example_not_18 :
  Scraper.valorJustoGraham (Scraper.strToNumber (text "8,00")) (Scraper.strToNumber (text "2,00"))
    <> Some 18.0 /\
  Scraper.valorJustoGraham (Scraper.strToNumber (text "1e200")) (Scraper.strToNumber (text "1e200"))
    = Some infinity.
Proof.
  split; [|vm_compute; reflexivity].
  replace (Scraper.valorJustoGraham _ _) with (Some 18.973665961010276)
    by (vm_compute; reflexivity).
  intros H.
  apply (f_equal (fun o => match o with Some x => PrimFloat.eqb x 18 | None => false end)) in H.
  vm_compute in H. discriminate.
Qed.

(** C5 (amended): the Graham estimate is null when earnings or book value
    per share is missing or not above zero, and sqrt(22.5 * EPS * BVPS) in
    double arithmetic otherwise, in both servers; earnings 2 and book value
    8 give 18.973665961010276. *)
Theorem graham_fair_value :
  (forall vpaNum lpaNum,
     Scraper.valorJustoGraham vpaNum lpaNum =
     match vpaNum, lpaNum with
     | Some vpa, Some lpa =>
       if gt lpa 0 && gt vpa 0 then Some (sqrt (22.5 * lpa * vpa)) else None
     | _, _ => None
     end) /\
  (forall vpa lpa, Server.graham vpa lpa = Scraper.valorJustoGraham vpa lpa) /\
  (forall x, isNaN x = false -> (gt x 0 = false <-> le x 0 = true)) /\
  Scraper.valorJustoGraham (Some 8) (Some 2) = Some 18.973665961010276.
Proof.
  split; [exact graham_spec|]. split; [exact server_graham|].
  split; [exact not_gt0_le0|]. vm_compute. reflexivity.
Qed.

Lemma graham_fair_value_witness :
  (gt (-3) 0 = false <-> le (-3) 0 = true).
Proof. apply (proj1 (proj2 (proj2 graham_fair_value)) (-3)). vm_compute. reflexivity. Defined.

Lemma bazin_spec (cotacaoNum dyNum : option float) :
  Scraper.precoTetoBazin cotacaoNum dyNum =
  match cotacaoNum, dyNum with
  | Some cotacao, Some dy =>
    if gt dy 0 && Num.truthy cotacao then Some ((cotacao * (dy / 100)) / 0.08) else None
  | _, _ => None
  end.
Proof.
  unfold Scraper.precoTetoBazin. destruct cotacaoNum as [c|], dyNum as [dy|]; try reflexivity.
  destruct (gt dy 0) eqn:D; rewrite ?andb_false_r; [|reflexivity].
  rewrite (gt0_truthy dy D), !andb_true_r. reflexivity.
Qed.

Lemma bazin5Y_same (cotacaoNum dy5AnosNum : option float) :
  Scraper.precoTetoBazin5Y cotacaoNum dy5AnosNum = Scraper.precoTetoBazin cotacaoNum dy5AnosNum.
Proof. reflexivity. Qed.

Lemma server_bazin (cotacao dy : option float) :
  Server.bazin cotacao dy =
  match dy with
  | Some y => if gt y 0 then Some (Server.toNumber cotacao * (y / 100) / 0.06) else None
  | None => None
  end.
Proof. destruct dy; reflexivity. Qed.

Lemma growth_positive (c : option float) : gt (Scraper.growth c) 0 = true.
Proof.
  unfold Scraper.growth. destruct c as [c|]; [|reflexivity].
  destruct (gt c 0) eqn:E; [exact E | reflexivity].
Qed.

Lemma revisado_spec (lpaNum cagrLucrosNum : option float) :
  Scraper.valorRevisadoGraham lpaNum (Scraper.growth cagrLucrosNum) =
  match lpaNum with
  | Some lpa =>
    if gt lpa 0
    then Some ((lpa * (Scraper.PL_BASE_GRAHAM + 2 * Scraper.growth cagrLucrosNum)
                * Scraper.SELIC_MEDIA_HISTORICA) / Scraper.TAXA_SELIC_ATUAL)
    else None
  | None => None
  end.
Proof.
  unfold Scraper.valorRevisadoGraham. destruct lpaNum as [lpa|]; [|reflexivity].
  pose proof (growth_positive cagrLucrosNum) as G.
  assert (G' : ge (Scraper.growth cagrLucrosNum) 0 = true)
    by (revert G; generalize (Scraper.growth cagrLucrosNum); intros; float_order).
  rewrite G'.
  change (gt Scraper.TAXA_SELIC_ATUAL 0) with true.
  change (gt Scraper.SELIC_MEDIA_HISTORICA 0) with true.
  destruct (gt lpa 0) eqn:L; rewrite ?andb_true_r, ?andb_false_r; [|reflexivity].
  rewrite gt0_truthy by assumption. reflexivity.
Qed.

(** C7 (as stated) fails: the code multiplies by the historical rate and
    then divides by the current rate, which in double arithmetic is not the
    product by the ratio of the two rates: for earnings of 3 at the fallback
    growth the code gives 51.060000000000009 where the formula as worded
    gives 51.060000000000002. *)
Lemma revised_graham_association :
  Scraper.valorRevisadoGraham (Some 3) (Scraper.growth None) = Some 51.060000000000009 /\
  revisedGraham 3 (Scraper.growth None) = 51.060000000000002 /\
  Scraper.valorRevisadoGraham (Some 3) (Scraper.growth None)
  <> Some (revisedGraham 3 (Scraper.growth None)).
Proof.
  assert (A : Scraper.valorRevisadoGraham (Some 3) (Scraper.growth None)
              = Some 51.060000000000009) by (vm_compute; reflexivity).
  assert (B : revisedGraham 3 (Scraper.growth None) = 51.060000000000002)
    by (vm_compute; reflexivity).
  split; [exact A | split; [exact B |]].
  rewrite A, B. intros H.
  apply (f_equal (fun o => match o with
                           | Some x => PrimFloat.eqb x 51.060000000000002
                           | None => false
                           end)) in H.
  vm_compute in H. discriminate.
Qed.

Lemma above_zero (r : float) : gt r 0 = true -> le r 0 = false.
Proof. intros. float_order. Qed.

Lemma revisado_positive (lpa : float) (cagrLucrosNum : option float) (r : float) :
  Scraper.valorRevisadoGraham (Some lpa) (Scraper.growth cagrLucrosNum) = Some r ->
  gt r 0 = true.
Proof.
  rewrite revisado_spec. destruct (gt lpa 0) eqn:L; [|discriminate].
  intros H.
  apply (f_equal (fun o => match o with Some x => x | None => r end)) in H.
  cbv beta iota in H. subst r.
  pose proof (growth_positive cagrLucrosNum) as G.
  unfold gt in *. rewrite ltb_true in *.
  apply revised_positive; assumption.
Qed.

(** C7 (amended): with the growth rate the handler passes (the trailing
    earnings growth when present and above zero, 5.0 otherwise), the Revised
    Graham value is null when earnings per share is missing or not above
    zero, and otherwise (EPS * (8.5 + 2 * g) * 13.80) / 15.0 evaluated from
    left to right in double arithmetic: the product by the historical rate,
    then the quotient by the current rate, not the product by their ratio.
    The value, when there is one, is a number above zero, so that its cell
    is the sentinel exactly when the price does not normalize or the
    earnings are missing or not above zero.  Earnings of 3 at the fallback
    growth give 51.060000000000009. *)
Theorem revised_graham :
  (forall lpaNum cagrLucrosNum,
     Scraper.valorRevisadoGraham lpaNum (Scraper.growth cagrLucrosNum) =
     match lpaNum with
     | Some lpa =>
       if gt lpa 0
       then Some ((lpa * (Scraper.PL_BASE_GRAHAM + 2 * Scraper.growth cagrLucrosNum)
                   * Scraper.SELIC_MEDIA_HISTORICA) / Scraper.TAXA_SELIC_ATUAL)
       else None
     | None => None
     end) /\
  (forall cagrLucrosNum,
     Scraper.growth cagrLucrosNum =
     match cagrLucrosNum with
     | Some c => if gt c 0 then c else Scraper.G_CRESCIMENTO_FALLBACK
     | None => Scraper.G_CRESCIMENTO_FALLBACK
     end) /\
  Scraper.G_CRESCIMENTO_FALLBACK = 5.0 /\
  Scraper.PL_BASE_GRAHAM = 8.5 /\
  Scraper.SELIC_MEDIA_HISTORICA = 13.80 /\
  Scraper.TAXA_SELIC_ATUAL = 15.0 /\
  (forall toUpperCase toLowerCase ticker i10Data xpiData btgData,
     Scraper.Resp.valorRevisado
       (Scraper.report toUpperCase toLowerCase ticker i10Data xpiData btgData) =
     Scraper.classifyValuation (Scraper.I10.cotacao i10Data)
       (Scraper.valorRevisadoGraham
          (Scraper.strToNumber (Scraper.I10.lpa i10Data))
          (Scraper.growth (Scraper.strToNumber (Scraper.I10.cagrLucros i10Data))))) /\
  (forall lpa cagrLucrosNum r,
     Scraper.valorRevisadoGraham (Some lpa) (Scraper.growth cagrLucrosNum) = Some r ->
     gt r 0 = true) /\
  (forall cotacaoStr lpaNum cagrLucrosNum,
     Scraper.classifyValuation cotacaoStr
       (Scraper.valorRevisadoGraham lpaNum (Scraper.growth cagrLucrosNum)) = dash <->
     Scraper.strToNumber cotacaoStr = None \/ lpaNum = None \/
     exists lpa, lpaNum = Some lpa /\ gt lpa 0 = false) /\
  Scraper.valorRevisadoGraham (Some 3) (Scraper.growth None) = Some 51.060000000000009.
Proof.
  split; [exact revisado_spec|].
  split; [reflexivity|]. split; [reflexivity|]. split; [reflexivity|].
  split; [reflexivity|]. split; [reflexivity|]. split; [reflexivity|].
  split; [exact revisado_positive|].
  split; [|vm_compute; reflexivity].
  intros cotacaoStr lpaNum cagrLucrosNum.
  destruct lpaNum as [lpa|].
  2:{ unfold Scraper.classifyValuation, Scraper.valorRevisadoGraham.
      destruct (Scraper.strToNumber cotacaoStr); split; auto. }
  destruct (Scraper.valorRevisadoGraham (Some lpa) (Scraper.growth cagrLucrosNum))
    as [r|] eqn:E.
  - pose proof (revisado_positive _ _ _ E) as R. apply above_zero in R.
    rewrite revisado_spec in E.
    destruct (gt lpa 0) eqn:L; [|discriminate].
    unfold Scraper.classifyValuation.
    destruct (Scraper.strToNumber cotacaoStr) as [c|]; [|split; auto].
    rewrite R. split.
    + intros H. apply (f_equal value) in H. cbn [value dash] in H.
      exfalso. revert H. change (lit "R$ ") with [82; 36; 32]%N.
      change (lit "-") with [45]%N. discriminate.
    + intros [H | [H | (x & [= <-] & H)]]; [discriminate | discriminate | congruence].
  - rewrite revisado_spec in E.
    destruct (gt lpa 0) eqn:L; [discriminate|].
    unfold Scraper.classifyValuation.
    destruct (Scraper.strToNumber cotacaoStr); split; try reflexivity; intros _;
      right; right; exists lpa; split; [reflexivity | exact L | reflexivity | exact L].
Qed.

(** C6 (as stated) fails: with a price of 0,00 and a yield of 5,00% the
    full server gives null where the formula gives 0; and the estimate is
    not strictly increasing in double arithmetic, the prices 31.5 and
    31.500000000000004 at a yield of 5 giving the same estimate. *)
Lemma bazin_zero_price_and_collision :
  Scraper.strToNumber (text "0,00") = Some 0 /\
  Scraper.strToNumber (text "5,00%") = Some 5 /\
  Scraper.precoTetoBazin (Some 0) (Some 5) = None /\
  (0 * (5 / 100)) / 0.08 = 0 /\
  lt 31.5 31.500000000000004 = true /\
  Scraper.precoTetoBazin (Some 31.5) (Some 5) =
  Scraper.precoTetoBazin (Some 31.500000000000004) (Some 5).
Proof. repeat split; vm_compute; reflexivity. Qed.

Lemma scraper_bazin_some (p dy r : float) :
  Scraper.precoTetoBazin (Some p) (Some dy) = Some r ->
  gt dy 0 = true /\ r = (p * (dy / 100)) / 0.08.
Proof.
  rewrite bazin_spec. destruct (gt dy 0); [|discriminate].
  destruct (Num.truthy p); [|discriminate].
  cbn [andb]. intros H.
  split; [reflexivity|]. symmetry. exact (f_equal (fun o => match o with Some x => x | None => r end) H).
Qed.

Lemma server_bazin_some (p dy r : float) :
  Server.bazin (Some p) (Some dy) = Some r ->
  gt dy 0 = true /\ r = p * (dy / 100) / 0.06.
Proof.
  rewrite server_bazin. cbn [Server.toNumber]. destruct (gt dy 0); [|discriminate].
  intros H.
  split; [reflexivity|]. symmetry. exact (f_equal (fun o => match o with Some x => x | None => r end) H).
Qed.

(** C6 (amended): the Bazin estimate is null when the yield is missing or
    not above zero and, in src/scraper.js, also when the price is missing or
    zero; otherwise it is (price * (yield / 100)) / 0.08 in double
    arithmetic, for the current yield and for the 5-year average yield
    alike; src/server.js divides by 0.06 and counts a missing price as 0.
    In both files, estimates that are numbers do not decrease when the
    price grows at a fixed yield, nor when the yield grows at a fixed price
    above zero. *)
Theorem bazin_ceiling :
  (forall cotacaoNum dyNum,
     Scraper.precoTetoBazin cotacaoNum dyNum =
     match cotacaoNum, dyNum with
     | Some cotacao, Some dy =>
       if gt dy 0 && Num.truthy cotacao then Some ((cotacao * (dy / 100)) / 0.08) else None
     | _, _ => None
     end) /\
  (forall cotacaoNum dy5AnosNum,
     Scraper.precoTetoBazin5Y cotacaoNum dy5AnosNum =
     Scraper.precoTetoBazin cotacaoNum dy5AnosNum) /\
  (forall cotacao dy,
     Server.bazin cotacao dy =
     match dy with
     | Some y => if gt y 0 then Some (Server.toNumber cotacao * (y / 100) / 0.06) else None
     | None => None
     end) /\
  (forall p1 p2 dy r1 r2,
     Scraper.precoTetoBazin (Some p1) (Some dy) = Some r1 ->
     Scraper.precoTetoBazin (Some p2) (Some dy) = Some r2 ->
     isNaN r1 = false -> isNaN r2 = false ->
     le p1 p2 = true -> le r1 r2 = true) /\
  (forall p d1 d2 r1 r2,
     Scraper.precoTetoBazin (Some p) (Some d1) = Some r1 ->
     Scraper.precoTetoBazin (Some p) (Some d2) = Some r2 ->
     isNaN r1 = false -> isNaN r2 = false ->
     gt p 0 = true -> le d1 d2 = true -> le r1 r2 = true) /\
  (forall p1 p2 dy r1 r2,
     Server.bazin (Some p1) (Some dy) = Some r1 ->
     Server.bazin (Some p2) (Some dy) = Some r2 ->
     isNaN r1 = false -> isNaN r2 = false ->
     le p1 p2 = true -> le r1 r2 = true) /\
  (forall p d1 d2 r1 r2,
     Server.bazin (Some p) (Some d1) = Some r1 ->
     Server.bazin (Some p) (Some d2) = Some r2 ->
     isNaN r1 = false -> isNaN r2 = false ->
     gt p 0 = true -> le d1 d2 = true -> le r1 r2 = true).
Proof.
  split; [exact bazin_spec|]. split; [exact bazin5Y_same|]. split; [exact server_bazin|].
  assert (T8 : Prim2SF 0.08 = S754_finite false 5764607523034235 (-56))
    by (vm_compute; reflexivity).
  assert (T6 : Prim2SF 0.06 = S754_finite false 8646911284551352 (-57))
    by (vm_compute; reflexivity).
  split; [|split; [|split]].
  - intros p1 p2 dy r1 r2 H1 H2 N1 N2 L.
    apply scraper_bazin_some in H1 as [D E1]. apply scraper_bazin_some in H2 as [_ E2].
    rewrite E1, E2 in *. exact (ceiling_mono_price _ _ _ _ _ _ T8 L D N1 N2).
  - intros p d1 d2 r1 r2 H1 H2 N1 N2 P L.
    apply scraper_bazin_some in H1 as [_ E1]. apply scraper_bazin_some in H2 as [_ E2].
    rewrite E1, E2 in *. exact (ceiling_mono_yield _ _ _ _ _ _ T8 L P N1 N2).
  - intros p1 p2 dy r1 r2 H1 H2 N1 N2 L.
    apply server_bazin_some in H1 as [D E1]. apply server_bazin_some in H2 as [_ E2].
    rewrite E1, E2 in *. exact (ceiling_mono_price _ _ _ _ _ _ T6 L D N1 N2).
  - intros p d1 d2 r1 r2 H1 H2 N1 N2 P L.
    apply server_bazin_some in H1 as [_ E1]. apply server_bazin_some in H2 as [_ E2].
    rewrite E1, E2 in *. exact (ceiling_mono_yield _ _ _ _ _ _ T6 L P N1 N2).
Qed.

(** A quote of 30,00 and one of 31,50 at a yield of 5%: the estimates are
    18.75 and 19.687500000000004 in double arithmetic. *)
Lemma bazin_ceiling_witness :
  Scraper.precoTetoBazin (Some 30) (Some 5) = Some 18.75 /\
  Scraper.precoTetoBazin (Some 31.5) (Some 5) = Some 19.687500000000004 /\
  le 18.75 19.687500000000004 = true.
Proof.
  assert (H1 : Scraper.precoTetoBazin (Some 30) (Some 5) = Some 18.75)
    by (vm_compute; reflexivity).
  assert (H2 : Scraper.precoTetoBazin (Some 31.5) (Some 5) = Some 19.687500000000004)
    by (vm_compute; reflexivity).
  split; [exact H1|]. split; [exact H2|].
  apply (proj1 (proj2 (proj2 (proj2 bazin_ceiling))) 30 31.5 5 18.75 19.687500000000004 H1 H2);
    vm_compute; reflexivity.
Defined.

#[local] Close Scope float_scope.

(** ** The /buscar handler *)



(** A run failed, or it delivered an object. *)
Lemma run_cases {A : Type} (r : run A) :
  failed r \/ exists d, r = mkRun (Extracted d) true.
Proof.
  destruct r as [[d|] [|]].
  - right. exists d. reflexivity.
  - left. right. reflexivity.
  - left. left. reflexivity.
  - left. left. reflexivity.
Qed.

(** The handler's test of the price, read on the primary provider's run. *)
Lemma primary_missing (r : run Scraper.I10.t) :
  Js.truthy (Scraper.I10.cotacao
               (Scraper.valueOr Scraper.I10.empty (Scraper.scrapeInvestidor10 r))) = false <->
  failed r \/
  exists d, page r = Extracted d /\ Js.truthy (Scraper.I10.cotacao d) = false.
Proof.
  unfold Scraper.scrapeInvestidor10, Scraper.scrape, failed.
  destruct r as [[d|] [|]]; cbn [page closed Scraper.valueOr]; split; intros H;
    try reflexivity; try (left; auto; fail).
  - right. exists d. split; [reflexivity | exact H].
  - destruct H as [[H | H] | (d' & [= <-] & H)]; [discriminate | discriminate | exact H].
Qed.

Section Outcome.

Variable toUpperCase toLowerCase : jsstring -> jsstring.

Lemma buscar_eq (c : N) (t : jsstring) (w : Scraper.World) :
  Scraper.browser w = true ->
  Scraper.buscar toUpperCase toLowerCase (JStr (c :: t)) w =
  if Js.truthy (Scraper.I10.cotacao
                  (Scraper.valueOr Scraper.I10.empty
                     (Scraper.scrapeInvestidor10 (Scraper.i10Run w))))
  then mkResponse 200 (DataBody
         (Scraper.report toUpperCase toLowerCase (c :: t)
            (Scraper.valueOr Scraper.I10.empty (Scraper.scrapeInvestidor10 (Scraper.i10Run w)))
            (Scraper.valueOr Scraper.Xpi.empty (Scraper.scrapeXpi (Scraper.xpiRun w)))
            (Scraper.valueOr Scraper.Btg.empty (Scraper.scrapeBtgPactual (Scraper.btgRun w)))))
  else mkResponse 404 (ErrorBody (lit "Dados essenciais não encontrados.")).
Proof.
  intros Hb. unfold Scraper.buscar. rewrite Hb. cbn [fst snd].
  destruct (Js.truthy _); reflexivity.
Qed.





(** C9: whatever the providers return, the ticker of a report is the
    request's ticker in upper case, in both servers. *)
Theorem ticker_uppercase (ticker : jsstring) :
  (forall w r,
     body (Scraper.buscar toUpperCase toLowerCase (JStr ticker) w) = DataBody r ->
     Scraper.Resp.ticker r = toUpperCase ticker) /\
  (forall w r,
     body (Server.buscar toUpperCase (JStr ticker) w) = DataBody r ->
     Server.Resp.ticker r = toUpperCase ticker).
Proof.
  split; intros w r.
  - unfold Scraper.buscar. destruct ticker as [|c t]; [discriminate|].
    destruct (Scraper.browser w); [|discriminate].
    destruct (negb _); [discriminate|]. cbn [body]. intros H. injection H as <-. reflexivity.
  - unfold Server.buscar. destruct ticker as [|c t]; [discriminate|].
    destruct (Server.browser w); [|discriminate].
    destruct (Server.scrapeInvestidor10 _) as [i10|]; [|discriminate].
    destruct (_ || _); [discriminate|]. cbn [body]. intros H. injection H as <-. reflexivity.
Qed.

End Outcome.



Lemma ticker_uppercase_witness :
  exists r,
    body (Scraper.buscar asciiUpper asciiLower (text "petr4") petr4World) = DataBody r /\
    Scraper.Resp.ticker r = lit "PETR4".
Proof.
  eexists. split; [vm_compute; reflexivity|].
  apply (proj1 (ticker_uppercase asciiUpper asciiLower (lit "petr4")) petr4World).
  vm_compute. reflexivity.
Defined.

(* ================================================================== *)
(** * Further properties of the code *)

#[local] Open Scope N_scope.


(** X1: [classifyIndicator] is monotone in the value: for dy, roe, roic,
    margemLiquida, margemEbitda, liquidezCorrente, potencial and cagr a text
    that normalizes to a larger number never gets a worse verdict
    (bad < neutral < good), and for pvp, dividaLiquidaEbit,
    dividaLiquidaEbitda and risco it never gets a better one. *)
Theorem classifyIndicator_monotone (name : string) (s1 s2 : jsval) (v1 v2 : float) :
  Scraper.strToNumber s1 = Some v1 -> Scraper.strToNumber s2 = Some v2 ->
  le v1 v2 = true ->
  (In name higherIsBetter ->
     rank (Scraper.classifyIndicator (lit name) s1)
       <= rank (Scraper.classifyIndicator (lit name) s2)) /\
  (In name lowerIsBetter ->
     rank (Scraper.classifyIndicator (lit name) s2)
       <= rank (Scraper.classifyIndicator (lit name) s1)).
Proof.
  intros H1 H2 L. unfold Scraper.classifyIndicator. rewrite H1, H2.
  split; intros Hin; cbv [In higherIsBetter lowerIsBetter] in Hin;
    repeat (destruct Hin as [<- | Hin]); try contradiction.
  all: eval_cases.
  all: split_bools; cbv [rank]; try lia; exfalso; crossed L.
Qed.

(** A dividend yield of 7,5% against one of 18,2%, read as return on equity. *)
Lemma classifyIndicator_monotone_witness :
  rank (Scraper.classifyIndicator (lit "roe") (text "7,5%"))
    <= rank (Scraper.classifyIndicator (lit "roe") (text "18,2%")).
Proof.
  apply (proj1 (classifyIndicator_monotone "roe"%string (text "7,5%") (text "18,2%")
                  7.5%float 18.2%float
                  ltac:(vm_compute; reflexivity) ltac:(vm_compute; reflexivity)
                  ltac:(vm_compute; reflexivity))).
  cbv [In higherIsBetter]. tauto.
Defined.

Module Cells.

Lemma orElse_filled (v : jsval) (d : jsstring) : d <> [] -> orElse v d <> [].
Proof. destruct v as [| |[|c t]]; cbn [orElse]; intros H; try exact H. discriminate. Qed.

Lemma classifyValuation_filled (cotacaoStr : jsval) (valuation : option float) :
  value (Scraper.classifyValuation cotacaoStr valuation) <> [].
Proof.
  unfold Scraper.classifyValuation.
  destruct (Scraper.strToNumber cotacaoStr); [|discriminate].
  destruct valuation as [v|]; [|discriminate].
  destruct (le v 0); discriminate.
Qed.

Lemma unknown_key (key : string) (valueStr : jsval) :
  ~ known (lit key) ->
  Scraper.classifyIndicator (lit key) valueStr = neutral.
Proof.
  intros H. unfold Scraper.classifyIndicator.
  destruct (Scraper.strToNumber valueStr) as [value|]; [|reflexivity].
  assert (K : forall name rule, In (name, rule) ruleTable -> isLit (lit key) name = false).
  { intros name rule Hin. unfold isLit, Js.eqb.
    destruct (list_eq_dec N.eq_dec (lit key) (lit name)) as [E | N]; [|reflexivity].
    exfalso. apply H. unfold known. rewrite E.
    apply (in_map (fun p => lit (fst p)) _ _ Hin). }
  repeat (erewrite K by (cbv [In ruleTable]; tauto)). reflexivity.
Qed.

Lemma not_known (key : string) :
  forallb (fun p => negb (Js.eqb (lit key) (lit (fst p)))) ruleTable = true ->
  ~ known (lit key).
Proof.
  intros H K. unfold known in K. apply in_map_iff in K as (p & E & Hin).
  rewrite forallb_forall in H. specialize (H p Hin).
  unfold Js.eqb in H. destruct (list_eq_dec N.eq_dec (lit key) (lit (fst p))); [discriminate | congruence].
Qed.

End Cells.

Import Cells.

Section Reports.

Variable toUpperCase toLowerCase : jsstring -> jsstring.

(** X2: in a report of the full server the cells [dy5Anos] and
    [cagrLucros] are always neutral, whatever their texts: the handler asks
    [classifyIndicator] for the keys 'dy5AnOS' and 'cagrLucros', which are
    not cases of its switch. *)
Theorem report_keys_without_rule (ticker : jsstring) (i10Data : Scraper.I10.t)
    (xpiData : Scraper.Xpi.t) (btgData : Scraper.Btg.t) :
  class (Scraper.Resp.dy5Anos
           (Scraper.report toUpperCase toLowerCase ticker i10Data xpiData btgData)) = neutral /\
  class (Scraper.Resp.cagrLucros
           (Scraper.report toUpperCase toLowerCase ticker i10Data xpiData btgData)) = neutral.
Proof.
  cbn [Scraper.report Scraper.Resp.dy5Anos Scraper.Resp.cagrLucros
       Scraper.createIndicatorResponse class].
  split; apply unknown_key, not_known; vm_compute; reflexivity.
Qed.

(** X3: no cell of a /buscar report has an empty value, in the full server
    and in the reduced one: a missing or empty field is shown as '-'. *)
Theorem report_values_filled (ticker : jsstring) (i10Data : Scraper.I10.t)
    (xpiData : Scraper.Xpi.t) (btgData : Scraper.Btg.t) (i10 : Server.I10.t) :
  Forall (fun c => value c <> [])
    (cells (Scraper.report toUpperCase toLowerCase ticker i10Data xpiData btgData)) /\
  Forall (fun c => value c <> []) (serverCells (Server.report toUpperCase ticker i10)).
Proof.
  split.
  - unfold cells, primaryCells, xpiCells, btgCells. cbn [fst snd app].
    repeat constructor;
      cbn [Scraper.report Scraper.Resp.cotacao Scraper.Resp.pl Scraper.Resp.pvp
           Scraper.Resp.dy Scraper.Resp.dy5Anos Scraper.Resp.payout Scraper.Resp.evEbitda
           Scraper.Resp.pEbitda Scraper.Resp.pAtivo Scraper.Resp.roe Scraper.Resp.roic
           Scraper.Resp.roa Scraper.Resp.margemBruta Scraper.Resp.margemEbit
           Scraper.Resp.margemEbitda Scraper.Resp.margemLiquida Scraper.Resp.giroAtivos
           Scraper.Resp.dividaLiquidaEbit Scraper.Resp.dividaLiquidaEbitda
           Scraper.Resp.dividaLiquidaPatrimonio Scraper.Resp.liquidezCorrente
           Scraper.Resp.cagrLucros Scraper.Resp.lpa Scraper.Resp.vpa Scraper.Resp.precoTeto
           Scraper.Resp.bazin5Y Scraper.Resp.valorJusto Scraper.Resp.valorRevisado
           Scraper.Resp.xpiRecomendacao Scraper.Resp.xpiPrecoAlvo Scraper.Resp.xpiPotencial
           Scraper.Resp.xpiRisco Scraper.Resp.btgRecomendacao Scraper.Resp.btgPrecoAlvo
           Scraper.Resp.btgPotencial Scraper.createIndicatorResponse value];
      first [apply classifyValuation_filled | apply orElse_filled; discriminate].
  - unfold serverCells.
    repeat constructor;
      cbn [Server.report Server.Resp.cotacao Server.Resp.pl Server.Resp.pvp Server.Resp.dy
           Server.Resp.valorJusto Server.Resp.precoTeto Server.createResponse
           Server.estimateCell value];
      apply orElse_filled; discriminate.
Qed.

End Reports.

Section ReducedServer.

Variable toUpperCase : jsstring -> jsstring.

Lemma server_buscar_eq (c : N) (t : jsstring) (w : Server.World) :
  Server.buscar toUpperCase (JStr (c :: t)) w =
  if Server.browser w && closed (Server.i10Run w) then
    match page (Server.i10Run w) with
    | Extracted d =>
      if noPrice (Server.I10.cotacao d)
      then mkResponse 404 (ErrorBody (lit "Ativo não encontrado ou erro ao ler página."))
      else mkResponse 200 (DataBody (Server.report toUpperCase (c :: t) d))
    | Threw => mkResponse 404 (ErrorBody (lit "Ativo não encontrado ou erro ao ler página."))
    end
  else mkResponse 500 (ErrorBody (lit "Erro interno ao processar dados.")).
Proof.
  unfold Server.buscar, Server.scrapeInvestidor10, noPrice.
  destruct (Server.browser w); [|reflexivity].
  destruct (closed (Server.i10Run w)); [|reflexivity]. cbn [andb].
  destruct (page (Server.i10Run w)) as [d|]; reflexivity.
Qed.

(** X4: the reduced server's /buscar answers 400 'Ticker vazio' when the
    ticker is missing or empty; otherwise 500 'Erro interno ao processar
    dados.' exactly when the browser is not available or closing the page
    throws, 404 exactly when the scraper threw inside its [try] or the price
    is missing, empty or '-', and 200 with the report of the scraped data in
    every other case. *)
Theorem server_buscar_outcome (ticker : jsval) (w : Server.World) :
  (Js.truthy ticker = false ->
     Server.buscar toUpperCase ticker w = mkResponse 400 (ErrorBody (lit "Ticker vazio"))) /\
  (Js.truthy ticker = true ->
     (status (Server.buscar toUpperCase ticker w) = 500 <->
        Server.browser w = false \/ closed (Server.i10Run w) = false) /\
     (status (Server.buscar toUpperCase ticker w) = 404 <->
        Server.browser w = true /\ closed (Server.i10Run w) = true /\
        match page (Server.i10Run w) with
        | Extracted d => noPrice (Server.I10.cotacao d) = true
        | Threw => True
        end) /\
     (status (Server.buscar toUpperCase ticker w) = 500 ->
        Server.buscar toUpperCase ticker w
        = mkResponse 500 (ErrorBody (lit "Erro interno ao processar dados."))) /\
     (status (Server.buscar toUpperCase ticker w) = 404 ->
        Server.buscar toUpperCase ticker w
        = mkResponse 404 (ErrorBody (lit "Ativo não encontrado ou erro ao ler página."))) /\
     (forall s d,
        ticker = JStr s -> Server.browser w = true ->
        Server.i10Run w = mkRun (Extracted d) true ->
        noPrice (Server.I10.cotacao d) = false ->
        Server.buscar toUpperCase ticker w
        = mkResponse 200 (DataBody (Server.report toUpperCase s d)))).
Proof.
  split.
  - destruct ticker as [| |[|c t]]; try reflexivity. discriminate.
  - destruct ticker as [| |[|c t]]; try discriminate. intros _.
    rewrite server_buscar_eq.
    assert (L : forall s d,
               JStr (c :: t) = JStr s -> Server.browser w = true ->
               Server.i10Run w = mkRun (Extracted d) true ->
               noPrice (Server.I10.cotacao d) = false ->
               (if Server.browser w && closed (Server.i10Run w) then
                  match page (Server.i10Run w) with
                  | Extracted d =>
                    if noPrice (Server.I10.cotacao d)
                    then mkResponse 404 (ErrorBody (lit "Ativo não encontrado ou erro ao ler página."))
                    else mkResponse 200 (DataBody (Server.report toUpperCase (c :: t) d))
                  | Threw => mkResponse 404 (ErrorBody (lit "Ativo não encontrado ou erro ao ler página."))
                  end
                else mkResponse 500 (ErrorBody (lit "Erro interno ao processar dados.")))
               = mkResponse 200 (DataBody (Server.report toUpperCase s d))).
    { intros s d [= <-] Hb Hr Hp. rewrite Hb, Hr. cbn [closed page andb]. rewrite Hp. reflexivity. }
    split; [|split; [|split; [|split; [|exact L]]]]; clear L.
    all: destruct (Server.browser w), (closed (Server.i10Run w)); cbn [andb].
    all: try (destruct (page (Server.i10Run w)) as [d|];
              [destruct (noPrice (Server.I10.cotacao d)) eqn:P;
               [|generalize (Server.report toUpperCase (c :: t) d); intros R]|]).
    all: cbn [status].
    all: lazymatch goal with
         | |- _ <-> _ => split; intros H
         | |- _ -> _ => intros H
         end.
    all: try discriminate H.
    all: lazymatch goal with
         | |- @eq (Response _) _ _ => reflexivity
         | |- @eq N _ _ => try reflexivity
         | |- _ => idtac
         end.
    all: try (left; reflexivity); try (right; reflexivity).
    all: try (right; left; reflexivity); try (right; right; reflexivity).
    all: try (destruct H as [H | H]; discriminate H).
    all: try (destruct H as (H1 & H2 & H3); discriminate).
    all: try (repeat split; fail).
Qed.

End ReducedServer.

Module Margins.

Lemma removeCurrency_skip (c : N) (t : jsstring) :
  c <> 82 -> removeCurrency (c :: t) = c :: removeCurrency t.
Proof.
  intros H. destruct t as [|d u]; [reflexivity|].
  rewrite removeCurrency_cons. apply N.eqb_neq in H. rewrite H. reflexivity.
Qed.

Lemma removeCurrency_lead (a s : jsstring) :
  avoids 82 a -> removeCurrency (a ++ s) = a ++ removeCurrency s.
Proof.
  induction 1 as [|c a Hc Ha IH]; [reflexivity|].
  cbn [app]. rewrite removeCurrency_skip by exact Hc. rewrite IH. reflexivity.
Qed.

Lemma space_not (c : N) (w : N) :
  isWhiteSpace c = false -> isWhiteSpace w = true -> w <> c.
Proof. intros H1 H2 ->. congruence. Qed.

Lemma removeCurrency_trail (s b : jsstring) :
  allSpace b -> exists b', allSpace b' /\ removeCurrency (s ++ b) = removeCurrency s ++ b'.
Proof.
  intros Hb. induction s as [|c t IH].
  - exists b. split; [exact Hb|]. cbn [app]. apply removeCurrency_avoids.
    apply space_avoids; [reflexivity | exact Hb].
  - destruct t as [|d u].
    + destruct b as [|w b'].
      * exists []. split; [constructor | reflexivity].
      * exists (w :: b'). split; [exact Hb|].
        cbn [app]. rewrite removeCurrency_cons.
        assert (W : (w =? 36) = false).
        { apply N.eqb_neq. apply (space_not 36 w); [reflexivity | now inversion Hb]. }
        rewrite W, andb_false_r.
        rewrite removeCurrency_avoids by (apply space_avoids; [reflexivity | exact Hb]).
        reflexivity.
    + cbn [app]. rewrite !removeCurrency_cons.
      destruct ((c =? 82) && (d =? 36)).
      * destruct u as [|w u'].
        -- cbn [app]. destruct b as [|w b'].
           ++ exists []. split; [constructor | reflexivity].
           ++ exists b'. inversion Hb as [|? ? Hw Hb']; subst. rewrite Hw.
              split; [exact Hb' | reflexivity].
        -- cbn [app]. exists b. split; [exact Hb|]. destruct (isWhiteSpace w); reflexivity.
      * destruct IH as (b' & Hb' & E). exists b'. split; [exact Hb'|].
        cbn [app] in E. rewrite E. reflexivity.
Qed.

Lemma replaceFirst_lead (c : N) (r a s : jsstring) :
  avoids c a -> replaceFirst c r (a ++ s) = a ++ replaceFirst c r s.
Proof.
  induction 1 as [|d a Hd Ha IH]; [reflexivity|].
  cbn [app replaceFirst]. apply N.eqb_neq in Hd. rewrite Hd, IH. reflexivity.
Qed.

Lemma replaceFirst_trail (c : N) (r s b : jsstring) :
  avoids c b -> replaceFirst c r (s ++ b) = replaceFirst c r s ++ b.
Proof.
  intros Hb. induction s as [|d s IH].
  - cbn [app replaceFirst]. apply replaceFirst_avoids, Hb.
  - cbn [app replaceFirst]. destruct (d =? c); [apply app_assoc|]. rewrite IH. reflexivity.
Qed.

Lemma trimEnd_solidHead (s : jsstring) : solidHead s -> solidHead (trimEnd s).
Proof.
  intros H. destruct (trimEnd_split s) as (ws & Hws & E).
  destruct (trimEnd s) as [|c t]; [exact I|].
  rewrite E in H. exact H.
Qed.

Lemma trim_solid (s : jsstring) : solidHead (trim s) /\ solidHead (rev (trim s)).
Proof.
  unfold trim. split.
  - apply trimEnd_solidHead, trimStart_solidHead.
  - unfold trimEnd. rewrite rev_involutive. apply trimStart_solidHead.
Qed.

Lemma allSpace_app (a b : jsstring) : allSpace a -> allSpace b -> allSpace (a ++ b).
Proof. intros Ha Hb. apply Forall_app. split; assumption. Qed.

Lemma trim_margins (a s b : jsstring) :
  allSpace a -> allSpace b -> trim (a ++ s ++ b) = trim s.
Proof.
  intros Ha Hb. destruct (trim_split s) as (a' & b' & Ha' & Hb' & E).
  destruct (trim_solid s) as [S1 S2].
  rewrite E at 1.
  replace (a ++ (a' ++ trim s ++ b') ++ b) with ((a ++ a') ++ trim s ++ (b' ++ b))
    by (rewrite <- !app_assoc; reflexivity).
  apply trim_core; try assumption; apply allSpace_app; assumption.
Qed.

Lemma cleaned_margins (a s b : jsstring) :
  allSpace a -> allSpace b -> Scraper.cleaned (a ++ s ++ b) = Scraper.cleaned s.
Proof.
  intros Ha Hb. unfold Scraper.cleaned.
  assert (A : forall c, isWhiteSpace c = false -> avoids c a)
    by (intros c Hc; apply space_avoids; assumption).
  rewrite removeCurrency_lead by (apply A; reflexivity).
  destruct (removeCurrency_trail s b Hb) as (b' & Hb' & ->).
  assert (B : forall c, isWhiteSpace c = false -> avoids c b')
    by (intros c Hc; apply space_avoids; assumption).
  rewrite !removeAll_app.
  rewrite (removeAll_avoids 46 a) by (apply A; reflexivity).
  rewrite (removeAll_avoids 46 b') by (apply B; reflexivity).
  rewrite (replaceFirst_lead 44) by (apply A; reflexivity).
  rewrite (replaceFirst_trail 44) by (apply B; reflexivity).
  rewrite (replaceFirst_lead 37) by (apply A; reflexivity).
  rewrite (replaceFirst_trail 37) by (apply B; reflexivity).
  apply trim_margins; assumption.
Qed.

End Margins.

Import Margins.

(** X5: whitespace before and after a text does not change what
    [strToNumber] reads from it, in both files. *)
Theorem strToNumber_ignores_margins (a s b : jsstring) :
  allSpace a -> allSpace b ->
  Scraper.strToNumber (JStr (a ++ s ++ b)) = Scraper.strToNumber (JStr s) /\
  Server.strToNumber (JStr (a ++ s ++ b)) = Server.strToNumber (JStr s).
Proof.
  intros Ha Hb.
  assert (E : Scraper.strToNumber (JStr (a ++ s ++ b)) = Scraper.strToNumber (JStr s)).
  { unfold Scraper.strToNumber.
    rewrite trim_margins, cleaned_margins by assumption. reflexivity. }
  split; [exact E|]. rewrite !strToNumber_same. exact E.
Qed.

(** " \t42,5%\n" reads as "42,5%". *)
Lemma strToNumber_ignores_margins_witness :
  Scraper.strToNumber (JStr ([32; 9] ++ lit "42,5%" ++ [10])) = Some 42.5%float.
Proof.
  refine (eq_trans (proj1 (strToNumber_ignores_margins [32; 9] (lit "42,5%") [10] _ _)) _).
  - repeat constructor.
  - repeat constructor.
  - vm_compute. reflexivity.
Defined.

Module Printing.

Lemma uintUnits_digits (u : Decimal.uint) : allDigits (uintUnits u).
Proof. induction u; cbn [uintUnits]; constructor; try assumption; reflexivity. Qed.

Lemma digitsOf_digits (n : N) : allDigits (digitsOf n).
Proof. apply uintUnits_digits. Qed.

Lemma digitsOf_filled (n : N) : digitsOf n <> [].
Proof.
  unfold digitsOf. destruct n as [|p]; [discriminate|]. cbn [N.to_uint].
  pose proof (DecimalPos.Unsigned.to_uint_nonnil p) as H.
  destruct (Pos.to_uint p); [contradiction | discriminate ..].
Qed.

Lemma digitsValue_acc (u : Decimal.uint) (acc : positive) :
  fold_left (fun a c => 10 * a + (c - 48)) (uintUnits u) (Npos acc)
  = Npos (Pos.of_uint_acc u acc).
Proof.
  revert acc. induction u; intros acc; cbn [uintUnits fold_left Pos.of_uint_acc];
    try reflexivity;
    match goal with
    | |- fold_left _ _ ?x = _ =>
      match goal with
      | |- _ = N.pos (Pos.of_uint_acc _ ?y) => replace x with (N.pos y) by lia
      end
    end; apply IHu.
Qed.

Lemma digitsValue_units (u : Decimal.uint) : digitsValue (uintUnits u) = N.of_uint u.
Proof.
  unfold digitsValue, N.of_uint.
  induction u; cbn [uintUnits fold_left Pos.of_uint]; try reflexivity;
    try (change (10 * 0 + (48 - 48)) with 0; exact IHu);
    match goal with
    | |- fold_left _ _ ?x = N.pos (Pos.of_uint_acc _ ?y) =>
      change x with (N.pos y)
    end; apply digitsValue_acc.
Qed.

Lemma digitsValue_digitsOf (n : N) : digitsValue (digitsOf n) = n.
Proof. unfold digitsOf. rewrite digitsValue_units. apply DecimalN.Unsigned.of_to. Qed.

Lemma digitsValue_pad (j : nat) (ds : jsstring) :
  digitsValue (repeat 48 j ++ ds) = digitsValue ds.
Proof.
  unfold digitsValue. induction j as [|j IH]; [reflexivity|].
  cbn [repeat app fold_left]. exact IH.
Qed.

Lemma pad_digits (j : nat) (ds : jsstring) : allDigits ds -> allDigits (repeat 48 j ++ ds).
Proof.
  intros H. apply Forall_app. split; [|exact H].
  induction j; cbn [repeat]; constructor; [reflexivity | assumption].
Qed.

(** The digits [toFixed(2)] prints: at least three, the last two after the
    point. *)
Lemma fixed_split (n : N) :
  let ds := repeat 48 (3 - length (digitsOf n)) ++ digitsOf n in
  let i := (length ds - 2)%nat in
  allDigits (firstn i ds) /\ allDigits (skipn i ds) /\
  firstn i ds <> [] /\ length (skipn i ds) = 2%nat /\
  digitsValue (firstn i ds ++ skipn i ds) = n.
Proof.
  intros ds i.
  assert (D : allDigits ds) by (apply pad_digits, digitsOf_digits).
  assert (L : (3 <= length ds)%nat).
  { subst ds. rewrite length_app, repeat_length. lia. }
  assert (D' : allDigits (firstn i ds ++ skipn i ds)) by (rewrite firstn_skipn; exact D).
  apply Forall_app in D' as [D1 D2].
  split; [exact D1|]. split; [exact D2|].
  split.
  { intros E. apply (f_equal (@length N)) in E. rewrite length_firstn in E.
    cbn [length] in E. subst i. lia. }
  split; [rewrite length_skipn; subst i; lia|].
  rewrite firstn_skipn. subst ds. rewrite digitsValue_pad. apply digitsValue_digitsOf.
Qed.

(** A positive number below 10^21 is printed in fixed notation. *)
Lemma fixed_branch (v : float) (m : positive) (e : Z) :
  Prim2SF v = S754_finite false m e -> lt v 1e21 = true ->
  (let '(a, k) := exactPos m e in (k =? 0) && (10 ^ 21 <=? a)) = false.
Proof.
  intros E L. unfold lt in L. rewrite ltb_true in L. destruct L as (_ & _ & L).
  rewrite E in L.
  replace (Prim2SF 1e21) with (S754_finite false 7629394531250000 17) in L
    by (vm_compute; reflexivity).
  cbv [key lexlt] in L.
  pose proof (FloatAxioms.Prim2SF_valid v) as V. rewrite E in V.
  apply canonical_spec in V. destruct V as (_ & D & _).
  apply digits_le in D; [|lia|lia].
  assert (M : N.pos m < 2 ^ 53).
  { change (2 ^ 53) with (Z.to_N (2 ^ 53)%Z). lia. }
  destruct e as [|p|p]; cbv [exactPos].
  - cbn [N.eqb andb]. apply N.leb_gt.
    eapply N.lt_trans; [exact M|]. reflexivity.
  - cbn [N.eqb andb]. apply N.leb_gt.
    assert (P : (Z.pos p < 17 \/ (Z.pos p = 17 /\ Z.pos m < 7629394531250000))%Z) by lia.
    destruct P as [P | [P Q]].
    + assert (N.pos p <= 16) by lia.
      assert (2 ^ N.pos p <= 2 ^ 16) by (apply N.pow_le_mono_r; [discriminate | assumption]).
      apply (N.le_lt_trans _ (N.pos m * 2 ^ 16)); [apply N.mul_le_mono_l; assumption|].
      apply (N.lt_le_trans _ (2 ^ 53 * 2 ^ 16)); [apply N.mul_lt_mono_pos_r; [reflexivity | exact M]|].
      vm_compute. discriminate.
    + assert (Ep : p = 17%positive) by lia. subst p.
      assert (Q' : N.pos m < 7629394531250000) by lia.
      apply (N.lt_le_trans _ (7629394531250000 * 2 ^ 17));
        [apply N.mul_lt_mono_pos_r; [reflexivity | exact Q'] | vm_compute; discriminate].
  - reflexivity.
Qed.

Lemma toFixed2_small (v : float) (m : positive) (e : Z) :
  Prim2SF v = S754_finite false m e -> lt v 1e21 = true ->
  exists g f,
    toFixed2 v = g ++ 46 :: f /\ allDigits g /\ allDigits f /\ g <> [] /\
    length f = 2%nat /\ digitsValue (g ++ f) = centsOf v.
Proof.
  intros E L. pose proof (fixed_branch v m e E L) as B.
  unfold toFixed2, centsOf. rewrite E.
  destruct (exactPos m e) as [a k]. rewrite B.
  destruct (fixed_split (roundHundredths a k)) as (G & F & NE & L2 & V).
  eexists. eexists. split; [cbn [app]; reflexivity|].
  repeat split; assumption.
Qed.

End Printing.

Import Printing.

(** X6: round trip of a valuation cell: for a price that normalizes and an
    estimate above zero and below 10^21, the text [classifyValuation] shows
    ("R$ " and [toFixed(2)] with a decimal comma) is read back by
    [strToNumber] as the double nearest to n / 100, where n is the whole
    number nearest to 100 times the estimate (the larger one on a tie). *)
Theorem valuation_reads_back (cotacaoStr : jsval) (price v : float) :
  Scraper.strToNumber cotacaoStr = Some price ->
  gt v 0 = true -> lt v 1e21 = true ->
  Scraper.strToNumber (JStr (value (Scraper.classifyValuation cotacaoStr (Some v))))
  = Some (decimalToFloat false (centsOf v) (-2)) /\
  (forall m e,
     Prim2SF v = S754_finite false m e ->
     2 ^ (snd (exactPos m e) + 1) * centsOf v
       <= 200 * fst (exactPos m e) + 2 ^ snd (exactPos m e)
       < 2 ^ (snd (exactPos m e) + 1) * (centsOf v + 1)).
Proof.
  intros Hp G L. split.
  2:{ intros m e E. unfold centsOf. rewrite E.
      destruct (exactPos m e) as [a k]. cbn [fst snd]. unfold roundHundredths.
      assert (P : 2 ^ (k + 1) <> 0) by (apply N.pow_nonzero; discriminate).
      split; [apply N.Div0.mul_div_le|].
      rewrite (N.add_1_r ((200 * a + 2 ^ k) / 2 ^ (k + 1))). apply N.mul_succ_div_gt, P. }
  assert (E : exists m e, Prim2SF v = S754_finite false m e).
  { unfold gt, lt in *. rewrite ltb_true in G, L.
    destruct G as (_ & _ & G), L as (_ & _ & L).
    replace (Prim2SF 0) with (S754_zero false) in G by (vm_compute; reflexivity).
    replace (Prim2SF 1e21) with (S754_finite false 7629394531250000 17) in L
      by (vm_compute; reflexivity).
    destruct (Prim2SF v) as [s | [] | | [] m e]; cbv [key lexlt] in G, L; try lia.
    exists m, e. reflexivity. }
  destruct E as (m & e & E).
  assert (Z0 : le v 0 = false).
  { unfold le, gt in *. rewrite leb_false. rewrite ltb_true in G.
    intros (_ & _ & K). destruct G as (_ & _ & G).
    destruct (key (Prim2SF v)) as [[a b] c], (key (Prim2SF 0)) as [[a' b'] c'].
    cbv [lexlt] in *. lia. }
  unfold Scraper.classifyValuation. rewrite Hp, Z0. cbn [value].
  destruct (toFixed2_small v m e E L) as (g & f & -> & Dg & Df & Ng & Lf & V).
  rewrite replaceFirst_first by (apply digits_avoid; [reflexivity | exact Dg]).
  pose (l := mkLayout [] (Some [32]) false [g] (Some f) [] false []).
  assert (R : lit "R$ " ++ g ++ [44] ++ f = render l).
  { unfold render, amount, l. cbn [lead currency negative groups fraction gap percent trail
      signText joinDots commaText percentText app].
    rewrite !app_nil_r. reflexivity. }
  rewrite R. rewrite strToNumber_render.
  - unfold denoted, l. cbn [negative groups fraction fractionDigits concat].
    rewrite app_nil_r, V, Lf. reflexivity.
  - unfold wellFormed, l. cbn [lead currency negative groups fraction gap percent trail
      fractionDigits concat].
    split; [constructor|]. split; [repeat constructor|].
    split; [repeat constructor; exact Dg|]. split; [exact Df|].
    split; [constructor|]. split; [constructor|].
    rewrite app_nil_r. destruct g; [contradiction | discriminate].
Qed.

Module Funds.

Lemma exponential_filled (x : float) (X : N) : exponential x X <> [].
Proof.
  unfold exponential. destruct (rev (dropTrailingZeros (rev _))) as [|d [|d' r]]; discriminate.
Qed.

Lemma toString_not_dash (w : Whole.t) : Whole.toString w <> lit "-".
Proof.
  destruct w as [|[]|s n]; cbn [Whole.toString]; try discriminate.
  destruct (n =? 0); [discriminate|]. cbv zeta.
  generalize (shortest (decimalToFloat false n 0) n (N.of_nat (length (digitsOf n))) 1 17).
  intros k.
  assert (F : (if 10 ^ 21 <=? n then exponential (decimalToFloat false n 0) n else digitsOf k) <> []).
  { destruct (10 ^ 21 <=? n); [apply exponential_filled | apply digitsOf_filled]. }
  destruct (if 10 ^ 21 <=? n then _ else _) as [|c r] eqn:E; [contradiction|].
  destruct s; cbn [app].
  - change (lit "-") with [45]. discriminate.
  - change (lit "-") with [45]. intros H. injection H as -> ->.
    assert (D : isDigit 45 = true).
    { destruct (10 ^ 21 <=? n).
      - unfold exponential in E.
        destruct (rev (dropTrailingZeros (rev _))) as [|d [|d' r]]; discriminate.
      - pose proof (digitsOf_digits k) as A. rewrite E in A. now inversion A. }
    discriminate.
Qed.

Lemma toString_filled (w : Whole.t) : Whole.toString w <> [].
Proof.
  destruct w as [|[]|s n]; cbn [Whole.toString]; try discriminate.
  destruct (n =? 0); [discriminate|]. cbv zeta.
  intros M. apply app_eq_nil in M as [_ M]. revert M.
  destruct (10 ^ 21 <=? n); [apply exponential_filled | apply digitsOf_filled].
Qed.

Lemma priced_filled (r : jsstring) : lit "R$ " ++ r <> [] /\ lit "R$ " ++ r <> lit "-".
Proof. change (lit "R$ ") with [82; 36; 32]. change (lit "-") with [45]. split; discriminate. Qed.

Lemma magicNumber_cases (c u : option float) :
  fst (Fii.magicNumber c u) <> [] /\ snd (Fii.magicNumber c u) <> [] /\
  ((exists x y, c = Some x /\ u = Some y /\ gt x 0 = true /\ gt y 0 = true /\
      fst (Fii.magicNumber c u) <> lit "-" /\ snd (Fii.magicNumber c u) <> lit "-") \/
   ((forall x y, c = Some x -> u = Some y -> gt x 0 && gt y 0 = false) /\
    Fii.magicNumber c u = (lit "-", lit "-"))).
Proof.
  assert (D : lit "-" <> []) by (change (lit "-") with [45]; discriminate).
  destruct c as [x|], u as [y|];
    try (split; [exact D|]; split; [exact D|]; right; split; [intros; discriminate | reflexivity]).
  unfold Fii.magicNumber. destruct (gt x 0 && gt y 0) eqn:G.
  - cbn [fst snd]. split; [apply toString_filled|]. split; [apply priced_filled|].
    left. apply andb_true_iff in G as [G1 G2]. exists x, y.
    split; [reflexivity|]. split; [reflexivity|]. split; [exact G1|]. split; [exact G2|].
    split; [apply toString_not_dash | apply priced_filled].
  - cbn [fst snd]. split; [exact D|]. split; [exact D|].
    right. split; [|reflexivity]. intros ? ? [= <-] [= <-]. exact G.
Qed.

End Funds.

Import Funds.

Section FundReports.

Variable toUpperCase : jsstring -> jsstring.

Lemma buscarFii_eq (c : N) (t : jsstring) (w : Fii.World) :
  Fii.buscarFii toUpperCase (JStr (c :: t)) w =
  if Fii.browser w && closed (Fii.fiiRun w) then
    match page (Fii.fiiRun w) with
    | Extracted d =>
      if noPrice (Fii.Raw.cotacao d)
      then mkResponse 404 (ErrorBody (lit "Dados essenciais (cotação) não encontrados."))
      else mkResponse 200 (DataBody (Fii.report toUpperCase (c :: t) d))
    | Threw => mkResponse 500 (ErrorBody (lit "Erro ao buscar dados de FII."))
    end
  else mkResponse 500 (ErrorBody (lit "Erro ao buscar dados de FII.")).
Proof.
  unfold Fii.buscarFii, noPrice.
  destruct (Fii.browser w); [|reflexivity].
  destruct (page (Fii.fiiRun w)) as [d|];
    destruct (closed (Fii.fiiRun w)); reflexivity.
Qed.

(** X7: /buscar-fii answers 400 'Ticker não informado' when the ticker is
    missing or empty; otherwise 500 'Erro ao buscar dados de FII.' exactly
    when the browser is not available, the page throws or closing it throws,
    404 exactly when the page was read and closed and the price is missing,
    empty or '-', and 200 with the report of the page's data in every other
    case. *)
Theorem buscarFii_outcome (ticker : jsval) (w : Fii.World) :
  (Js.truthy ticker = false ->
     Fii.buscarFii toUpperCase ticker w
     = mkResponse 400 (ErrorBody (lit "Ticker não informado"))) /\
  (Js.truthy ticker = true ->
     (status (Fii.buscarFii toUpperCase ticker w) = 500 <->
        Fii.browser w = false \/ page (Fii.fiiRun w) = Threw \/ closed (Fii.fiiRun w) = false) /\
     (status (Fii.buscarFii toUpperCase ticker w) = 404 <->
        Fii.browser w = true /\ closed (Fii.fiiRun w) = true /\
        exists d, page (Fii.fiiRun w) = Extracted d /\ noPrice (Fii.Raw.cotacao d) = true) /\
     (status (Fii.buscarFii toUpperCase ticker w) = 500 ->
        Fii.buscarFii toUpperCase ticker w
        = mkResponse 500 (ErrorBody (lit "Erro ao buscar dados de FII."))) /\
     (status (Fii.buscarFii toUpperCase ticker w) = 404 ->
        Fii.buscarFii toUpperCase ticker w
        = mkResponse 404 (ErrorBody (lit "Dados essenciais (cotação) não encontrados."))) /\
     (forall s d,
        ticker = JStr s -> Fii.browser w = true ->
        Fii.fiiRun w = mkRun (Extracted d) true ->
        noPrice (Fii.Raw.cotacao d) = false ->
        Fii.buscarFii toUpperCase ticker w
        = mkResponse 200 (DataBody (Fii.report toUpperCase s d)))).
Proof.
  split.
  - destruct ticker as [| |[|c t]]; try reflexivity. discriminate.
  - destruct ticker as [| |[|c t]]; try discriminate. intros _.
    rewrite buscarFii_eq.
    assert (L : forall s d,
               JStr (c :: t) = JStr s -> Fii.browser w = true ->
               Fii.fiiRun w = mkRun (Extracted d) true ->
               noPrice (Fii.Raw.cotacao d) = false ->
               (if Fii.browser w && closed (Fii.fiiRun w) then
                  match page (Fii.fiiRun w) with
                  | Extracted d =>
                    if noPrice (Fii.Raw.cotacao d)
                    then mkResponse 404 (ErrorBody (lit "Dados essenciais (cotação) não encontrados."))
                    else mkResponse 200 (DataBody (Fii.report toUpperCase (c :: t) d))
                  | Threw => mkResponse 500 (ErrorBody (lit "Erro ao buscar dados de FII."))
                  end
                else mkResponse 500 (ErrorBody (lit "Erro ao buscar dados de FII.")))
               = mkResponse 200 (DataBody (Fii.report toUpperCase s d))).
    { intros s d [= <-] Hb Hr Hp. rewrite Hb, Hr. cbn [closed page andb]. rewrite Hp. reflexivity. }
    split; [|split; [|split; [|split; [|exact L]]]]; clear L.
    all: destruct (Fii.browser w), (closed (Fii.fiiRun w)); cbn [andb].
    all: try (destruct (page (Fii.fiiRun w)) as [d|];
              [destruct (noPrice (Fii.Raw.cotacao d)) eqn:P;
               [|generalize (Fii.report toUpperCase (c :: t) d); intros R]|]).
    all: cbn [status].
    all: lazymatch goal with
         | |- _ <-> _ => split; intros H
         | |- _ -> _ => intros H
         end.
    all: try discriminate H.
    all: lazymatch goal with
         | |- @eq (Response _) _ _ => reflexivity
         | |- @eq N _ _ => try reflexivity
         | |- _ => idtac
         end.
    all: try (left; reflexivity); try (right; reflexivity).
    all: try (right; left; reflexivity); try (right; right; reflexivity).
    all: try (destruct H as [H | [H | H]]; discriminate H).
    all: try (destruct H as (H1 & H2 & d' & H3 & H4); congruence).
    all: try (repeat split; exists d; split; [reflexivity | exact P]).
Qed.

Lemma fii_report_cells (ticker : jsstring) (rawData : Fii.Raw.t) :
  fiiCells (Fii.report toUpperCase ticker rawData) =
  let m := Fii.magicNumber (Scraper.strToNumber (Fii.Raw.cotacao rawData))
             (Scraper.strToNumber (Fii.Raw.ultimoRendimento rawData)) in
  [mkCell (orElse (Fii.Raw.cotacao rawData) (lit "-")) neutral;
   mkCell (orElse (Fii.Raw.pvp rawData) (lit "-"))
          (Fii.pvpClass (Scraper.strToNumber (Fii.Raw.pvp rawData)));
   mkCell (orElse (Fii.Raw.dy rawData) (lit "-")) neutral;
   mkCell (orElse (Fii.Raw.liquidezDiaria rawData) (lit "-")) neutral;
   mkCell (orElse (Fii.Raw.valorMercado rawData) (lit "-")) neutral;
   mkCell (orElse (Fii.Raw.ultimoRendimento rawData) (lit "-")) neutral;
   mkCell (orElse (Fii.Raw.y1m rawData) (lit "-")) neutral;
   mkCell (fst m) neutral;
   mkCell (snd m) neutral;
   mkCell (orElse (Fii.Raw.valorPatrimonial rawData) (lit "-")) neutral;
   mkCell (orElse (Fii.Raw.vpa rawData) (lit "-")) neutral;
   mkCell (orElse (Fii.Raw.vacancia rawData) (lit "-")) neutral;
   mkCell (orElse (Fii.Raw.numCotistas rawData) (lit "-")) neutral;
   mkCell (orElse (Fii.Raw.cotasEmitidas rawData) (lit "-")) neutral;
   mkCell (orElse (Fii.Raw.segmento rawData) (lit "-")) neutral;
   mkCell (orElse (Fii.Raw.tipoFundo rawData) (lit "-")) neutral;
   mkCell (orElse (Fii.Raw.tipoGestao rawData) (lit "-")) neutral;
   mkCell (orElse (Fii.Raw.taxaAdm rawData) (lit "-")) neutral].
Proof.
  unfold Fii.report, fiiCells. cbv zeta.
  destruct (Fii.magicNumber _ _) as [ebn vn]. reflexivity.
Qed.

(** X8: in a /buscar-fii report [ebn] and [vn] are '-' together or shown
    together, and they are shown exactly when the price and the last income
    both normalize to numbers above zero; no cell has an empty value, and
    every cell other than [pvp] is neutral. *)
Theorem fii_magic_number (ticker : jsstring) (rawData : Fii.Raw.t) :
  (value (Fii.Resp.ebn (Fii.report toUpperCase ticker rawData)) = lit "-" <->
   value (Fii.Resp.vn (Fii.report toUpperCase ticker rawData)) = lit "-") /\
  (value (Fii.Resp.ebn (Fii.report toUpperCase ticker rawData)) <> lit "-" <->
     exists c u,
       Scraper.strToNumber (Fii.Raw.cotacao rawData) = Some c /\
       Scraper.strToNumber (Fii.Raw.ultimoRendimento rawData) = Some u /\
       gt c 0 = true /\ gt u 0 = true) /\
  Forall (fun c => value c <> []) (fiiCells (Fii.report toUpperCase ticker rawData)) /\
  Forall (fun c => c = Fii.Resp.pvp (Fii.report toUpperCase ticker rawData)
                   \/ class c = neutral)
         (fiiCells (Fii.report toUpperCase ticker rawData)).
Proof.
  rewrite fii_report_cells. cbv zeta.
  assert (Eb : value (Fii.Resp.ebn (Fii.report toUpperCase ticker rawData)) =
               fst (Fii.magicNumber (Scraper.strToNumber (Fii.Raw.cotacao rawData))
                      (Scraper.strToNumber (Fii.Raw.ultimoRendimento rawData)))).
  { unfold Fii.report. destruct (Fii.magicNumber _ _). reflexivity. }
  assert (Ev : value (Fii.Resp.vn (Fii.report toUpperCase ticker rawData)) =
               snd (Fii.magicNumber (Scraper.strToNumber (Fii.Raw.cotacao rawData))
                      (Scraper.strToNumber (Fii.Raw.ultimoRendimento rawData)))).
  { unfold Fii.report. destruct (Fii.magicNumber _ _). reflexivity. }
  assert (Ep : Fii.Resp.pvp (Fii.report toUpperCase ticker rawData) =
               mkCell (orElse (Fii.Raw.pvp rawData) (lit "-"))
                      (Fii.pvpClass (Scraper.strToNumber (Fii.Raw.pvp rawData)))).
  { unfold Fii.report. destruct (Fii.magicNumber _ _). reflexivity. }
  rewrite Eb, Ev, Ep. clear Eb Ev Ep.
  destruct (magicNumber_cases (Scraper.strToNumber (Fii.Raw.cotacao rawData))
              (Scraper.strToNumber (Fii.Raw.ultimoRendimento rawData)))
    as (F1 & F2 & C).
  generalize dependent (Fii.magicNumber (Scraper.strToNumber (Fii.Raw.cotacao rawData))
              (Scraper.strToNumber (Fii.Raw.ultimoRendimento rawData))).
  intros m F1 F2 C.
  assert (D : lit "-" <> []) by (change (lit "-") with [45]; discriminate).
  split; [|split; [|split]].
  - destruct C as [(x & y & _ & _ & _ & _ & N1 & N2) | (_ & ->)]; [|tauto].
    split; intros H; contradiction.
  - destruct C as [(x & y & Ec & Eu & Gx & Gy & N1 & N2) | (No & ->)].
    + split; [intros _; exists x, y; repeat split; assumption | intros _; exact N1].
    + split; [intros H; now elim H|].
      intros (c & u & Ec & Eu & Gc & Gu). specialize (No c u Ec Eu).
      rewrite Gc, Gu in No. discriminate.
  - repeat (apply Forall_cons; [cbn [value]; first [exact F1 | exact F2 | apply orElse_filled, D]|]).
    constructor.
  - repeat (apply Forall_cons; [first [right; reflexivity | left; reflexivity]|]).
    constructor.
Qed.

End FundReports.

(** X9: the price-to-book verdict of a fund is favorable exactly when the
    verdict of [classifyIndicator] for 'pvp' is, unfavorable whenever that
    one is, and unfavorable exactly for numbers above 1.05. *)
Theorem fii_pvp_class (valueStr : jsval) :
  (Fii.pvpClass (Scraper.strToNumber valueStr) = good <->
     Scraper.classifyIndicator (lit "pvp") valueStr = good) /\
  (Scraper.classifyIndicator (lit "pvp") valueStr = bad ->
     Fii.pvpClass (Scraper.strToNumber valueStr) = bad) /\
  (Fii.pvpClass (Scraper.strToNumber valueStr) = bad <->
     exists v, Scraper.strToNumber valueStr = Some v /\ gt v 1.05 = true).
Proof.
  unfold Scraper.classifyIndicator, Fii.pvpClass.
  destruct (Scraper.strToNumber valueStr) as [v|].
  2:{ repeat split; try discriminate. intros (v & H & _). discriminate. }
  eval_cases.
  destruct (lt v 1) eqn:A, (gt v 1.05) eqn:B, (gt v 1.5) eqn:C;
    repeat split; intros; try discriminate; try reflexivity;
    try (eexists; split; [reflexivity | assumption]);
    try (match goal with H : exists _, _ |- _ => destruct H as (? & [= <-] & ?); congruence end);
    exfalso; float_order.
Qed.

Section Accounts.

Variable sameEmail : jsstring -> jsstring -> bool.
Variable hash : jsstring -> jsstring -> jsstring.
Variable compare : jsstring -> jsstring -> bool.
Variable texts : Auth.Texts.

Lemma select_app (t1 t2 : list Auth.User.t) (e : jsstring) :
  Auth.select sameEmail (t1 ++ t2) e = Auth.select sameEmail t1 e ++ Auth.select sameEmail t2 e.
Proof. apply filter_app. Qed.

Lemma select_cases (email password : jsval) (w : Auth.World) (t0 : list Auth.User.t) :
  (exists e p s,
     email = JStr e /\ password = JStr p /\ Auth.salt w = Some s /\
     Auth.select sameEmail t0 e = [] /\
     Auth.registerSelect sameEmail hash texts email password w t0
     = Auth.Inserting e (hash p s)) \/
  (exists r,
     Auth.registerSelect sameEmail hash texts email password w t0 = Auth.Answered r /\
     status r <> 201).
Proof.
  unfold Auth.registerSelect.
  destruct (negb (Js.truthy email) || negb (Js.truthy password)).
  { right. eexists. split; [reflexivity | discriminate]. }
  destruct email as [| |e]; try (right; eexists; split; [reflexivity | discriminate]).
  destruct password as [| |p]; try (right; eexists; split; [reflexivity | discriminate]).
  destruct (Auth.selectOk w); [|right; eexists; split; [reflexivity | discriminate]].
  destruct (Auth.select sameEmail t0 e) as [|u us] eqn:S;
    [|right; eexists; split; [reflexivity | discriminate]].
  destruct (Auth.salt w) as [s|] eqn:Hs; [|right; eexists; split; [reflexivity | discriminate]].
  left. exists e, p, s. repeat split; try reflexivity. exact S.
Qed.

Lemma register_cases (email password : jsval) (w : Auth.World) (t0 t1 : list Auth.User.t) :
  (exists e p s i,
     email = JStr e /\ password = JStr p /\ Auth.salt w = Some s /\ Auth.inserted w = Some i /\
     Auth.select sameEmail t0 e = [] /\
     Auth.registerSelect sameEmail hash texts email password w t0
     = Auth.Inserting e (hash p s) /\
     Auth.registerInsert texts
       (Auth.registerSelect sameEmail hash texts email password w t0) w t1 =
     (mkResponse 201 (DataBody (Auth.created texts)),
      t1 ++ [Auth.User.mk i e (hash p s)])) \/
  (exists r,
     Auth.registerInsert texts
       (Auth.registerSelect sameEmail hash texts email password w t0) w t1 = (r, t1) /\
     status r <> 201).
Proof.
  destruct (select_cases email password w t0)
    as [(e & p & s & -> & -> & Hs & S & E) | (r & E & N)]; rewrite E; cbn [Auth.registerInsert].
  - destruct (Auth.inserted w) as [i|] eqn:Hi.
    + left. exists e, p, s, i. repeat split; assumption.
    + right. eexists. split; [reflexivity | discriminate].
  - right. exists r. split; [reflexivity | exact N].
Qed.

(** Appending a row keeps the table at one account per email exactly when
    no row answered to its email. *)
Lemma one_more (table : list Auth.User.t) (u : Auth.User.t) :
  (forall a, sameEmail a a = true) ->
  (forall a b, sameEmail a b = true -> sameEmail b a = true) ->
  (forall a b c, sameEmail a b = true -> sameEmail b c = true -> sameEmail a c = true) ->
  (oneAccountPerEmail sameEmail (table ++ [u]) <->
   oneAccountPerEmail sameEmail table /\ Auth.select sameEmail table (Auth.User.email u) = []).
Proof.
  intros Refl Sym Trans. unfold oneAccountPerEmail. split.
  - intros One. split.
    + intros e. specialize (One e). rewrite select_app, length_app in One. lia.
    + specialize (One (Auth.User.email u)). rewrite select_app, length_app in One.
      unfold Auth.select at 2 in One. cbn [filter] in One. rewrite Refl in One.
      cbn [length] in One.
      destruct (Auth.select sameEmail table (Auth.User.email u)); [reflexivity|].
      cbn [length] in One. lia.
  - intros [One S] e'. rewrite select_app, length_app.
    unfold Auth.select at 2. cbn [filter].
    destruct (sameEmail (Auth.User.email u) e') eqn:E; [|cbn [length]; specialize (One e'); lia].
    assert (Z : Auth.select sameEmail table e' = []).
    { destruct (Auth.select sameEmail table e') as [|v vs] eqn:S'; [reflexivity | exfalso].
      assert (In v (Auth.select sameEmail table e')) by (rewrite S'; left; reflexivity).
      unfold Auth.select in H. apply filter_In in H as [Hin Hv].
      assert (Hve : sameEmail (Auth.User.email v) (Auth.User.email u) = true)
        by (apply (Trans _ e'); [exact Hv | apply Sym, E]).
      assert (In v (Auth.select sameEmail table (Auth.User.email u)))
        by (unfold Auth.select; apply filter_In; split; assumption).
      rewrite S in H. contradiction. }
    rewrite Z. cbn [length]. lia.
Qed.

(** X10: /register tests and inserts in two queries, with no transaction
    around them.  For a comparison of emails that is an equivalence: a
    request that runs alone keeps the table at one account per email; in
    general the table changes only on a 201, by one appended row holding the
    email and a hash of the password, and it stays at one account per email
    exactly when no row for that email came in between the SELECT and the
    INSERT; two requests for one email whose SELECTs both run before the
    INSERTs are both answered 201 and leave two rows for it. *)
Theorem register_keeps_one_account (email password : jsval) (w : Auth.World)
    (t0 t1 : list Auth.User.t) :
  (forall a, sameEmail a a = true) ->
  (forall a b, sameEmail a b = true -> sameEmail b a = true) ->
  (forall a b c, sameEmail a b = true -> sameEmail b c = true -> sameEmail a c = true) ->
  (oneAccountPerEmail sameEmail t0 ->
   oneAccountPerEmail sameEmail
     (snd (Auth.register sameEmail hash texts email password w t0))) /\
  (status (fst (Auth.registerInsert texts
                  (Auth.registerSelect sameEmail hash texts email password w t0) w t1)) <> 201 ->
   snd (Auth.registerInsert texts
          (Auth.registerSelect sameEmail hash texts email password w t0) w t1) = t1) /\
  (status (fst (Auth.registerInsert texts
                  (Auth.registerSelect sameEmail hash texts email password w t0) w t1)) = 201 ->
   exists e p s i,
     email = JStr e /\ password = JStr p /\ Auth.salt w = Some s /\ Auth.inserted w = Some i /\
     Auth.select sameEmail t0 e = [] /\
     snd (Auth.registerInsert texts
            (Auth.registerSelect sameEmail hash texts email password w t0) w t1)
     = t1 ++ [Auth.User.mk i e (hash p s)] /\
     (oneAccountPerEmail sameEmail (t1 ++ [Auth.User.mk i e (hash p s)]) <->
      oneAccountPerEmail sameEmail t1 /\ Auth.select sameEmail t1 e = [])) /\
  (forall password' w',
     status (fst (Auth.register sameEmail hash texts email password w t0)) = 201 ->
     status (fst (Auth.register sameEmail hash texts email password' w' t0)) = 201 ->
     status (fst (Auth.registerInsert texts
                    (Auth.registerSelect sameEmail hash texts email password' w' t0) w'
                    (snd (Auth.register sameEmail hash texts email password w t0)))) = 201 /\
     ~ oneAccountPerEmail sameEmail
         (snd (Auth.registerInsert texts
                 (Auth.registerSelect sameEmail hash texts email password' w' t0) w'
                 (snd (Auth.register sameEmail hash texts email password w t0))))).
Proof.
  intros Refl Sym Trans.
  split; [|split; [|split]].
  - intros One. unfold Auth.register.
    destruct (register_cases email password w t0 t0)
      as [(e & p & s & i & -> & -> & Hs & Hi & S & _ & ->) | (r & -> & N)]; cbn [fst snd].
    + apply (one_more t0 (Auth.User.mk i e (hash p s)) Refl Sym Trans). split; assumption.
    + exact One.
  - destruct (register_cases email password w t0 t1)
      as [(e & p & s & i & -> & -> & Hs & Hi & S & _ & ->) | (r & -> & N)]; cbn [fst snd status].
    + intros H. now elim H.
    + reflexivity.
  - destruct (register_cases email password w t0 t1)
      as [(e & p & s & i & -> & -> & Hs & Hi & S & _ & ->) | (r & -> & N)]; cbn [fst snd status].
    + intros _. exists e, p, s, i.
      split; [reflexivity|]. split; [reflexivity|]. split; [exact Hs|]. split; [exact Hi|].
      split; [exact S|]. split; [reflexivity|].
      apply (one_more t1 (Auth.User.mk i e (hash p s)) Refl Sym Trans).
    + intros H. contradiction.
  - intros password' w'. unfold Auth.register.
    destruct (register_cases email password w t0 t0)
      as [(e & p & s & i & -> & -> & Hs & Hi & S & _ & ->) | (r & -> & N)]; cbn [fst snd status];
      [intros _ | intros H; contradiction].
    destruct (register_cases (JStr e) password' w' t0 t0)
      as [(e' & p' & s' & i' & [= <-] & -> & Hs' & Hi' & _ & E0 & ->) | (r & -> & N)];
      cbn [fst snd status]; [intros _ | intros H; contradiction].
    rewrite E0. cbn [Auth.registerInsert]. rewrite Hi'. cbn [fst snd status].
    split; [reflexivity|].
    intros One.
    apply (one_more _ _ Refl Sym Trans) in One as [_ One].
    cbn [Auth.User.email] in One. rewrite select_app in One.
    unfold Auth.select at 2 in One. cbn [filter Auth.User.email] in One.
    rewrite Refl in One. apply app_eq_nil in One as [_ One]. discriminate.
Qed.

(** X11: round trip of an account, for a comparison of emails that is
    reflexive and a [bcrypt.compare] that accepts the hashes of
    [bcrypt.hash].  After a /register that answered 201, as long as the
    query and the comparison complete, a /login with the same email and
    password is answered 200 with the new row's id and email when no row for
    the email was in the table at the INSERT, whatever rows were appended
    since; when one was (a request for the same email got in between), the
    login is judged against that row: it is refused, or it opens the other
    account. *)
Theorem register_then_login (e p : jsstring) (w w' : Auth.World)
    (t0 t1 later : list Auth.User.t) :
  (forall a, sameEmail a a = true) ->
  (forall password s, compare password (hash password s) = true) ->
  status (fst (Auth.registerInsert texts
                 (Auth.registerSelect sameEmail hash texts (JStr e) (JStr p) w t0) w t1)) = 201 ->
  Auth.selectOk w' = true -> Auth.compareOk w' = true ->
  exists i s,
    Auth.inserted w = Some i /\ Auth.salt w = Some s /\
    snd (Auth.registerInsert texts
           (Auth.registerSelect sameEmail hash texts (JStr e) (JStr p) w t0) w t1)
    = t1 ++ [Auth.User.mk i e (hash p s)] /\
    (Auth.select sameEmail t1 e = [] ->
     Auth.login sameEmail compare texts (JStr e) (JStr p) w'
       ((t1 ++ [Auth.User.mk i e (hash p s)]) ++ later)
     = mkResponse 200 (DataBody (Auth.mkSession (Auth.logged texts) i e))) /\
    (forall u us,
       Auth.select sameEmail t1 e = u :: us ->
       Auth.login sameEmail compare texts (JStr e) (JStr p) w'
         ((t1 ++ [Auth.User.mk i e (hash p s)]) ++ later)
       = if compare p (Auth.User.password_hash u)
         then mkResponse 200
                (DataBody (Auth.mkSession (Auth.logged texts) (Auth.User.id u)
                             (Auth.User.email u)))
         else mkResponse 401 (ErrorBody (Auth.incorrect texts))).
Proof.
  intros Refl Ok R S C.
  destruct (register_cases (JStr e) (JStr p) w t0 t1)
    as [(e0 & p0 & s & i & [= <-] & [= <-] & Hs & Hi & Sel & _ & E) | (r & E & N)];
    rewrite E in *; cbn [fst snd status] in *; [|contradiction].
  exists i, s. split; [exact Hi|]. split; [exact Hs|]. split; [reflexivity|].
  unfold Auth.login. rewrite S, C, !select_app. split.
  - intros ->. unfold Auth.select at 1. cbn [filter app Auth.User.email].
    rewrite Refl. cbn [app Auth.User.email Auth.User.password_hash Auth.User.id].
    rewrite Ok. reflexivity.
  - intros u us ->. cbn [app].
    destruct (compare p (Auth.User.password_hash u)); reflexivity.
Qed.

(** X12: /login answers 200 exactly when the query completes, finds a
    row, and [bcrypt.compare] completes and accepts the password against the
    first row's hash; the session it sends holds the id and email of a row
    of the table; and every 401 is the same answer, for an unknown email as
    for a wrong password. *)
Theorem login_outcome (email password : jsval) (w : Auth.World) (table : list Auth.User.t) :
  (status (Auth.login sameEmail compare texts email password w table) = 200 <->
     exists e p user rest,
       email = JStr e /\ password = JStr p /\
       Auth.selectOk w = true /\ Auth.compareOk w = true /\
       Auth.select sameEmail table e = user :: rest /\
       compare p (Auth.User.password_hash user) = true) /\
  (forall session,
     body (Auth.login sameEmail compare texts email password w table) = DataBody session ->
     exists user,
       In user table /\
       session = Auth.mkSession (Auth.logged texts) (Auth.User.id user) (Auth.User.email user)) /\
  (status (Auth.login sameEmail compare texts email password w table) = 401 ->
   Auth.login sameEmail compare texts email password w table
   = mkResponse 401 (ErrorBody (Auth.incorrect texts))).
Proof.
  unfold Auth.login.
  destruct email as [| |e]; cbn [status body].
  1:{ split; [split; [discriminate | intros (? & ? & ? & ? & ? & _); discriminate]|].
      split; [discriminate | discriminate]. }
  1:{ destruct (Auth.selectOk w); cbn [status body];
        (split; [split; [discriminate | intros (? & ? & ? & ? & ? & _); discriminate]|]);
        (split; [discriminate|]); [reflexivity | discriminate]. }
  destruct (Auth.selectOk w) eqn:S; cbn [status body].
  2:{ split; [split; [discriminate | intros (? & ? & ? & ? & ? & ? & ? & _); discriminate]|].
      split; [discriminate | discriminate]. }
  destruct (Auth.select sameEmail table e) as [|user rest] eqn:Sel; cbn [status body].
  1:{ split; [split; [discriminate|]|split; [discriminate | reflexivity]].
      intros (e0 & ? & ? & ? & [= <-] & _ & _ & _ & H & _). rewrite Sel in H. discriminate. }
  assert (Hin : In user table).
  { assert (I' : In user (Auth.select sameEmail table e)) by (rewrite Sel; left; reflexivity).
    unfold Auth.select in I'. apply filter_In in I'. apply I'. }
  destruct password as [| |p]; cbn [status body].
  1,2: split; [split; [discriminate | intros (? & ? & ? & ? & ? & ? & _); discriminate]|];
       split; [discriminate | discriminate].
  destruct (Auth.compareOk w) eqn:C; cbn [status body].
  2:{ split; [split; [discriminate | intros (? & ? & ? & ? & ? & ? & ? & ? & _); discriminate]|].
      split; [discriminate | discriminate]. }
  destruct (compare p (Auth.User.password_hash user)) eqn:K; cbn [status body].
  - split; [split; [intros _|reflexivity]|split; [|discriminate]].
    + exists e, p, user, rest. repeat split; assumption.
    + intros session [= <-]. exists user. split; [exact Hin | reflexivity].
  - split; [split; [discriminate|]|split; [discriminate | reflexivity]].
    intros (e0 & p0 & u0 & r0 & [= <-] & [= <-] & _ & _ & H & K').
    rewrite Sel in H. injection H as <- <-. congruence.
Qed.

End Accounts.

Module Kept.

Import Browser.

Lemma run_app {B : Type} (step : state B -> event B -> state B * list (effect B))
    (s : state B) (a b : list (event B)) :
  run step s (a ++ b) =
  (fst (run step (fst (run step s a)) b),
   snd (run step s a) ++ snd (run step (fst (run step s a)) b)).
Proof.
  revert s. induction a as [|ev a IH]; intros s; cbn [app run fst snd].
  - destruct (run step s b). reflexivity.
  - destruct (step s ev) as [s1 l1]. rewrite IH.
    destruct (run step s1 a) as [s2 l2]. cbn [fst snd]. rewrite app_assoc. reflexivity.
Qed.

Lemma launches_app {B : Type} (a b : list (effect B)) :
  launches (a ++ b) = (launches a + launches b)%nat.
Proof.
  induction a as [|e a IH]; [reflexivity|]. destruct e; cbn [app launches]; rewrite IH; reflexivity.
Qed.

Lemma returned_app {B : Type} (a b : list (effect B)) :
  returned (a ++ b) = returned a ++ returned b.
Proof.
  induction a as [|e a IH]; [reflexivity|]. destruct e; cbn [app returned]; rewrite IH; reflexivity.
Qed.

(** Once a browser is kept, src/scraper.js launches no other. *)
Lemma kept_stays {B : Type} (evs : list (event B)) (s : state B) (b : B) :
  browser s = Some b ->
  launches (snd (run getBrowser s evs)) = 0%nat /\
  browser (fst (run getBrowser s evs)) <> None.
Proof.
  revert s b. induction evs as [|ev evs IH]; intros s b Hb.
  - cbn [run fst snd launches]. split; [reflexivity | congruence].
  - cbn [run]. destruct ev as [c| |r]; cbn [getBrowser].
    + rewrite Hb. destruct (IH s b Hb) as [L K].
      destruct (run getBrowser s evs) as [s2 l2]. cbn [fst snd app launches] in *.
      split; assumption.
    + destruct (IH s b Hb) as [L K].
      destruct (run getBrowser s evs) as [s2 l2]. cbn [fst snd app] in *. split; assumption.
    + unfold settle. destruct (launching s) as [|n].
      * destruct (IH s b Hb) as [L K].
        destruct (run getBrowser s evs) as [s2 l2]. cbn [fst snd app] in *. split; assumption.
      * destruct r as [b'|].
        -- destruct (IH (mkState (Some b') (closing s) n) b' eq_refl) as [L K].
           destruct (run getBrowser _ evs) as [s2 l2]. cbn [fst snd app launches] in *.
           split; assumption.
        -- destruct (IH (mkState (browser s) (closing s) n) b Hb) as [L K].
           destruct (run getBrowser _ evs) as [s2 l2]. cbn [fst snd app launches] in *.
           split; assumption.
Qed.

(** Calls that do not overlap, once a browser is kept. *)
Lemma alone_kept {B : Type} (b : B) (ws : list (World B)) :
  run getBrowser (mkState (Some b) 0 0) (flat_map alone ws)
  = (mkState (Some b) 0 0, map Return (repeat b (length ws))).
Proof.
  induction ws as [|w ws IH]; [reflexivity|].
  cbn [flat_map alone app run getBrowser browser settle launching].
  rewrite IH. reflexivity.
Qed.

Lemma alone_cold {B : Type} (w : World B) :
  run getBrowser cold (alone w) =
  match launch w with
  | Some b => (mkState (Some b) 0 0, [Launch; Return b])
  | None => (cold, [Launch; Throw])
  end.
Proof. unfold alone, cold. cbn. destruct (launch w); reflexivity. Qed.

Lemma returned_returns {B : Type} (bs : list B) : returned (map Return bs) = bs.
Proof. induction bs as [|b bs IH]; [reflexivity|]. cbn [map returned]. rewrite IH. reflexivity. Qed.

(** Calls that arrive while no browser is kept all launch. *)
Lemma calls_cold {B : Type} (cs : list bool) (n : nat) :
  run getBrowser (mkState (@None B) 0 n) (map Call cs)
  = (mkState None 0 (length cs + n), repeat Launch (length cs)).
Proof.
  revert n. induction cs as [|c cs IH]; intros n; [reflexivity|].
  cbn [map run getBrowser browser closing launching]. rewrite IH.
  cbn [length repeat app Nat.add]. rewrite Nat.add_succ_r. reflexivity.
Qed.

Lemma last_cons {A : Type} (x : A) (l : list A) (d : A) : last (x :: l) d = last l x.
Proof.
  revert x d. induction l as [|y l IH]; intros x d; [reflexivity|].
  change (last (x :: y :: l) d) with (last (y :: l) d). rewrite !IH. reflexivity.
Qed.

(** The launches of suspended calls settle one after the other. *)
Lemma settles {B : Type} (bs : list B) (kept : option B) (j : nat) :
  run getBrowser (mkState kept 0 (length bs + j)) (map (fun b => Launched (Some b)) bs)
  = (mkState (last (map Some bs) kept) 0 j, map Return bs).
Proof.
  revert kept. induction bs as [|b bs IH]; intros kept; [reflexivity|].
  cbn [map run getBrowser settle launching closing length Nat.add]. rewrite IH.
  cbn [app]. rewrite last_cons. reflexivity.
Qed.

End Kept.

Import Kept.

(** X13: the [getBrowser] of the full server keeps a browser for good once
    a launch has completed: from then on no call launches again, whatever
    the interleaving.  Calls that do not overlap therefore all get the first
    browser launched.  But calls that arrive before the first launch has
    completed launch one browser each: every call gets its own, and the
    variable keeps the last one. *)
Theorem getBrowser_one_browser {B : Type} :
  (forall (s : Browser.state B) (evs : list (Browser.event B)) (b : B),
     Browser.browser s = Some b ->
     Browser.launches (snd (Browser.run Browser.getBrowser s evs)) = 0%nat /\
     Browser.browser (fst (Browser.run Browser.getBrowser s evs)) <> None) /\
  (forall ws : list (Browser.World B),
     Browser.returned
       (snd (Browser.run Browser.getBrowser Browser.cold (flat_map Browser.alone ws))) =
     match firstLaunch ws with
     | Some b =>
       repeat b (length (Browser.returned
                           (snd (Browser.run Browser.getBrowser Browser.cold
                                   (flat_map Browser.alone ws)))))
     | None => []
     end) /\
  (forall (cs : list bool) (bs : list B),
     length cs = length bs ->
     Browser.run Browser.getBrowser Browser.cold
       (map Browser.Call cs ++ map (fun b => Browser.Launched (Some b)) bs) =
     (Browser.mkState (last (map Some bs) None) 0 0,
      repeat Browser.Launch (length bs) ++ map Browser.Return bs)).
Proof.
  split; [|split].
  - intros s evs b. apply kept_stays.
  - intros ws. induction ws as [|w ws IH]; [reflexivity|].
    cbn [flat_map firstLaunch]. rewrite run_app, alone_cold. cbn [fst snd].
    destruct (Browser.launch w) as [b|]; cbn [fst snd app Browser.returned].
    + rewrite alone_kept. cbn [snd].
      rewrite returned_returns. cbn [length repeat]. rewrite repeat_length. reflexivity.
    + exact IH.
  - intros cs bs H. rewrite run_app. unfold Browser.cold.
    rewrite (calls_cold cs 0). cbn [fst snd]. rewrite H.
    rewrite (settles bs None 0). reflexivity.
Qed.

(** X14: the [getBrowser] of the reduced server.  Whatever the
    interleaving, the browser a call returns is the kept one at that moment,
    and it is the browser that was kept when the call started, reporting
    connected, or the one the call's own launch gave.  A call that runs
    alone returns the kept browser when it is connected, and otherwise
    closes it, launches another and keeps what the launch gave (nothing when
    it throws).  Over calls that all find the browser connected the turns
    are those of the full server's [getBrowser].  But when two calls both
    find the kept browser disconnected, both close it and both launch, and
    the second one, setting the variable to [null] after its [close()],
    forgets the browser the first one has just returned. *)
Theorem serverGetBrowser_connected {B : Type} :
  (forall (s : Browser.state B) (ev : Browser.event B) (b : B),
     In (Browser.Return b) (snd (Browser.serverGetBrowser s ev)) ->
     Browser.browser (fst (Browser.serverGetBrowser s ev)) = Some b /\
     ((ev = Browser.Call true /\ Browser.browser s = Some b) \/
      ev = Browser.Launched (Some b))) /\
  (forall (kept : option B) (w : Browser.World B),
     Browser.run Browser.serverGetBrowser (Browser.mkState kept 0 0) (Browser.alone w) =
     let launched :=
       match Browser.launch w with
       | Some b => Browser.Return b
       | None => Browser.Throw
       end in
     match kept with
     | Some b =>
       if Browser.isConnected w
       then (Browser.mkState (Some b) 0 0, [Browser.Return b])
       else (Browser.mkState (Browser.launch w) 0 0,
             [Browser.Close b; Browser.Launch; launched])
     | None => (Browser.mkState (Browser.launch w) 0 0, [Browser.Launch; launched])
     end) /\
  (forall (s : Browser.state B) (evs : list (Browser.event B)),
     Browser.closing s = 0%nat ->
     Forall (fun ev => ev <> Browser.Call false) evs ->
     Browser.run Browser.serverGetBrowser s evs = Browser.run Browser.getBrowser s evs) /\
  (forall b0 b1 b2 : B,
     Browser.run Browser.serverGetBrowser (Browser.mkState (Some b0) 0 0)
       [Browser.Call false; Browser.Call false; Browser.Closed;
        Browser.Launched (Some b1); Browser.Closed; Browser.Launched (Some b2)] =
     (Browser.mkState (Some b2) 0 0,
      [Browser.Close b0; Browser.Close b0; Browser.Launch; Browser.Return b1;
       Browser.Launch; Browser.Return b2])).
Proof.
  split; [|split; [|split]].
  - intros s ev b. destruct ev as [c| |r]; cbn [Browser.serverGetBrowser].
    + destruct (Browser.browser s) as [b0|] eqn:K; [destruct c|]; cbn [fst snd In].
      * intros [[= <-] | []]. split; [exact K|]. left. split; reflexivity.
      * intros [H | []]. discriminate H.
      * intros [H | []]. discriminate H.
    + destruct (Browser.closing s); cbn [fst snd In]; [intros [] | intros [H | []]; discriminate H].
    + unfold Browser.settle. destruct (Browser.launching s); [intros []|].
      destruct r as [b'|]; cbn [fst snd In Browser.browser].
      * intros [[= <-] | []]. split; [reflexivity|]. right. reflexivity.
      * intros [H | []]. discriminate H.
  - intros kept w. unfold Browser.alone. cbv zeta.
    destruct kept as [b|]; [destruct (Browser.isConnected w)|];
      cbn [Browser.run Browser.serverGetBrowser Browser.browser Browser.closing
           Browser.launching Browser.settle];
      destruct (Browser.launch w); reflexivity.
  - intros s evs C H. revert s C. induction H as [|ev evs Hev _ IH]; intros s C; [reflexivity|].
    cbn [Browser.run]. destruct ev as [c| |r]; cbn [Browser.serverGetBrowser Browser.getBrowser].
    + destruct (Browser.browser s) as [b|].
      * destruct c; [|now elim Hev]. rewrite (IH s C). reflexivity.
      * rewrite IH by exact C. reflexivity.
    + rewrite C. rewrite (IH s C). reflexivity.
    + unfold Browser.settle. destruct (Browser.launching s); [rewrite (IH s C); reflexivity|].
      destruct r; rewrite IH by exact C; reflexivity.
  - reflexivity.
Qed.

Section Spans.

Variable toLowerCase : jsstring -> jsstring.

(** X15: the loop of [scrapeAcoes] gives, for 'vpa' and for 'lpa', the
    trimmed text of the span after the first span that mentions it (in
    lower case) and is not the last, and [null] when there is none: the
    [break] and the [=== null] tests change nothing else; started from
    values that are not [null], it keeps them. *)
Theorem scrapeAcoes_first_match (spans : list jsstring) :
  Standalone.scan toLowerCase spans JNull JNull =
  (firstAfter toLowerCase (lit "vpa") spans, firstAfter toLowerCase (lit "lpa") spans) /\
  (forall vpa lpa,
     Standalone.scan toLowerCase spans vpa lpa =
     (orNull vpa (firstAfter toLowerCase (lit "vpa") spans),
      orNull lpa (firstAfter toLowerCase (lit "lpa") spans))).
Proof.
  assert (G : forall vpa lpa,
            Standalone.scan toLowerCase spans vpa lpa =
            (orNull vpa (firstAfter toLowerCase (lit "vpa") spans),
             orNull lpa (firstAfter toLowerCase (lit "lpa") spans))).
  { induction spans as [|span rest IH]; intros vpa lpa.
    - cbn [Standalone.scan firstAfter]. unfold orNull.
      destruct vpa, lpa; reflexivity.
    - cbn [Standalone.scan]. destruct rest as [|next rest'].
      + cbn [firstAfter Standalone.scan]. unfold orNull.
        destruct vpa as [| |[|? ?]], lpa as [| |[|? ?]]; reflexivity.
      + cbn [firstAfter].
        destruct (Standalone.includes (lit "vpa") (toLowerCase span)),
                 (Standalone.includes (lit "lpa") (toLowerCase span)),
                 vpa as [| |[|? ?]], lpa as [| |[|? ?]], (trim next) as [|? ?] eqn:T;
          cbn [andb Standalone.isNull Js.truthy]; rewrite ?IH; unfold orNull;
          cbn [Standalone.isNull]; rewrite ?T; reflexivity. }
  split; [rewrite G; reflexivity | exact G].
Qed.

End Spans.

Section Lifecycle.

Variable toUpperCase toLowerCase : jsstring -> jsstring.

Lemma scrapeWith_cases {A R : Type} (finish : A -> R) (w : Standalone.World A) :
  (forall r, fst (Standalone.scrapeWith finish w) = Standalone.Returned r ->
     snd (Standalone.scrapeWith finish w) = Standalone.Closed /\
     exists dados, Standalone.evaluate w = Extracted dados /\ r = finish dados) /\
  (forall m, fst (Standalone.scrapeWith finish w) = Standalone.Raised m ->
     snd (Standalone.scrapeWith finish w) = Standalone.Closed /\
     m = lit "Erro ao extrair os dados do site Investidor10") /\
  (snd (Standalone.scrapeWith finish w) = Standalone.Open <->
     Standalone.launch w = true /\
     (Standalone.newPage w = false \/ Standalone.goto w = false \/
      (Standalone.closeInCatch w = false /\
       (Standalone.evaluate w = Threw \/ Standalone.closeInTry w = false)))).
Proof.
  unfold Standalone.scrapeWith.
  destruct w as [l n g [d|] ct cc]; cbn [Standalone.launch Standalone.newPage Standalone.goto
    Standalone.evaluate Standalone.closeInTry Standalone.closeInCatch].
  all: destruct l, n, g, ct, cc; cbn [negb fst snd]; (split; [|split]).
  all: try (intros r H;
            first [ discriminate H
                  | injection H as <-; split; [reflexivity|];
                    first [reflexivity | exists d; split; reflexivity] ]).
  all: split; intros H.
  all: try discriminate H.
  all: try (match type of H with
            | _ /\ _ => destruct H as [H0 H1]; first
                [ discriminate H0
                | destruct H1 as [H1 | [H1 | (H1 & [H2 | H2])]]; discriminate ]
            end).
  all: try reflexivity.
  all: split; [reflexivity|].
  all: first [ left; reflexivity
             | right; left; reflexivity
             | right; right; split; [reflexivity | first [left; reflexivity | right; reflexivity]] ].
Qed.

(** X16: [scrapeAcoes] and [scrapeFIIs] return data only with the browser
    closed; the browser they launched is left open exactly when [newPage] or
    [goto] throws (outside [try]), or when the [catch] block's
    [browser.close()] throws after the extraction or the first close
    threw. *)
Theorem standalone_browser (ticker : jsstring) (wa : Standalone.World (list jsstring))
    (wf : Standalone.World Standalone.Dados.t) :
  (forall r, fst (Standalone.scrapeAcoes toLowerCase wa) = Standalone.Returned r ->
     snd (Standalone.scrapeAcoes toLowerCase wa) = Standalone.Closed) /\
  (forall r, fst (Standalone.scrapeFIIs toUpperCase ticker wf) = Standalone.Returned r ->
     snd (Standalone.scrapeFIIs toUpperCase ticker wf) = Standalone.Closed) /\
  (snd (Standalone.scrapeAcoes toLowerCase wa) = Standalone.Open <->
     Standalone.launch wa = true /\
     (Standalone.newPage wa = false \/ Standalone.goto wa = false \/
      (Standalone.closeInCatch wa = false /\
       (Standalone.evaluate wa = Threw \/ Standalone.closeInTry wa = false)))) /\
  (snd (Standalone.scrapeFIIs toUpperCase ticker wf) = Standalone.Open <->
     Standalone.launch wf = true /\
     (Standalone.newPage wf = false \/ Standalone.goto wf = false \/
      (Standalone.closeInCatch wf = false /\
       (Standalone.evaluate wf = Threw \/ Standalone.closeInTry wf = false)))).
Proof.
  unfold Standalone.scrapeAcoes, Standalone.scrapeFIIs.
  destruct (scrapeWith_cases (fun spans => Standalone.scan toLowerCase spans JNull JNull) wa)
    as (A1 & _ & A3).
  destruct (scrapeWith_cases (Standalone.finishFII toUpperCase ticker) wf) as (F1 & _ & F3).
  split; [intros r H; apply (A1 r H)|]. split; [intros r H; apply (F1 r H)|].
  split; assumption.
Qed.

End Lifecycle.

Module Plain.

Lemma kept_space (c : N) : isWhiteSpace c = true -> kept c = false.
Proof.
  intros W. unfold kept.
  destruct (isDigit c) eqn:D; [apply digit_not_space in D; congruence|].
  destruct (N.eqb_spec c 44) as [-> | _]; [discriminate W|].
  destruct (N.eqb_spec c 46) as [-> | _]; [discriminate W|].
  destruct (N.eqb_spec c 45) as [-> | _]; [discriminate W|]. reflexivity.
Qed.

Lemma filter_space (ws : jsstring) : allSpace ws -> filter kept ws = [].
Proof.
  induction 1 as [|c ws Hc _ IH]; [reflexivity|].
  cbn [filter]. rewrite (kept_space c Hc). exact IH.
Qed.

Lemma filter_digits (ds : jsstring) : allDigits ds -> filter kept ds = ds.
Proof.
  induction 1 as [|c ds Hc _ IH]; [reflexivity|].
  cbn [filter]. unfold kept at 1. rewrite Hc. cbn [orb]. rewrite IH. reflexivity.
Qed.

(** What is left of a text without grouping dots. *)
Lemma filter_render (l : Layout) (g : list N) :
  wellFormed l -> groups l = [g] ->
  filter kept (render l) = signText (negative l) ++ g ++ commaText (fraction l).
Proof.
  intros (Hlead & Hcur & Hgroups & Hfrac & Hgap & Htrail & Hdigit) G.
  rewrite G in Hgroups. inversion Hgroups as [|? ? Hg _]; subst.
  unfold render, amount. rewrite G. cbn [joinDots].
  rewrite !filter_app.
  rewrite (filter_space (lead l)) by exact Hlead.
  rewrite (filter_space (gap l)) by exact Hgap.
  rewrite (filter_space (trail l)) by exact Htrail.
  rewrite (filter_digits g) by exact Hg.
  assert (C : filter kept match currency l with Some ws => 82 :: 36 :: ws | None => [] end = []).
  { destruct (currency l) as [ws|]; [|reflexivity].
    cbn [filter]. change (kept 82) with false. change (kept 36) with false.
    apply filter_space, Hcur. }
  rewrite C.
  assert (S : filter kept (signText (negative l)) = signText (negative l))
    by (destruct (negative l); reflexivity).
  assert (P : filter kept (percentText (percent l)) = [])
    by (destruct (percent l); reflexivity).
  assert (F : filter kept (commaText (fraction l)) = commaText (fraction l)).
  { unfold fractionDigits in Hfrac. destruct (fraction l) as [f|]; [|reflexivity].
    cbn [commaText filter]. change (kept 44) with true. cbv iota.
    rewrite (filter_digits f) by exact Hfrac. reflexivity. }
  rewrite S, P, F. cbn [app]. rewrite !app_nil_r. reflexivity.
Qed.

Lemma numberOf_render (l : Layout) (g : list N) :
  wellFormed l -> groups l = [g] -> Standalone.numberOf (render l) = denoted l.
Proof.
  intros W G. unfold Standalone.numberOf. fold kept.
  change (fun c : N => isDigit c || (c =? 44) || (c =? 46) || (c =? 45)) with kept.
  rewrite (filter_render l g W G).
  destruct W as (Hlead & Hcur & Hgroups & Hfrac & Hgap & Htrail & Hdigit).
  rewrite G in Hgroups, Hdigit. inversion Hgroups as [|? ? Hg _]; subst.
  cbn [concat] in Hdigit. rewrite app_nil_r in Hdigit.
  assert (A : avoids 44 (signText (negative l) ++ g)).
  { apply avoids_app; [destruct (negative l); repeat constructor; discriminate|].
    apply digits_avoid; [reflexivity | exact Hg]. }
  assert (R : replaceFirst 44 [46] (signText (negative l) ++ g ++ commaText (fraction l))
              = signText (negative l) ++ g ++ pointText (fraction l)).
  { destruct (fraction l) as [f|]; cbn [commaText pointText].
    - rewrite app_assoc, (replaceFirst_first 44 [46] _ f A), <- app_assoc. reflexivity.
    - rewrite app_nil_r. apply replaceFirst_avoids, A. }
  rewrite R. unfold fractionDigits in *.
  rewrite parseFloat_decimal; [|exact Hg | exact Hfrac | exact Hdigit].
  unfold denoted, fractionDigits. rewrite G. cbn [concat]. rewrite app_nil_r. reflexivity.
Qed.

End Plain.

Import Plain.

Section FundTexts.

Variable toUpperCase : jsstring -> jsstring.

(** X17: on texts without grouping dots the stand-alone scraper reads the
    numbers [strToNumber] reads, and finds the same number of shares as the
    /buscar-fii route. *)
Theorem scrapeFIIs_agrees (lc lu : Layout) (gc gu : list N) (ticker dy pvp y1m : jsstring) :
  wellFormed lc -> groups lc = [gc] -> wellFormed lu -> groups lu = [gu] ->
  Scraper.strToNumber (JStr (render lc)) = Some (Standalone.numberOf (render lc)) /\
  Scraper.strToNumber (JStr (render lu)) = Some (Standalone.numberOf (render lu)) /\
  match Standalone.Fundo.ebn
          (Standalone.finishFII toUpperCase ticker
             (Standalone.Dados.mk (render lc) dy pvp (render lu) y1m)) with
  | Standalone.Dash =>
    fst (Fii.magicNumber (Scraper.strToNumber (JStr (render lc)))
           (Scraper.strToNumber (JStr (render lu)))) = lit "-"
  | Standalone.Count n =>
    fst (Fii.magicNumber (Scraper.strToNumber (JStr (render lc)))
           (Scraper.strToNumber (JStr (render lu)))) = Whole.toString n
  end.
Proof.
  intros Wc Gc Wu Gu.
  rewrite !strToNumber_render by assumption.
  rewrite (numberOf_render lc gc Wc Gc), (numberOf_render lu gu Wu Gu).
  split; [reflexivity|]. split; [reflexivity|].
  unfold Standalone.finishFII, Fii.magicNumber.
  cbn [Standalone.Dados.cotacao Standalone.Dados.ultimoRendimento].
  rewrite (numberOf_render lc gc Wc Gc), (numberOf_render lu gu Wu Gu).
  destruct (gt (denoted lc) 0 && gt (denoted lu) 0); reflexivity.
Qed.

End FundTexts.


#[local] Open Scope N_scope.

#[local] Open Scope float_scope.

(** X18: with the growth rate fixed, the revised Graham estimate does not
    decrease when the earnings per share grow. *)
Theorem revised_graham_monotone (lpa1 lpa2 : float) (cagrLucrosNum : option float)
    (r1 r2 : float) :
  Scraper.valorRevisadoGraham (Some lpa1) (Scraper.growth cagrLucrosNum) = Some r1 ->
  Scraper.valorRevisadoGraham (Some lpa2) (Scraper.growth cagrLucrosNum) = Some r2 ->
  isNaN r1 = false -> isNaN r2 = false ->
  le lpa1 lpa2 = true -> le r1 r2 = true.
Proof.
  rewrite !revisado_spec.
  destruct (gt lpa1 0); [|discriminate]. destruct (gt lpa2 0); [|discriminate].
  pose proof (growth_positive cagrLucrosNum) as G.
  generalize dependent (Scraper.growth cagrLucrosNum). intros g G H1 H2.
  apply (f_equal (fun o => match o with Some x => x | None => r1 end)) in H1.
  apply (f_equal (fun o => match o with Some x => x | None => r2 end)) in H2.
  cbv beta iota in H1, H2. subst r1 r2.
  unfold isNaN, le, gt in *. rewrite !is_nan_false, !leb_true. rewrite ltb_true in G.
  intros N1 N2 L.
  assert (K : FLe 0 (Scraper.PL_BASE_GRAHAM + 2 * g)).
  { apply add_nonneg; [|apply twice_nonneg, FLt_FLe, G].
    apply leb_true. vm_compute. reflexivity. }
  apply (div_le _ _ Scraper.TAXA_SELIC_ATUAL 8444249301319680 (-49)); [vm_compute; reflexivity|].
  apply mul_le.
  - apply mul_le; [exact L | exact K | |].
    + exact (mul_number_l _ _ (div_number _ _ N1)).
    + exact (mul_number_l _ _ (div_number _ _ N2)).
  - apply leb_true. vm_compute. reflexivity.
  - exact (div_number _ _ N1).
  - exact (div_number _ _ N2).
Qed.

(** Earnings of 2,00 against 3,00 at the fallback growth of 5%. *)
Lemma revised_graham_monotone_witness :
  le 34.04 51.060000000000009 = true.
Proof.
  apply (revised_graham_monotone 2 3 None 34.04 51.060000000000009); vm_compute; reflexivity.
Defined.

#[local] Close Scope float_scope.

#[local] Open Scope N_scope.

(** X19: a cell of [classifyValuation] is neutral exactly when its value
    is '-', that is exactly when it is the sentinel; in the reduced server a
    favorable estimate cell shows a value whenever the price is above
    zero. *)
Theorem valuation_cell_shown (cotacaoStr : jsval) (valuation e cotacao : option float) :
  (class (Scraper.classifyValuation cotacaoStr valuation) = neutral <->
   value (Scraper.classifyValuation cotacaoStr valuation) = lit "-") /\
  (class (Scraper.classifyValuation cotacaoStr valuation) = neutral <->
   Scraper.classifyValuation cotacaoStr valuation = dash) /\
  (gt (Server.toNumber cotacao) 0 = true ->
   class (Server.estimateCell e cotacao) = good ->
   value (Server.estimateCell e cotacao) <> lit "-").
Proof.
  assert (P : forall r, lit "R$ " ++ r <> lit "-")
    by (intros r; change (lit "R$ ") with [82; 36; 32]; change (lit "-") with [45]; discriminate).
  split; [|split].
  - unfold Scraper.classifyValuation.
    destruct (Scraper.strToNumber cotacaoStr) as [c|]; [|split; reflexivity].
    destruct valuation as [v|]; [|split; reflexivity].
    destruct (le v 0); [split; reflexivity|]. cbn [class value].
    split; [destruct (lt c v); discriminate | intros H; elim (P _ H)].
  - unfold Scraper.classifyValuation, dash.
    destruct (Scraper.strToNumber cotacaoStr) as [c|]; [|split; reflexivity].
    destruct valuation as [v|]; [|split; reflexivity].
    destruct (le v 0); [split; reflexivity|]. cbn [class].
    split; [destruct (lt c v); discriminate|].
    intros H. apply (f_equal value) in H. cbn [value] in H. elim (P _ H).
  - unfold Server.estimateCell, Server.createResponse. cbn [class value].
    destruct (gt (Server.toNumber e) (Server.toNumber cotacao)) eqn:G; [|discriminate].
    intros C _.
    assert (T : Server.numTruthy e = true).
    { destruct e as [v|]; cbn [Server.numTruthy Server.toNumber] in *.
      - revert G C. generalize (Server.toNumber cotacao). intros c G C.
        unfold Num.truthy. apply negb_true_iff, orb_false_iff.
        unfold gt in *. rewrite ltb_true in G, C.
        assert (Z : FLt 0 v).
        { destruct G as (Nc & Nv & G), C as (N0 & _ & C).
          split; [exact N0|]. split; [exact Nv|].
          destruct (key (Prim2SF 0)) as [[a b] c0], (key (Prim2SF c)) as [[a' b'] c'],
                   (key (Prim2SF v)) as [[a'' b''] c'']. cbv [lexlt] in *. lia. }
        clear G C. split.
        + unfold is_zero. apply eqb_false. intros (_ & _ & A & B).
          destruct Z as (_ & _ & Z). contradiction.
        + apply is_nan_false. apply Z.
      - exfalso. revert G C. generalize (Server.toNumber cotacao). intros c G C.
        unfold gt in *. rewrite ltb_true in G, C.
        destruct G as (_ & _ & G), C as (_ & _ & C).
        destruct (key (Prim2SF 0)) as [[a b] c0], (key (Prim2SF c)) as [[a' b'] c'].
        cbv [lexlt] in *. lia. }
    rewrite T. cbn [orElse].
    destruct (lit "R$ " ++ toFixed2 (Server.toNumber e)) as [|x r] eqn:E.
    + exfalso. revert E. change (lit "R$ ") with [82; 36; 32]. discriminate.
    + rewrite <- E. apply P.
Qed.

(** A price of 30,00 against an estimate of 45: favorable, and shown. *)
Lemma valuation_cell_shown_witness :
  value (Server.estimateCell (Some 45%float) (Some 30%float)) <> lit "-".
Proof.
  apply (proj2 (proj2 (valuation_cell_shown JNull None (Some 45%float) (Some 30%float))));
    vm_compute; reflexivity.
Defined.

Section FullServer.

Variable toUpperCase toLowerCase : jsstring -> jsstring.

(** X20: the full server's /buscar answers 400 exactly when the ticker is
    missing or empty, 500 exactly when there is a ticker and no browser, 404
    exactly when the primary provider's scraper threw, its page failed to
    close, or its price text is missing or empty, and 200 otherwise: a price
    text of '-' is answered 200, and a scraper that throws or a page that
    fails to close never gives 500. *)
Theorem buscar_status (ticker : jsval) (w : Scraper.World) :
  (status (Scraper.buscar toUpperCase toLowerCase ticker w) = 400 <-> Js.truthy ticker = false) /\
  (status (Scraper.buscar toUpperCase toLowerCase ticker w) = 500 <->
     Js.truthy ticker = true /\ Scraper.browser w = false) /\
  (status (Scraper.buscar toUpperCase toLowerCase ticker w) = 404 <->
     Js.truthy ticker = true /\ Scraper.browser w = true /\
     (failed (Scraper.i10Run w) \/
      exists d, page (Scraper.i10Run w) = Extracted d /\
                Js.truthy (Scraper.I10.cotacao d) = false)) /\
  (status (Scraper.buscar toUpperCase toLowerCase ticker w) = 200 <->
     Js.truthy ticker = true /\ Scraper.browser w = true /\
     exists d, Scraper.i10Run w = mkRun (Extracted d) true /\
               Js.truthy (Scraper.I10.cotacao d) = true) /\
  (forall d,
     Js.truthy ticker = true -> Scraper.browser w = true ->
     Scraper.i10Run w = mkRun (Extracted d) true ->
     Scraper.I10.cotacao d = text "-" ->
     status (Scraper.buscar toUpperCase toLowerCase ticker w) = 200).
Proof.
  destruct ticker as [| |[|c t]]; cbn [Js.truthy];
    try (cbn [Scraper.buscar status]; repeat split; intros; try discriminate; try tauto;
         match goal with H : _ /\ _ |- _ => destruct H; discriminate end).
  destruct (Scraper.browser w) eqn:B.
  - rewrite (buscar_eq toUpperCase toLowerCase c t w B).
    pose proof (primary_missing (Scraper.i10Run w)) as M.
    destruct (Js.truthy _) eqn:T; cbn [status].
    + assert (D : exists d, Scraper.i10Run w = mkRun (Extracted d) true /\
                            Js.truthy (Scraper.I10.cotacao d) = true).
      { revert T. unfold Scraper.scrapeInvestidor10, Scraper.scrape.
        destruct (Scraper.i10Run w) as [[d|] [|]]; cbn [page closed Scraper.valueOr];
          try discriminate.
        intros T. exists d. split; [reflexivity | exact T]. }
      split; [split; intros H; discriminate H|].
      split; [split; [intros H; discriminate H | intros (_ & H); discriminate H]|].
      split; [split; [intros H; discriminate H|]|].
      { intros (_ & _ & H). apply M in H. discriminate H. }
      split; [split; [intros _; repeat split; exact D | reflexivity]|].
      reflexivity.
    + assert (D : failed (Scraper.i10Run w) \/
                  exists d, page (Scraper.i10Run w) = Extracted d /\
                            Js.truthy (Scraper.I10.cotacao d) = false)
        by (apply M; reflexivity).
      split; [split; intros H; discriminate H|].
      split; [split; [intros H; discriminate H | intros (_ & H); discriminate H]|].
      split; [split; [intros _; repeat split; exact D | reflexivity]|].
      split; [split; [intros H; discriminate H|]|].
      { intros (_ & _ & d & Hr & Hp). exfalso.
        revert T. unfold Scraper.scrapeInvestidor10, Scraper.scrape. rewrite Hr.
        cbn [page closed Scraper.valueOr]. rewrite Hp. discriminate. }
      intros d _ _ Hr Hp. exfalso.
      revert T. unfold Scraper.scrapeInvestidor10, Scraper.scrape. rewrite Hr.
      cbn [page closed Scraper.valueOr]. rewrite Hp. discriminate.
  - unfold Scraper.buscar. rewrite B. cbn [status].
    repeat split; intros; try discriminate; try tauto;
      match goal with H : _ /\ _ |- _ => destruct H as (? & ? & ?); discriminate end.
Qed.

End FullServer.

Module Plainly.

Lemma eqb_eq (a b : jsstring) : Js.eqb a b = true <-> a = b.
Proof. unfold Js.eqb. destruct (list_eq_dec N.eq_dec a b); split; congruence. Qed.

Lemma eqb_refl (a : jsstring) : Js.eqb a a = true.
Proof. apply eqb_eq. reflexivity. Qed.

Lemma eqb_sym (a b : jsstring) : Js.eqb a b = true -> Js.eqb b a = true.
Proof. rewrite !eqb_eq. congruence. Qed.

Lemma eqb_trans (a b c : jsstring) : Js.eqb a b = true -> Js.eqb b c = true -> Js.eqb a c = true.
Proof. rewrite !eqb_eq. congruence. Qed.

Lemma plain_bcrypt (password salt : jsstring) :
  plainCompare password (plainHash password salt) = true.
Proof.
  unfold plainCompare, plainHash. rewrite length_app.
  replace (length salt + length password - length password)%nat with (length salt) by lia.
  rewrite skipn_app, skipn_all, Nat.sub_diag. cbn [skipn app]. apply eqb_refl.
Qed.

Lemma empty_table : oneAccountPerEmail Js.eqb [].
Proof. intros e. cbn. lia. Qed.

End Plainly.

Import Plainly.

(** An estimate of about 18.97 against a price of 30,00 is shown as
    "R$ 18,97", which reads back as 18.97. *)
Lemma valuation_reads_back_witness :
  Scraper.strToNumber
    (JStr (value (Scraper.classifyValuation (text "R$ 30,00") (Some 18.973665961010276%float))))
  = Some 18.97%float.
Proof.
  refine (eq_trans (proj1 (valuation_reads_back (text "R$ 30,00") 30%float
                             18.973665961010276%float _ _ _)) _); vm_compute; reflexivity.
Defined.

(** The first account of an empty table. *)
Lemma register_keeps_one_account_witness :
  oneAccountPerEmail Js.eqb
    (snd (Auth.register Js.eqb plainHash Auth.scraperTexts
            (text "ana@example.com") (text "segredo") calm [])).
Proof.
  apply (proj1 (register_keeps_one_account Js.eqb plainHash Auth.scraperTexts
                  (text "ana@example.com") (text "segredo") calm [] []
                  eqb_refl eqb_sym eqb_trans) empty_table).
Defined.

(** The same account, logging in. *)
Lemma register_then_login_witness :
  exists i s,
    Auth.inserted calm = Some i /\ Auth.salt calm = Some s /\
    Auth.login Js.eqb plainCompare Auth.scraperTexts
      (text "ana@example.com") (text "segredo") calm
      (([] ++ [Auth.User.mk i (lit "ana@example.com") (plainHash (lit "segredo") s)]) ++ [])
    = mkResponse 200
        (DataBody (Auth.mkSession (Auth.logged Auth.scraperTexts) i (lit "ana@example.com"))).
Proof.
  destruct (register_then_login Js.eqb plainHash plainCompare Auth.scraperTexts
              (lit "ana@example.com") (lit "segredo") calm calm [] [] []
              eqb_refl plain_bcrypt eq_refl eq_refl eq_refl)
    as (i & s & Hi & Hs & _ & L & _).
  exists i, s. split; [exact Hi|]. split; [exact Hs|]. apply L. reflexivity.
Defined.

(** A fund quoted at "R$ 10,50" that paid "0,10" per share. *)
Lemma scrapeFIIs_agrees_witness :
  Scraper.strToNumber (JStr (render priceLayout)) = Some (Standalone.numberOf (render priceLayout)) /\
  Standalone.numberOf (render priceLayout) = 10.5%float.
Proof.
  split; [|vm_compute; reflexivity].
  apply (proj1 (scrapeFIIs_agrees asciiUpper priceLayout incomeLayout [49; 48] [48]
                  (lit "knri11") (lit "8,1%") (lit "0,98") (lit "0,95%")
                  ltac:(unfold wellFormed, allSpace, allDigits;
                        repeat split; repeat constructor; discriminate)
                  eq_refl
                  ltac:(unfold wellFormed, allSpace, allDigits;
                        repeat split; repeat constructor; discriminate)
                  eq_refl)).
Defined.

Module Edges.

Lemma nan_spec (v : float) : isNaN v = true -> Prim2SF v = S754_nan.
Proof.
  intros H. destruct (number_dec (Prim2SF v)) as [N | E]; [|exact E].
  apply is_nan_false in N. unfold isNaN in H. congruence.
Qed.

End Edges.

Import Edges.

(** X21: for a price that normalizes, an estimate that is [NaN] is shown
    as "R$ NaN" with the unfavorable verdict, and one that is [Infinity] as
    "R$ Infinity", favorable unless the price is [Infinity] too. *)
Theorem valuation_not_finite (cotacaoStr : jsval) (price v : float) :
  Scraper.strToNumber cotacaoStr = Some price ->
  (isNaN v = true ->
     Scraper.classifyValuation cotacaoStr (Some v) = mkCell (lit "R$ NaN") bad) /\
  (Prim2SF v = S754_infinity false ->
     Scraper.classifyValuation cotacaoStr (Some v)
     = mkCell (lit "R$ Infinity") (if lt price infinity then good else bad)).
Proof.
  intros Hp. unfold Scraper.classifyValuation. rewrite Hp. split.
  - intros H. apply nan_spec in H.
    assert (L : le v 0 = false).
    { unfold le. apply leb_false. intros (N & _). apply N. exact H. }
    assert (C : lt price v = false).
    { unfold lt. apply ltb_false. intros (_ & N & _). apply N. exact H. }
    rewrite L, C. unfold toFixed2. rewrite H. reflexivity.
  - intros H.
    assert (L : le v 0 = false).
    { unfold le. apply leb_false. intros (_ & _ & K). apply K. rewrite H.
      replace (Prim2SF 0) with (S754_zero false) by (vm_compute; reflexivity).
      cbv [key lexlt]. lia. }
    assert (E : v = infinity).
    { apply Prim2SF_inj. rewrite H. vm_compute. reflexivity. }
    rewrite L. unfold toFixed2. rewrite H. rewrite E. reflexivity.
Qed.

(** A price of 30,00 against an estimate that overflowed. *)
Lemma valuation_not_finite_witness :
  Scraper.classifyValuation (text "R$ 30,00") (Some infinity) = mkCell (lit "R$ Infinity") good.
Proof.
  refine (eq_trans (proj2 (valuation_not_finite (text "R$ 30,00") 30%float infinity _) _) _);
    vm_compute; reflexivity.
Defined.
